(** * CAN bus reader: a shallow embedding of [canbus_reader.py]

    The reader object ([self]) is a record; every method is a function in a
    small state-and-exception monad over the pair of the reader and the
    outside world.  The outside world holds what the reader cannot decide:
    the outcome of every call into the python-can transport, the wall clock
    and the printed log.  Python exceptions are explicit results, so a
    [try]/[except] block is [try_catch] and "does not raise" is a statement
    about the value a method returns.

    The outside world also holds the scheduler.  The monitor and the health
    monitor are threads of the reader: each takes the turns of its loop
    whole, at its start (as many as the scheduler says) and afterwards
    between two operations of the user (a turn is an event of a run, like an
    operation).  A turn is never cut by an operation, nor an operation by a
    turn.

    What is not modelled: the rounding of floats (clock readings and
    timeouts are rationals); a callback that calls back into the reader;
    exceptions out of the logger and out of [threading], which are taken to
    return. *)

From Stdlib Require Import ZArith List String Ascii Bool Lia QArith.
From Stdlib Require Import DecimalString NArith Nnat.
Import ListNotations.
Open Scope string_scope.
Open Scope Z_scope.

Set Implicit Arguments.

(** ** Python values that cross the transport boundary *)

(** Formatting of an integer with the ["X"] presentation type:
    upper-case hexadecimal, a leading minus sign for negative numbers. *)
Definition hex_digit (d : N) : ascii :=
  match d with
  | 0%N => "0" | 1%N => "1" | 2%N => "2" | 3%N => "3"
  | 4%N => "4" | 5%N => "5" | 6%N => "6" | 7%N => "7"
  | 8%N => "8" | 9%N => "9" | 10%N => "A" | 11%N => "B"
  | 12%N => "C" | 13%N => "D" | 14%N => "E" | _ => "F"
  end%char.

Fixpoint hex_digits (fuel : nat) (n : N) (acc : string) : string :=
  match fuel with
  | O => acc
  | S fuel' =>
      let acc' := String (hex_digit (N.modulo n 16)) acc in
      if N.eqb (N.div n 16) 0 then acc' else hex_digits fuel' (N.div n 16) acc'
  end.

Definition format_X (z : Z) : string :=
  let n := Z.abs_N z in
  let digits := hex_digits (S (N.to_nat (N.size n))) n EmptyString in
  if z <? 0 then "-" ++ digits else digits.

(** A Python float, without its rounding: clock readings and timeouts. *)
Definition float := Q.

(** An insertion-ordered [dict] with string keys. *)
Definition dict (V : Type) := list (string * V).

Fixpoint dict_get {V} (k : string) (d : dict V) : option V :=
  match d with
  | [] => None
  | (k', v) :: d' => if String.eqb k' k then Some v else dict_get k d'
  end.

(** [d[k] = v]: an existing key keeps its position, a new key goes last. *)
Fixpoint dict_set {V} (k : string) (v : V) (d : dict V) : dict V :=
  match d with
  | [] => [(k, v)]
  | (k', v') :: d' =>
      if String.eqb k' k then (k, v) :: d' else (k', v') :: dict_set k v d'
  end.

Definition dict_values {V} (d : dict V) : list V := map snd d.

Inductive atom : Type :=
| AInt (z : Z)
| ABool (b : bool)
| AStr (s : string).

Inductive pyval : Type :=
| VNone
| VStr (s : string)
| VInt (z : Z)
| VBool (b : bool)
| VFloat (q : float)
| VList (l : list (dict atom)).

Definition is_none (v : pyval) : bool :=
  match v with VNone => true | _ => false end.

Definition of_option {A} (f : A -> pyval) (o : option A) : pyval :=
  match o with Some a => f a | None => VNone end.

(** ** Data classes *)

Inductive CANMessageType : Type := STANDARD | EXTENDED | REMOTE | ERROR | OVERLOAD.

Definition CANMessageType_eqb (a b : CANMessageType) : bool :=
  match a, b with
  | STANDARD, STANDARD | EXTENDED, EXTENDED | REMOTE, REMOTE
  | ERROR, ERROR | OVERLOAD, OVERLOAD => true
  | _, _ => false
  end.

Module CANMessage.
Record t : Type := Build {
  can_id : Z;
  data : list Z;
  message_type : CANMessageType;
  name : string;
  description : string;
  dlc : Z;
  is_rx : bool;
  is_tx : bool;
  timestamp : option float;
  channel : string
}.

(** [can_msg.name = n; can_msg.description = d] *)
Definition relabel (n d : string) (m : t) : t :=
  Build (can_id m) (data m) (message_type m) n d (dlc m)
        (is_rx m) (is_tx m) (timestamp m) (channel m).
End CANMessage.

Module CANFilter.
Record t : Type := Build {
  can_id : Z;
  can_mask : Z;
  extended : bool
}.

(** The test of [remove_filter]'s comprehension. *)
Definition matches (id mask : Z) (ext : bool) (f : t) : bool :=
  (can_id f =? id) && (can_mask f =? mask) && Bool.eqb (extended f) ext.

(** The dictionary [connect] hands to [set_filters] for one rule. *)
Definition to_dict (f : t) : dict atom :=
  [("can_id", AInt (can_id f)); ("can_mask", AInt (can_mask f));
   ("extended", ABool (extended f))].
End CANFilter.

(** python-can's [Message], as far as the reader reads or writes it. *)
Module Message.
Record t : Type := Build {
  arbitration_id : Z;
  data : list Z;
  is_extended_id : bool;
  is_remote_frame : bool;
  dlc : Z;
  timestamp : float;
  channel : option string
}.
End Message.

(** ** Exceptions *)

Inductive exn : Type :=
| CanTimeoutError (msg : string)
| Exception (msg : string).

(** [str(e)] *)
Definition str (e : exn) : string :=
  match e with CanTimeoutError msg => msg | Exception msg => msg end.

Inductive outcome (A : Type) : Type :=
| Return (a : A)
| Raise (e : exn).
Arguments Raise {A} e.

(** ** The outside world *)

(** A call that leaves the reader: into the transport, or into the callback
    the user gave to [start_monitoring] (a callback is known by a number;
    it is taken not to call back into the reader). *)
Inductive call : Type :=
| BusOpen (bus_config : dict pyval)
| SetFilters (can_filters : list (dict atom))
| Send (message : Message.t)
| Recv
| Shutdown
| NotifierStop
| Callback (callback : nat) (message : CANMessage.t).

(** What the outside answers to one call.  Only [recv] has a result worth
    reading: [Returns None] is "no frame"; the other calls ignore it. *)
Inductive response : Type :=
| Returns (m : option Message.t)
| Raises (e : exn).

(** One entry of the dictionary [read_data] returns. *)
Record data_point : Type := DataPoint {
  value : list Z;
  point_can_id : Z;
  point_timestamp : option float;
  point_description : string;
  quality : string
}.

(** What is handed to [logger.log] as [data]: a formatted line, or the
    dictionary [save_data] logs as it is. *)
Inductive log_data : Type :=
| LText (s : string)
| LData (d : dict data_point).

Module World.
Record t : Type := Build {
  responses : list response;   (* answers to the calls to come *)
  polls : list nat;            (* per receive loop: how often its guard holds *)
  clock : list float;          (* readings of time.time() to come *)
  calls : list call;           (* calls made so far, oldest first *)
  out : list (Z * log_data);   (* lines printed by the logger *)
  sched : list nat             (* per thread started: the turns of its loop
                                  it takes before its starter goes on *)
}.

Definition set_responses v (w : t) : t :=
  Build v (polls w) (clock w) (calls w) (out w) (sched w).

Definition set_polls v (w : t) : t :=
  Build (responses w) v (clock w) (calls w) (out w) (sched w).

Definition set_clock v (w : t) : t :=
  Build (responses w) (polls w) v (calls w) (out w) (sched w).

Definition set_calls v (w : t) : t :=
  Build (responses w) (polls w) (clock w) v (out w) (sched w).

Definition set_out v (w : t) : t :=
  Build (responses w) (polls w) (clock w) (calls w) v (sched w).

Definition set_sched v (w : t) : t :=
  Build (responses w) (polls w) (clock w) (calls w) (out w) v.
End World.

(** ** The reader object *)

Module SimpleLogger.
Record t : Type := Build { log_level : Z }.
End SimpleLogger.

(** The arguments of [CANBusReader.__init__].  [None] is an argument that
    was not passed (for the [Optional] ones also an explicit [None]);
    [kwargs] are the extra keyword arguments. *)
Module Args.
Record t : Type := Build {
  interface : option string;
  channel : option string;
  bitrate : option Z;
  timeout : option float;
  fd : option bool;
  data_bitrate : option Z;
  app_name : option string;
  serial : option string;
  hw_type : option string;
  rx_own_msgs : option bool;
  fd_data_bitrate : option Z;
  log_errors : option bool;
  error_filters : option (list (dict atom));
  serial_number : option string;
  can_filters : option (list (dict atom));
  logger : option SimpleLogger.t;
  kwargs : dict pyval
}.

Definition defaults : t :=
  Build None None None None None None None None None None None None None
        None None None [].
End Args.

(** The attributes [__init__] copies from its arguments. *)
Module Config.
Record t : Type := Build {
  interface : string;
  channel : string;
  bitrate : Z;
  timeout : float;
  fd : bool;
  data_bitrate : Z;
  app_name : string;
  serial : option string;
  hw_type : option string;
  rx_own_msgs : bool;
  fd_data_bitrate : option Z;
  log_errors : bool;
  error_filters : list (dict atom);
  serial_number : option string;
  can_filters : list (dict atom)
}.
End Config.

(** [self.stats] *)
Module Stats.
Record t : Type := Build {
  total_messages : Z;
  received_messages : Z;
  transmitted_messages : Z;
  error_messages : Z;
  filtered_messages : Z;
  connection_errors : Z;
  last_error : option string
}.

Definition set_total_messages v (st : t) : t :=
  Build v (received_messages st) (transmitted_messages st)
        (error_messages st) (filtered_messages st) (connection_errors st)
        (last_error st).

Definition set_received_messages v (st : t) : t :=
  Build (total_messages st) v (transmitted_messages st) (error_messages st)
        (filtered_messages st) (connection_errors st) (last_error st).

Definition set_transmitted_messages v (st : t) : t :=
  Build (total_messages st) (received_messages st) v (error_messages st)
        (filtered_messages st) (connection_errors st) (last_error st).

Definition set_connection_errors v (st : t) : t :=
  Build (total_messages st) (received_messages st) (transmitted_messages st)
        (error_messages st) (filtered_messages st) v (last_error st).

Definition set_last_error v (st : t) : t :=
  Build (total_messages st) (received_messages st) (transmitted_messages st)
        (error_messages st) (filtered_messages st) (connection_errors st) v.
End Stats.

(** A thread, known by its target: [_monitor_loop] for the first,
    [_health_monitor_loop] for the second. *)
Inductive Thread : Type := MonitorThread | HealthMonitorThread.

Module Reader.
Record t : Type := Build {
  config : Config.t;
  logger : SimpleLogger.t;
  bus : option (dict pyval);        (* the Bus, known by its configuration *)
  notifier : option unit;
  is_connected : bool;
  last_read_time : option float;
  messages : dict CANMessage.t;
  message_queue : list Message.t;
  filters : list CANFilter.t;
  stats : Stats.t;
  last_health_check : option float;
  health_status : string;
  health_monitor_thread : option Thread;
  health_monitor_running : bool;
  monitor_thread : option Thread;
  monitor_running : bool;
  monitor_callback : option nat     (* a callable, known by a number *)
}.

Definition set_bus v (r : t) : t :=
  Build (config r) (logger r) v (notifier r) (is_connected r)
        (last_read_time r) (messages r) (message_queue r) (filters r)
        (stats r) (last_health_check r) (health_status r)
        (health_monitor_thread r) (health_monitor_running r)
        (monitor_thread r) (monitor_running r) (monitor_callback r).

Definition set_notifier v (r : t) : t :=
  Build (config r) (logger r) (bus r) v (is_connected r) (last_read_time r)
        (messages r) (message_queue r) (filters r) (stats r)
        (last_health_check r) (health_status r) (health_monitor_thread r)
        (health_monitor_running r) (monitor_thread r) (monitor_running r)
        (monitor_callback r).

Definition set_is_connected v (r : t) : t :=
  Build (config r) (logger r) (bus r) (notifier r) v (last_read_time r)
        (messages r) (message_queue r) (filters r) (stats r)
        (last_health_check r) (health_status r) (health_monitor_thread r)
        (health_monitor_running r) (monitor_thread r) (monitor_running r)
        (monitor_callback r).

Definition set_last_read_time v (r : t) : t :=
  Build (config r) (logger r) (bus r) (notifier r) (is_connected r) v
        (messages r) (message_queue r) (filters r) (stats r)
        (last_health_check r) (health_status r) (health_monitor_thread r)
        (health_monitor_running r) (monitor_thread r) (monitor_running r)
        (monitor_callback r).

Definition set_messages v (r : t) : t :=
  Build (config r) (logger r) (bus r) (notifier r) (is_connected r)
        (last_read_time r) v (message_queue r) (filters r) (stats r)
        (last_health_check r) (health_status r) (health_monitor_thread r)
        (health_monitor_running r) (monitor_thread r) (monitor_running r)
        (monitor_callback r).

Definition set_filters v (r : t) : t :=
  Build (config r) (logger r) (bus r) (notifier r) (is_connected r)
        (last_read_time r) (messages r) (message_queue r) v (stats r)
        (last_health_check r) (health_status r) (health_monitor_thread r)
        (health_monitor_running r) (monitor_thread r) (monitor_running r)
        (monitor_callback r).

Definition set_stats v (r : t) : t :=
  Build (config r) (logger r) (bus r) (notifier r) (is_connected r)
        (last_read_time r) (messages r) (message_queue r) (filters r) v
        (last_health_check r) (health_status r) (health_monitor_thread r)
        (health_monitor_running r) (monitor_thread r) (monitor_running r)
        (monitor_callback r).

Definition set_last_health_check v (r : t) : t :=
  Build (config r) (logger r) (bus r) (notifier r) (is_connected r)
        (last_read_time r) (messages r) (message_queue r) (filters r)
        (stats r) v (health_status r) (health_monitor_thread r)
        (health_monitor_running r) (monitor_thread r) (monitor_running r)
        (monitor_callback r).

Definition set_health_status v (r : t) : t :=
  Build (config r) (logger r) (bus r) (notifier r) (is_connected r)
        (last_read_time r) (messages r) (message_queue r) (filters r)
        (stats r) (last_health_check r) v (health_monitor_thread r)
        (health_monitor_running r) (monitor_thread r) (monitor_running r)
        (monitor_callback r).

Definition set_health_monitor_thread v (r : t) : t :=
  Build (config r) (logger r) (bus r) (notifier r) (is_connected r)
        (last_read_time r) (messages r) (message_queue r) (filters r)
        (stats r) (last_health_check r) (health_status r) v
        (health_monitor_running r) (monitor_thread r) (monitor_running r)
        (monitor_callback r).

Definition set_health_monitor_running v (r : t) : t :=
  Build (config r) (logger r) (bus r) (notifier r) (is_connected r)
        (last_read_time r) (messages r) (message_queue r) (filters r)
        (stats r) (last_health_check r) (health_status r)
        (health_monitor_thread r) v (monitor_thread r) (monitor_running r)
        (monitor_callback r).

Definition set_monitor_thread v (r : t) : t :=
  Build (config r) (logger r) (bus r) (notifier r) (is_connected r)
        (last_read_time r) (messages r) (message_queue r) (filters r)
        (stats r) (last_health_check r) (health_status r)
        (health_monitor_thread r) (health_monitor_running r) v
        (monitor_running r) (monitor_callback r).

Definition set_monitor_running v (r : t) : t :=
  Build (config r) (logger r) (bus r) (notifier r) (is_connected r)
        (last_read_time r) (messages r) (message_queue r) (filters r)
        (stats r) (last_health_check r) (health_status r)
        (health_monitor_thread r) (health_monitor_running r)
        (monitor_thread r) v (monitor_callback r).

Definition set_monitor_callback v (r : t) : t :=
  Build (config r) (logger r) (bus r) (notifier r) (is_connected r)
        (last_read_time r) (messages r) (message_queue r) (filters r)
        (stats r) (last_health_check r) (health_status r)
        (health_monitor_thread r) (health_monitor_running r)
        (monitor_thread r) (monitor_running r) v.
End Reader.

Record State : Type := mkState {
  self : Reader.t;
  world : World.t
}.

(** ** The monad of methods *)

Definition M (A : Type) : Type := State -> outcome A * State.

Definition ret {A} (a : A) : M A := fun s => (Return a, s).

Definition bind {A B} (m : M A) (k : A -> M B) : M B :=
  fun s =>
    match m s with
    | (Return a, s') => k a s'
    | (Raise e, s') => (Raise e, s')
    end.

Definition raise {A} (e : exn) : M A := fun s => (Raise e, s).

(** [try: m  except Exception as e: h e].  What [m] did to the state before
    it raised stays done. *)
Definition try_catch {A} (m : M A) (h : exn -> M A) : M A :=
  fun s =>
    match m s with
    | (Return a, s') => (Return a, s')
    | (Raise e, s') => h e s'
    end.

Notation "x <- m ;; k" := (bind m (fun x => k))
  (at level 61, m at next level, right associativity).
Notation "m ;; k" := (bind m (fun _ => k))
  (at level 61, right associativity).

Definition get_self : M Reader.t := fun s => (Return (self s), s).

Definition update (f : Reader.t -> Reader.t) : M unit :=
  fun s => (Return tt, mkState (f (self s)) (world s)).

Definition update_stats (f : Stats.t -> Stats.t) : M unit :=
  update (fun r => Reader.set_stats (f (Reader.stats r)) r).

(** A call that leaves the reader: it is recorded, and the world's next
    answer decides how it ends.  A world that scripts no answer lets it
    return. *)
Definition transport (c : call) : M (option Message.t) :=
  fun s =>
    let w := World.set_calls (World.calls (world s) ++ [c]) (world s) in
    match World.responses w with
    | [] => (Return None, mkState (self s) w)
    | Returns m :: rest =>
        (Return m, mkState (self s) (World.set_responses rest w))
    | Raises e :: rest =>
        (Raise e, mkState (self s) (World.set_responses rest w))
    end.

Definition method_name (c : call) : string :=
  match c with
  | BusOpen _ => "Bus"
  | SetFilters _ => "set_filters"
  | Send _ => "send"
  | Recv => "recv"
  | Shutdown => "shutdown"
  | NotifierStop => "stop"
  | Callback _ _ => "__call__"
  end.

(** [self.bus.method(...)]: an attribute error when [self.bus] is [None]. *)
Definition bus_method (c : call) : M (option Message.t) :=
  r <- get_self ;;
  match Reader.bus r with
  | None =>
      raise (Exception ("'NoneType' object has no attribute '"
                          ++ method_name c ++ "'"))
  | Some _ => transport c
  end.

(** [time.time()], where the reader stores its value.  A world that
    scripts no reading shows zero. *)
Definition time_time : M float :=
  fun s =>
    match World.clock (world s) with
    | [] => (Return 0%Q, s)
    | t :: rest => (Return t, mkState (self s) (World.set_clock rest (world s)))
    end.

(** The guard [time.time() - start_time < timeout] of the receive loop is
    decided by the clock, which belongs to the world: for each run of the
    loop the world says how many times the guard holds before the deadline
    has passed ([start_time] and the readings of the guard are not kept).
    A world that scripts no number lets the deadline pass at once. *)
Definition deadline_polls (timeout : float) : M nat :=
  fun s =>
    match World.polls (world s) with
    | [] => (Return O, s)
    | n :: rest => (Return n, mkState (self s) (World.set_polls rest (world s)))
    end.

(** [self.logger.log(data, log_type, ...)]: printed when the level allows. *)
Definition log (data : log_data) (log_type : Z) : M unit :=
  fun s =>
    if SimpleLogger.log_level (Reader.logger (self s)) <=? log_type
    then (Return tt,
          mkState (self s)
                  (World.set_out (World.out (world s) ++ [(log_type, data)])
                                 (world s)))
    else (Return tt, s).

Definition log_text (text : string) (log_type : Z) : M unit :=
  log (LText text) log_type.

Arguments log : simpl never.
Arguments log_text : simpl never.

Definition str_bool (b : bool) : string := if b then "True" else "False".

Definition str_int (z : Z) : string :=
  DecimalString.NilZero.string_of_int (Z.to_int z).

(** ** Construction *)

Definition or_default {A} (o : option A) (d : A) : A :=
  match o with Some a => a | None => d end.

(** The attribute assignments of [__init__]; the extra keyword arguments
    are stored nowhere.  The last statement of [__init__] starts the health
    monitor: the constructor is completed below, after the threads. *)
Definition attributes (a : Args.t) : Reader.t :=
  {| Reader.config :=
       {| Config.interface := or_default (Args.interface a) "socketcan";
          Config.channel := or_default (Args.channel a) "can0";
          Config.bitrate := or_default (Args.bitrate a) 500000;
          Config.timeout := or_default (Args.timeout a) 1%Q;
          Config.fd := or_default (Args.fd a) false;
          Config.data_bitrate := or_default (Args.data_bitrate a) 2000000;
          Config.app_name := or_default (Args.app_name a) "canbus_reader";
          Config.serial := Args.serial a;
          Config.hw_type := Args.hw_type a;
          Config.rx_own_msgs := or_default (Args.rx_own_msgs a) false;
          Config.fd_data_bitrate := Args.fd_data_bitrate a;
          Config.log_errors := or_default (Args.log_errors a) true;
          Config.error_filters := or_default (Args.error_filters a) [];
          Config.serial_number := Args.serial_number a;
          Config.can_filters := or_default (Args.can_filters a) [] |};
     Reader.logger := or_default (Args.logger a) (SimpleLogger.Build 0);
     Reader.bus := None;
     Reader.notifier := None;
     Reader.is_connected := false;
     Reader.last_read_time := None;
     Reader.messages := [];
     Reader.message_queue := [];
     Reader.filters := [];
     Reader.stats := Stats.Build 0 0 0 0 0 0 None;
     Reader.last_health_check := None;
     Reader.health_status := "unknown";
     Reader.health_monitor_thread := None;
     Reader.health_monitor_running := false;
     Reader.monitor_thread := None;
     Reader.monitor_running := false;
     Reader.monitor_callback := None |}.

(** ** Message and filter registries *)

Definition add_message (can_message : CANMessage.t) : M unit :=
  update (fun r =>
            Reader.set_messages
              (dict_set (CANMessage.name can_message) can_message
                        (Reader.messages r)) r) ;;
  log_text ("Added CAN message: " ++ CANMessage.name can_message
              ++ " (ID: 0x" ++ format_X (CANMessage.can_id can_message) ++ ")") 0.

Fixpoint add_messages (can_messages : list CANMessage.t) : M unit :=
  match can_messages with
  | [] => ret tt
  | can_message :: rest => add_message can_message ;; add_messages rest
  end.

Definition filter_text (can_id can_mask : Z) (extended : bool) : string :=
  "ID=0x" ++ format_X can_id ++ ", Mask=0x" ++ format_X can_mask
    ++ ", Extended=" ++ str_bool extended.

Definition add_filter (can_id can_mask : Z) (extended : bool) : M unit :=
  let filter_obj := CANFilter.Build can_id can_mask extended in
  update (fun r => Reader.set_filters (Reader.filters r ++ [filter_obj]) r) ;;
  log_text ("Added filter: " ++ filter_text can_id can_mask extended) 0.

Definition remove_filter (can_id can_mask : Z) (extended : bool) : M unit :=
  update (fun r =>
            Reader.set_filters
              (filter (fun f => negb (CANFilter.matches can_id can_mask extended f))
                      (Reader.filters r)) r) ;;
  log_text ("Removed filter: " ++ filter_text can_id can_mask extended) 0.

Definition clear_filters : M unit :=
  update (Reader.set_filters []) ;;
  log_text "Cleared all CAN filters" 0.

(** ** Connection *)

(** The dictionary [connect] builds first. *)
Definition full_bus_config (r : Reader.t) : dict pyval :=
  let c := Reader.config r in
  [("interface", VStr (Config.interface c));
   ("channel", VStr (Config.channel c));
   ("bitrate", VInt (Config.bitrate c));
   ("timeout", VFloat (Config.timeout c));
   ("fd", VBool (Config.fd c));
   ("data_bitrate", VInt (Config.data_bitrate c));
   ("app_name", VStr (Config.app_name c));
   ("serial", of_option VStr (Config.serial c));
   ("hw_type", of_option VStr (Config.hw_type c));
   ("rx_own_msgs", VBool (Config.rx_own_msgs c));
   ("fd_data_bitrate", of_option VInt (Config.fd_data_bitrate c));
   ("log_errors", VBool (Config.log_errors c));
   ("error_filters", VList (Config.error_filters c));
   ("serial_number", of_option VStr (Config.serial_number c));
   ("can_filters", VList (Config.can_filters c))].

(** The same dictionary stripped of its [None] values. *)
Definition bus_config (r : Reader.t) : dict pyval :=
  filter (fun kv => negb (is_none (snd kv))) (full_bus_config r).

(** The [try] block of [connect]. *)
Definition connect_try : M bool :=
  r <- get_self ;;
  if Reader.is_connected r then ret true else
  let config := bus_config r in
  transport (BusOpen config) ;;
  update (Reader.set_bus (Some config)) ;;
  (match Reader.filters r with
   | [] => ret None
   | _ :: _ => bus_method (SetFilters (map CANFilter.to_dict (Reader.filters r)))
   end) ;;
  update (Reader.set_is_connected true) ;;
  update_stats (Stats.set_connection_errors 0) ;;
  update_stats (Stats.set_last_error None) ;;
  log_text ("Connected to CAN bus: " ++ Config.interface (Reader.config r)
              ++ ":" ++ Config.channel (Reader.config r) ++ " at "
              ++ str_int (Config.bitrate (Reader.config r)) ++ " bps") 0 ;;
  ret true.

(** The [except] block of [connect]. *)
Definition connect_except (e : exn) : M bool :=
  update (Reader.set_is_connected false) ;;
  update_stats (fun st =>
    Stats.set_connection_errors (Stats.connection_errors st + 1) st) ;;
  update_stats (Stats.set_last_error (Some (str e))) ;;
  log_text ("Failed to connect to CAN bus: " ++ str e) 2 ;;
  ret false.

Definition connect : M bool := try_catch connect_try connect_except.

Definition stop_monitoring : M unit :=
  update (Reader.set_monitor_running false) ;;
  r <- get_self ;;
  (match Reader.monitor_thread r with
   | Some _ => update (Reader.set_monitor_thread None)
       (* join: the monitor ends at its next look at the flag *)
   | None => ret tt
   end) ;;
  log_text "Stopped CAN bus monitoring" 0.

(** The [try] block of [disconnect]. *)
Definition disconnect_try : M unit :=
  stop_monitoring ;;
  r <- get_self ;;
  (match Reader.notifier r with
   | Some _ => transport NotifierStop ;; update (Reader.set_notifier None)
   | None => ret tt
   end) ;;
  (match Reader.bus r with
   | Some _ => transport Shutdown ;; update (Reader.set_bus None)
   | None => ret tt
   end) ;;
  update (Reader.set_is_connected false) ;;
  log_text "Disconnected from CAN bus" 0.

Definition disconnect : M unit :=
  try_catch disconnect_try
            (fun e => log_text ("Error during disconnect: " ++ str e) 2).

(** [not self.is_connected and not self.connect()], negated: [connect] is
    called only when the reader is not connected. *)
Definition ensure_connected : M bool :=
  r <- get_self ;;
  if Reader.is_connected r then ret true else connect.

(** ** Sending and receiving *)

(** What [bytearray(data)] accepts of a list of integers. *)
Definition is_byte (z : Z) : bool := (0 <=? z) && (z <? 256).

(** python-can's [Message(arbitration_id=..., data=..., is_extended_id=...,
    is_remote_frame=..., dlc=..., channel=...)]: a remote frame carries no
    data, whatever was passed; for another frame [bytearray(data)] raises a
    [ValueError] when an entry is not a byte.  The length code is stored as
    it is passed, the timestamp is zero. *)
Definition Message_init (arbitration_id : Z) (data : list Z)
  (is_extended_id is_remote_frame : bool) (dlc : Z) (channel : option string)
  : M Message.t :=
  if is_remote_frame
  then ret (Message.Build arbitration_id [] is_extended_id true dlc 0%Q channel)
  else if forallb is_byte data
  then ret (Message.Build arbitration_id data is_extended_id false dlc 0%Q
                          channel)
  else raise (Exception "byte must be in range(0, 256)").

(** The [try] block of [send_message]: the message is built inside it. *)
Definition send_try (can_message : CANMessage.t) : M bool :=
  message <-
    Message_init
      (CANMessage.can_id can_message)
      (CANMessage.data can_message)
      (CANMessageType_eqb (CANMessage.message_type can_message) EXTENDED)
      (CANMessageType_eqb (CANMessage.message_type can_message) REMOTE)
      (CANMessage.dlc can_message)
      (Some (CANMessage.channel can_message)) ;;
  bus_method (Send message) ;;
  update_stats (fun st =>
    Stats.set_transmitted_messages (Stats.transmitted_messages st + 1) st) ;;
  update_stats (fun st =>
    Stats.set_total_messages (Stats.total_messages st + 1) st) ;;
  log_text ("Sent message: " ++ CANMessage.name can_message ++ " (ID: 0x"
              ++ format_X (CANMessage.can_id can_message) ++ ")") 0 ;;
  ret true.

(** The [except] block of [send_message]. *)
Definition send_except (can_message : CANMessage.t) (e : exn) : M bool :=
  update_stats (Stats.set_last_error (Some (str e))) ;;
  log_text ("Failed to send message " ++ CANMessage.name can_message
              ++ ": " ++ str e) 2 ;;
  ret false.

Definition send_message (can_message : CANMessage.t) : M bool :=
  connected <- ensure_connected ;;
  if negb connected then ret false else
  try_catch (send_try can_message) (send_except can_message).

(** [message.channel or self.channel] *)
Definition channel_or (c : option string) (default : string) : string :=
  match c with
  | None | Some EmptyString => default
  | Some c' => c'
  end.

(** The frame [read_messages] builds from a received message, under its
    generated label. *)
Definition received_frame (message : Message.t) (channel : string)
  : CANMessage.t :=
  {| CANMessage.can_id := Message.arbitration_id message;
     CANMessage.data := Message.data message;
     CANMessage.message_type :=
       if Message.is_extended_id message then EXTENDED else STANDARD;
     CANMessage.name := "msg_" ++ format_X (Message.arbitration_id message);
     CANMessage.description :=
       "Received message ID 0x" ++ format_X (Message.arbitration_id message);
     CANMessage.dlc := Message.dlc message;
     CANMessage.is_rx := true;
     CANMessage.is_tx := false;
     CANMessage.timestamp := Some (Message.timestamp message);
     CANMessage.channel := channel_or (Message.channel message) channel |}.

(** The [for ... in self.messages.items()] loop with its [break]: the first
    configured message with the identifier gives its name and description. *)
Fixpoint label (items : dict CANMessage.t) (arbitration_id : Z)
  (can_msg : CANMessage.t) : CANMessage.t :=
  match items with
  | [] => can_msg
  | (msg_name, configured_msg) :: rest =>
      if CANMessage.can_id configured_msg =? arbitration_id
      then CANMessage.relabel (CANMessage.name configured_msg)
                              (CANMessage.description configured_msg) can_msg
      else label rest arbitration_id can_msg
  end.

(** The frame appended to [messages] is the object the labelling loop then
    writes to: the list sees the new label at its last position. *)
Definition update_last {A} (f : A -> A) (l : list A) : list A :=
  match rev l with
  | [] => []
  | x :: before => (rev before ++ [f x])%list
  end.

Arguments update_last : simpl never.

(** One turn of the receive loop: the frames so far, and whether the loop
    goes on ([continue], or the end of the body) or stops ([break]). *)
Definition poll (messages : list CANMessage.t)
  : M (bool * list CANMessage.t) :=
  try_catch
    (message <- bus_method Recv ;;
     match message with
     | None => ret (true, messages)
     | Some message =>
         r <- get_self ;;
         let can_msg :=
           received_frame message (Config.channel (Reader.config r)) in
         let messages := (messages ++ [can_msg])%list in
         update_stats (fun st =>
           Stats.set_received_messages (Stats.received_messages st + 1) st) ;;
         update_stats (fun st =>
           Stats.set_total_messages (Stats.total_messages st + 1) st) ;;
         let messages :=
           update_last (label (Reader.messages r)
                              (Message.arbitration_id message)) messages in
         t <- time_time ;;
         update (Reader.set_last_read_time (Some t)) ;;
         ret (true, messages)
     end)
    (fun e =>
       match e with
       | CanTimeoutError _ => ret (true, messages)
       | Exception _ =>
           log_text ("Error reading message: " ++ str e) 2 ;;
           ret (false, messages)
       end).

(** The [while] loop, for as many turns as the clock leaves. *)
Fixpoint read_loop (turns : nat) (messages : list CANMessage.t)
  : M (list CANMessage.t) :=
  match turns with
  | O => ret messages
  | S turns' =>
      step <- poll messages ;;
      if fst step then read_loop turns' (snd step) else ret (snd step)
  end.

(** The outer [try] block of [read_messages]. *)
Definition read_try (timeout : float) : M (list CANMessage.t) :=
  turns <- deadline_polls timeout ;;
  read_loop turns [].

(** The outer [except] block of [read_messages]. *)
Definition read_except (e : exn) : M (list CANMessage.t) :=
  update_stats (Stats.set_last_error (Some (str e))) ;;
  log_text ("Failed to read messages: " ++ str e) 2 ;;
  ret [].

(** [read_messages] from the choice of the timeout on. *)
Definition read_connected (timeout : option float)
  : M (list CANMessage.t) :=
  r <- get_self ;;
  let timeout := or_default timeout (Config.timeout (Reader.config r)) in
  try_catch (read_try timeout) read_except.

Definition read_messages (timeout : option float)
  : M (list CANMessage.t) :=
  connected <- ensure_connected ;;
  if negb connected then ret [] else read_connected timeout.

Fixpoint data_of (messages : list CANMessage.t) (data : dict data_point)
  : dict data_point :=
  match messages with
  | [] => data
  | message :: rest =>
      data_of rest
        (dict_set (CANMessage.name message)
                  (DataPoint (CANMessage.data message)
                             (CANMessage.can_id message)
                             (CANMessage.timestamp message)
                             (CANMessage.description message) "good")
                  data)
  end.

Definition read_data : M (dict data_point) :=
  messages <- read_messages None ;;
  ret (data_of messages []).

Definition save_data (data : dict data_point) : M bool :=
  try_catch
    (log (LData data) 0 ;; ret true)
    (fun e => log_text ("Failed to save data: " ++ str e) 2 ;; ret false).

(** ** Status and health *)

Record Status : Type := mkStatus {
  status_interface : string;
  status_channel : string;
  status_bitrate : Z;
  status_timeout : float;
  status_fd : bool;
  status_is_connected : bool;
  status_health_status : string;
  status_last_read_time : option float;
  status_last_health_check : option float;
  message_count : nat;
  filter_count : nat;
  status_monitor_running : bool;
  status_stats : Stats.t
}.

Definition get_status : M Status :=
  r <- get_self ;;
  ret {| status_interface := Config.interface (Reader.config r);
         status_channel := Config.channel (Reader.config r);
         status_bitrate := Config.bitrate (Reader.config r);
         status_timeout := Config.timeout (Reader.config r);
         status_fd := Config.fd (Reader.config r);
         status_is_connected := Reader.is_connected r;
         status_health_status := Reader.health_status r;
         status_last_read_time := Reader.last_read_time r;
         status_last_health_check := Reader.last_health_check r;
         message_count := List.length (Reader.messages r);
         filter_count := List.length (Reader.filters r);
         status_monitor_running := Reader.monitor_running r;
         status_stats := Reader.stats r |}.

(** The [try] block of [check_health]. *)
Definition check_health_try : M bool :=
  r <- get_self ;;
  if negb (Reader.is_connected r) then ret false else
  read_messages (Some (1 # 10)%Q) ;;
  update (Reader.set_health_status "healthy") ;;
  t <- time_time ;;
  update (Reader.set_last_health_check (Some t)) ;;
  ret true.

(** The [except] block of [check_health]. *)
Definition check_health_except (e : exn) : M bool :=
  update (Reader.set_health_status "unhealthy") ;;
  t <- time_time ;;
  update (Reader.set_last_health_check (Some t)) ;;
  log_text ("Health check failed: " ++ str e) 2 ;;
  ret false.

Definition check_health : M bool :=
  try_catch check_health_try check_health_except.

(** ** The two background threads *)

(** A list of integers as an f-string prints it. *)
Definition str_list (l : list Z) : string :=
  "[" ++ String.concat ", " (map str_int l) ++ "]".

(** The [for message in messages] loop of [_monitor_loop]: each frame goes
    to the callback, or to the log when there is none.  What the callback
    raises leaves the loop. *)
Fixpoint monitor_each (messages : list CANMessage.t) : M unit :=
  match messages with
  | [] => ret tt
  | message :: rest =>
      r <- get_self ;;
      (match Reader.monitor_callback r with
       | Some callback => transport (Callback callback message) ;; ret tt
       | None =>
           log_text ("Monitored: " ++ CANMessage.name message ++ " (ID: 0x"
                       ++ format_X (CANMessage.can_id message) ++ ") = "
                       ++ str_list (CANMessage.data message)) 0
       end) ;;
      monitor_each rest
  end.

(** The body of the [while] of [_monitor_loop]. *)
Definition monitor_body : M unit :=
  try_catch
    (messages <- read_messages (Some (1 # 10)%Q) ;; monitor_each messages)
    (fun e => log_text ("Monitor error: " ++ str e) 2).

(** The body of the [while] of [_health_monitor_loop]. *)
Definition health_monitor_body : M unit :=
  try_catch
    (check_health ;; ret tt)
    (fun e => log_text ("Health monitor error: " ++ str e) 2).

(** [while guard: body], for the turns the thread is given: the loop ends
    before that when it finds its flag cleared. *)
Fixpoint loop (turns : nat) (guard : Reader.t -> bool) (body : M unit)
  : M unit :=
  match turns with
  | O => ret tt
  | S turns' =>
      r <- get_self ;;
      if guard r then body ;; loop turns' guard body else ret tt
  end.

(** The first [turns] turns of a thread's target. *)
Definition target (t : Thread) (turns : nat) : M unit :=
  match t with
  | MonitorThread => loop turns Reader.monitor_running monitor_body
  | HealthMonitorThread =>
      loop turns Reader.health_monitor_running health_monitor_body
  end.

(** How far a thread that was just started gets before its starter goes
    on is the scheduler's choice, which belongs to the world.  A world that
    scripts no number lets the starter go on first. *)
Definition scheduled : M nat :=
  fun s =>
    match World.sched (world s) with
    | [] => (Return O, s)
    | n :: rest => (Return n, mkState (self s) (World.set_sched rest (world s)))
    end.

(** [thread.start()].  A thread takes the turns of its loop whole: at its
    start, as here, and later between the operations of its starter (see
    [exec]).  What ends a thread does not reach its starter. *)
Definition thread_start (t : Thread) : M unit :=
  turns <- scheduled ;;
  try_catch (target t turns) (fun _ => ret tt).

Definition start_monitoring (callback : option nat) : M unit :=
  r <- get_self ;;
  if Reader.monitor_running r then ret tt else
  update (Reader.set_monitor_callback callback) ;;
  update (Reader.set_monitor_running true) ;;
  update (Reader.set_monitor_thread (Some MonitorThread)) ;;
  thread_start MonitorThread ;;
  log_text "Started CAN bus monitoring" 0.

Definition _start_health_monitor : M unit :=
  r <- get_self ;;
  if negb (Reader.health_monitor_running r)
  then update (Reader.set_health_monitor_running true) ;;
       update (Reader.set_health_monitor_thread (Some HealthMonitorThread)) ;;
       thread_start HealthMonitorThread
  else ret tt.

(** [CANBusReader(...)] where python-can could be imported. *)
Definition CANBusReader (a : Args.t) (w : World.t) : State :=
  snd (_start_health_monitor (mkState (attributes a) w)).

(** [__init__]: raises when python-can is not there. *)
Definition __init__ (CAN_AVAILABLE : bool) (a : Args.t) (w : World.t)
  : outcome State :=
  if negb CAN_AVAILABLE
  then Raise (Exception "CAN library (python-can) is not available. Install with: pip install python-can")
  else Return (CANBusReader a w).

(** [close]: the health monitor, asleep between two checks, finds its flag
    cleared when it wakes; the [join] does not wait that long. *)
Definition close : M unit :=
  update (Reader.set_health_monitor_running false) ;;
  stop_monitoring ;;
  disconnect ;;
  r <- get_self ;;
  log_text ("Closed CAN bus reader: " ++ Config.interface (Reader.config r)
              ++ ":" ++ Config.channel (Reader.config r)) 0.

Definition __enter__ : M unit := connect ;; ret tt.

Definition __exit__ : M unit := close.

(** ** Vocabulary of the properties *)

(** The state a call of the logger leaves. *)
Definition logged (data : log_data) (log_type : Z) (s : State) : State :=
  snd (log data log_type s).

(** A method that returns from every state: no exception leaves it. *)
Definition no_raise {A} (m : M A) : Prop :=
  forall s, exists a s', m s = (Return a, s').

(** A method that leaves an attribute of the reader as it found it. *)
Definition keeps {X A} (attr : Reader.t -> X) (m : M A) : Prop :=
  forall s, attr (self (snd (m s))) = attr (self s).

(** A method that maintains an invariant of the reader. *)
Definition maintains {A} (P : State -> Prop) (m : M A) : Prop :=
  forall s, P s -> P (snd (m s)).

(** The three message counters of [self.stats]. *)
Definition counters (r : Reader.t) : Z * Z * Z :=
  (Stats.total_messages (Reader.stats r),
   Stats.received_messages (Reader.stats r),
   Stats.transmitted_messages (Reader.stats r)).

Definition stats_ok (s : State) : Prop :=
  Stats.total_messages (Reader.stats (self s))
  = Stats.received_messages (Reader.stats (self s))
    + Stats.transmitted_messages (Reader.stats (self s)).

(** What happens to a reader: the public operations its user calls, and
    the turns its threads take in between. *)
Inductive op : Type :=
| OpAddMessage (can_message : CANMessage.t)
| OpAddMessages (can_messages : list CANMessage.t)
| OpAddFilter (can_id can_mask : Z) (extended : bool)
| OpRemoveFilter (can_id can_mask : Z) (extended : bool)
| OpClearFilters
| OpConnect
| OpDisconnect
| OpSendMessage (can_message : CANMessage.t)
| OpReadMessages (timeout : option float)
| OpStartMonitoring (callback : option nat)
| OpStopMonitoring
| OpReadData
| OpSaveData (data : dict data_point)
| OpGetStatus
| OpCheckHealth
| OpClose
| OpThreadTurn (t : Thread).

(** The state an operation leaves, whatever it returns. *)
Definition exec (o : op) (s : State) : State :=
  match o with
  | OpAddMessage m => snd (add_message m s)
  | OpAddMessages ms => snd (add_messages ms s)
  | OpAddFilter i m e => snd (add_filter i m e s)
  | OpRemoveFilter i m e => snd (remove_filter i m e s)
  | OpClearFilters => snd (clear_filters s)
  | OpConnect => snd (connect s)
  | OpDisconnect => snd (disconnect s)
  | OpSendMessage m => snd (send_message m s)
  | OpReadMessages t => snd (read_messages t s)
  | OpStartMonitoring c => snd (start_monitoring c s)
  | OpStopMonitoring => snd (stop_monitoring s)
  | OpReadData => snd (read_data s)
  | OpSaveData d => snd (save_data d s)
  | OpGetStatus => snd (get_status s)
  | OpCheckHealth => snd (check_health s)
  | OpClose => snd (close s)
  | OpThreadTurn t => snd (target t 1 s)
  end.

(** What the transport was asked, read off the trace of calls. *)
Definition filter_updates (cs : list call) : list (list (dict atom)) :=
  flat_map (fun c => match c with SetFilters fs => [fs] | _ => [] end) cs.

Definition opens (cs : list call) : list (dict pyval) :=
  flat_map (fun c => match c with BusOpen cfg => [cfg] | _ => [] end) cs.

Definition sends (cs : list call) : list Message.t :=
  flat_map (fun c => match c with Send m => [m] | _ => [] end) cs.

Definition trace (s : State) : list call := World.calls (world s).

(** The next call into the transport will return. *)
Definition next_call_returns (s : State) : bool :=
  match World.responses (world s) with
  | Raises _ :: _ => false
  | _ => true
  end.

(** The next two calls into the transport will return. *)
Definition next_two_calls_return (s : State) : bool :=
  match World.responses (world s) with
  | Raises _ :: _ => false
  | _ :: Raises _ :: _ => false
  | _ => true
  end.

(** The first configured message with an identifier, in the order of the
    registry. *)
Definition first_definition (defs : dict CANMessage.t) (id : Z)
  : option CANMessage.t :=
  find (fun d => CANMessage.can_id d =? id) (dict_values defs).

(** The label a received frame is given before the registry is looked at. *)
Definition default_name (id : Z) : string := "msg_" ++ format_X id.
Definition default_description (id : Z) : string :=
  "Received message ID 0x" ++ format_X id.

(** A frame carries the name and description of the first configured
    message with its identifier, or its generated label when there is
    none. *)
Definition labelled (defs : dict CANMessage.t) (f : CANMessage.t) : Prop :=
  match first_definition defs (CANMessage.can_id f) with
  | Some d =>
      CANMessage.name f = CANMessage.name d
      /\ CANMessage.description f = CANMessage.description d
  | None =>
      CANMessage.name f = default_name (CANMessage.can_id f)
      /\ CANMessage.description f = default_description (CANMessage.can_id f)
  end.

(** The counters after [n] more frames were received. *)
Definition received_more (n : nat) (before after : Reader.t) : Prop :=
  counters after
  = (Stats.total_messages (Reader.stats before) + Z.of_nat n,
     Stats.received_messages (Reader.stats before) + Z.of_nat n,
     Stats.transmitted_messages (Reader.stats before)).

Definition is_some {A} (o : option A) : bool :=
  match o with Some _ => true | None => false end.

(** The names [__init__] knows, each with whether it was passed. *)
Definition passed (a : Args.t) : dict bool :=
  [("interface", is_some (Args.interface a));
   ("channel", is_some (Args.channel a));
   ("bitrate", is_some (Args.bitrate a));
   ("timeout", is_some (Args.timeout a));
   ("fd", is_some (Args.fd a));
   ("data_bitrate", is_some (Args.data_bitrate a));
   ("app_name", is_some (Args.app_name a));
   ("serial", is_some (Args.serial a));
   ("hw_type", is_some (Args.hw_type a));
   ("rx_own_msgs", is_some (Args.rx_own_msgs a));
   ("fd_data_bitrate", is_some (Args.fd_data_bitrate a));
   ("log_errors", is_some (Args.log_errors a));
   ("error_filters", is_some (Args.error_filters a));
   ("serial_number", is_some (Args.serial_number a));
   ("can_filters", is_some (Args.can_filters a))].

(** An option the constructor knows and that was left unset. *)
Definition unset (k : string) (a : Args.t) : bool :=
  match dict_get k (passed a) with
  | Some b => negb b
  | None => false
  end.

(** An option the constructor does not know. *)
Definition unrecognized (k : string) (a : Args.t) : bool :=
  negb (is_some (dict_get k (passed a))).

(** The options whose default is [None]. *)
Definition none_by_default (k : string) : bool :=
  existsb (String.eqb k) ["serial"; "hw_type"; "fd_data_bitrate"; "serial_number"].

(** The options whose default is not [None], each with the value [connect]
    passes for it when it was left unset: the default of the signature of
    [__init__], and for the two filter options the empty list [__init__]
    stores in place of [None]. *)
Definition default_entries : dict pyval :=
  [("interface", VStr "socketcan"); ("channel", VStr "can0");
   ("bitrate", VInt 500000); ("timeout", VFloat 1%Q); ("fd", VBool false);
   ("data_bitrate", VInt 2000000); ("app_name", VStr "canbus_reader");
   ("rx_own_msgs", VBool false); ("log_errors", VBool true);
   ("error_filters", VList []); ("can_filters", VList [])].

(** ** Worlds and readers of the examples *)

(** A reader built with a bit rate and with a keyword the constructor does
    not know. *)
Definition with_extra_keyword : Args.t :=
  Args.Build None None (Some 250000) None None None None None None None None
             None None None None None [("receive_own_messages", VBool true)].

Definition quiet_world : World.t := World.Build [] [] [] [] [] [].

Definition world_of (responses : list response) : World.t :=
  World.Build responses [] [] [] [] [].

(** A reader built with the defaults, in a world whose transport accepts
    every call. *)
Definition fresh : State := CANBusReader Args.defaults quiet_world.

(** [add_filter(0x200, 0x7FF)] then [remove_filter(0x200, 0x7FF)] on a
    fresh reader. *)
Definition added_then_removed : State :=
  snd (remove_filter 0x200 0x7FF false (snd (add_filter 0x200 0x7FF false fresh))).

(** A reader that already holds the rule it is about to add again. *)
Definition with_rule : State := snd (add_filter 0x200 0x7FF false fresh).

(** A connected reader whose transport will refuse the next call. *)
Definition connected_then_failing : State :=
  let s := snd (connect fresh) in
  mkState (self s)
          (World.set_responses [Raises (Exception "Network is down")] (world s)).

(** A connected reader whose health probe gets one turn of its receive
    loop, in which the transport raises. *)
Definition failing_probe : State :=
  let s := snd (connect fresh) in
  mkState (self s)
          (World.set_polls [1%nat]
             (World.set_responses [Raises (Exception "Network is down")]
                                  (world s))).

(** A reader built with the defaults whose transport cannot be opened. *)
Definition refused : State :=
  CANBusReader Args.defaults
               (world_of [Raises (Exception "No such device")]).

(** A reader that was found healthy and then disconnected. *)
Definition healthy_then_disconnected : State :=
  snd (disconnect (snd (check_health (snd (connect fresh))))).

(** The definition and the frame of the specification's scenario. *)
Definition rpm : CANMessage.t :=
  CANMessage.Build 0x100 [0; 0; 0; 0; 0; 0; 0; 0] STANDARD "rpm"
                   "Engine speed" 8 true false None "can0".

Definition rpm_frame : Message.t :=
  Message.Build 0x100 [0; 0; 0x10; 0; 0; 0; 0; 0] false false 8 0%Q None.

Definition rpm_world : World.t :=
  World.Build [Returns None; Returns (Some rpm_frame);
               Raises (CanTimeoutError "timed out")]
              [3%nat] [] [] [] [].

Definition rpm_reader : State :=
  snd (add_message rpm (CANBusReader Args.defaults rpm_world)).

(** A frame whose data are not bytes. *)
Definition not_bytes : CANMessage.t :=
  CANMessage.Build 0x123 [1; 256] STANDARD "msg_123" "Message ID 0x123" 8
                   true false None "can0".

(** The reader of the scenario once connected: the transport has a frame
    and then a timeout to deliver, and the clock leaves three turns. *)
Definition rpm_connected : State := snd (connect rpm_reader).

(** ** The context manager and the module-level functions *)

(** [with reader: body]: [__enter__], the body, then [__exit__] whether the
    body returned or raised.  [__exit__] returns [None], so an exception of
    the body goes on after it. *)
Definition with_reader {A} (body : M A) : M A :=
  fun s =>
    match __enter__ s with
    | (Raise e, s1) => (Raise e, s1)
    | (Return _, s1) =>
        match body s1 with
        | (Return a, s2) =>
            match __exit__ s2 with
            | (Return _, s3) => (Return a, s3)
            | (Raise e, s3) => (Raise e, s3)
            end
        | (Raise e, s2) =>
            match __exit__ s2 with
            | (Return _, s3) => (Raise e, s3)
            | (Raise e', s3) => (Raise e', s3)
            end
        end
    end.

(** The arguments [CANBusReader(interface, channel, **kwargs)] receives.
    The keyword arguments of a module-level function cannot name one of its
    own parameters, so [kwargs] says nothing of the interface and the
    channel. *)
Definition reader_args (interface channel : string) (kwargs : Args.t)
  : Args.t :=
  Args.Build (Some interface) (Some channel) (Args.bitrate kwargs)
             (Args.timeout kwargs) (Args.fd kwargs)
             (Args.data_bitrate kwargs) (Args.app_name kwargs)
             (Args.serial kwargs) (Args.hw_type kwargs)
             (Args.rx_own_msgs kwargs) (Args.fd_data_bitrate kwargs)
             (Args.log_errors kwargs) (Args.error_filters kwargs)
             (Args.serial_number kwargs) (Args.can_filters kwargs)
             (Args.logger kwargs) (Args.kwargs kwargs).

Definition create_canbus_reader (interface channel : option string)
  (bitrate : option Z) (kwargs : Args.t) (w : World.t) : State :=
  CANBusReader
    (Args.Build (Some (or_default interface "socketcan"))
                (Some (or_default channel "can0"))
                (Some (or_default bitrate 500000))
                (Args.timeout kwargs) (Args.fd kwargs)
                (Args.data_bitrate kwargs) (Args.app_name kwargs)
                (Args.serial kwargs) (Args.hw_type kwargs)
                (Args.rx_own_msgs kwargs) (Args.fd_data_bitrate kwargs)
                (Args.log_errors kwargs) (Args.error_filters kwargs)
                (Args.serial_number kwargs) (Args.can_filters kwargs)
                (Args.logger kwargs) (Args.kwargs kwargs))
    w.

(** The message [send_can_message] builds: the defaults of the data class
    give it eight as length code and ["can0"] as channel. *)
Definition message_to_send (can_id : Z) (data : list Z) : CANMessage.t :=
  CANMessage.Build can_id data STANDARD ("msg_" ++ format_X can_id)
                   ("Message ID 0x" ++ format_X can_id) 8 true false None
                   "can0".

Definition send_can_message (interface channel : string) (can_id : Z)
  (data : list Z) (kwargs : Args.t) (w : World.t) : outcome bool * State :=
  let reader := CANBusReader (reader_args interface channel kwargs) w in
  with_reader (send_message (message_to_send can_id data)) reader.


(** ** Vocabulary of the further properties *)

(** A frame python-can makes a message of: a remote frame, or a frame
    whose data are bytes. *)
Definition sendable (can_message : CANMessage.t) : bool :=
  CANMessageType_eqb (CANMessage.message_type can_message) REMOTE
  || forallb is_byte (CANMessage.data can_message).

(** The python-can message [send_message] hands to the transport for such
    a frame: a remote frame has lost its data. *)
Definition wire_message (can_message : CANMessage.t) : Message.t :=
  Message.Build
    (CANMessage.can_id can_message)
    (if CANMessageType_eqb (CANMessage.message_type can_message) REMOTE
     then [] else CANMessage.data can_message)
    (CANMessageType_eqb (CANMessage.message_type can_message) EXTENDED)
    (CANMessageType_eqb (CANMessage.message_type can_message) REMOTE)
    (CANMessage.dlc can_message)
    0%Q
    (Some (CANMessage.channel can_message)).

(** What [bytearray] says of a list that is not made of bytes. *)
Definition not_a_byte : exn := Exception "byte must be in range(0, 256)".

(** The operations that only touch the registries, the log or nothing. *)
Definition local_op (o : op) : bool :=
  match o with
  | OpAddMessage _ | OpAddMessages _ | OpAddFilter _ _ _
  | OpRemoveFilter _ _ _ | OpClearFilters | OpSaveData _ | OpGetStatus => true
  | _ => false
  end.

(** A sequence of operations, one after the other. *)
Definition run (ops : list op) (s : State) : State :=
  fold_left (fun s o => exec o s) ops s.

(** A method that leaves the transport alone: no call, no answer used. *)
Definition offline {A} (m : M A) : Prop :=
  forall s,
    World.calls (world (snd (m s))) = World.calls (world s)
    /\ World.responses (world (snd (m s))) = World.responses (world s).

(** [connect] called again and again. *)
Fixpoint connect_times (k : nat) (s : State) : State :=
  match k with
  | O => s
  | S k' => connect_times k' (snd (connect s))
  end.

Definition is_raises (r : response) : bool :=
  match r with Raises _ => true | Returns _ => false end.

(** The transport will refuse the next [k] calls. *)
Definition refuses (k : nat) (s : State) : bool :=
  (k <=? List.length (World.responses (world s)))%nat
  && forallb is_raises (firstn k (World.responses (world s))).

(** What a receive loop of [turns] turns gets out of the answers of the
    transport: the messages received, in order, and the number of calls to
    [recv].  A timeout or an empty answer costs a turn; another error ends
    the loop. *)
Fixpoint delivered (turns : nat) (responses : list response)
  : list Message.t * nat :=
  match turns with
  | O => ([], O)
  | S turns' =>
      match responses with
      | Raises (Exception _) :: _ => ([], 1%nat)
      | Returns (Some m) :: rest =>
          (m :: fst (delivered turns' rest), S (snd (delivered turns' rest)))
      | _ :: rest =>
          (fst (delivered turns' rest), S (snd (delivered turns' rest)))
      | [] =>
          (fst (delivered turns' []), S (snd (delivered turns' [])))
      end
  end.

(** The frame [read_messages] returns for a received message. *)
Definition frame_of (r : Reader.t) (message : Message.t) : CANMessage.t :=
  label (Reader.messages r) (Message.arbitration_id message)
        (received_frame message (Config.channel (Reader.config r))).

(** The entry [read_data] makes for a frame. *)
Definition point_of (f : CANMessage.t) : data_point :=
  DataPoint (CANMessage.data f) (CANMessage.can_id f)
            (CANMessage.timestamp f) (CANMessage.description f) "good".

(** The last configured message of a list with a name. *)
Definition last_named (k : string) (ms : list CANMessage.t)
  : option CANMessage.t :=
  find (fun m => String.eqb (CANMessage.name m) k) (rev ms).


(** The reader [__init__] leaves. *)
Definition new_reader (a : Args.t) : Reader.t :=
  Reader.set_health_monitor_thread (Some HealthMonitorThread)
    (Reader.set_health_monitor_running true (attributes a)).

(** The health status was never set to unhealthy. *)
Definition never_unhealthy (s : State) : Prop :=
  Reader.health_status (self s) = "unknown"
  \/ Reader.health_status (self s) = "healthy".


(** No printed line is below the level of the logger. *)
Definition log_respects_level (s : State) : Prop :=
  Forall (fun line => SimpleLogger.log_level (Reader.logger (self s))
                      <= fst line)
         (World.out (world s)).

(** Whether the transport raises at its [k]-th call to come (a world that
    scripts no answer lets the call return). *)
Definition raises_at (k : nat) (w : World.t) : bool :=
  is_raises (nth k (World.responses w) (Returns None)).

(** The calls made so far begin with [t]. *)
Definition extends (t : list call) (s : State) : Prop :=
  exists calls, trace s = (t ++ calls)%list.

(** A method that leads from a state with [P] to a state with [Q]. *)
Definition establishes {A} (P Q : State -> Prop) (m : M A) : Prop :=
  forall s, P s -> Q (snd (m s)).

(** A new reader whose scheduler gives the next thread one turn at its
    start. *)
Definition monitored : State :=
  mkState (self fresh) (World.set_sched [1%nat] quiet_world).

(** Reading upper-case hexadecimal digits back, most significant first. *)
Definition hex_value (c : ascii) : N :=
  match c with
  | "0" => 0 | "1" => 1 | "2" => 2 | "3" => 3 | "4" => 4 | "5" => 5
  | "6" => 6 | "7" => 7 | "8" => 8 | "9" => 9 | "A" => 10 | "B" => 11
  | "C" => 12 | "D" => 13 | "E" => 14 | "F" => 15 | _ => 0
  end%char%N.

Fixpoint unhex (s : string) (acc : N) : N :=
  match s with
  | EmptyString => acc
  | String c s' => unhex s' (16 * acc + hex_value c)
  end.

(** The identifier a text written by [format_X] stands for. *)
Definition parse_X (s : string) : Z :=
  match s with
  | String "-" digits => - Z.of_N (unhex digits 0)
  | _ => Z.of_N (unhex s 0)
  end.

(** ** Laws of the monad and of the primitives *)

Lemma log_run (data : log_data) (log_type : Z) (s : State) :
  log data log_type s = (Return tt, logged data log_type s).
Proof.
  unfold logged, log.
  destruct (SimpleLogger.log_level (Reader.logger (self s)) <=? log_type);
    reflexivity.
Qed.

Lemma log_text_run (text : string) (log_type : Z) (s : State) :
  log_text text log_type s = (Return tt, logged (LText text) log_type s).
Proof. apply log_run. Qed.

Lemma self_logged data log_type s : self (logged data log_type s) = self s.
Proof.
  unfold logged, log.
  destruct (SimpleLogger.log_level (Reader.logger (self s)) <=? log_type);
    reflexivity.
Qed.

Lemma trace_logged data log_type s :
  trace (logged data log_type s) = trace s.
Proof.
  unfold trace, logged, log.
  destruct (SimpleLogger.log_level (Reader.logger (self s)) <=? log_type);
    reflexivity.
Qed.

Lemma calls_logged data log_type s :
  World.calls (world (logged data log_type s)) = World.calls (world s).
Proof. apply trace_logged. Qed.

Lemma responses_logged data log_type s :
  World.responses (world (logged data log_type s)) = World.responses (world s).
Proof.
  unfold logged, log.
  destruct (SimpleLogger.log_level (Reader.logger (self s)) <=? log_type);
    reflexivity.
Qed.

Section NoRaise.
Context {A B : Type}.

Lemma no_raise_ret (a : A) : no_raise (ret a).
Proof. intros s. exists a, s. reflexivity. Qed.

Lemma no_raise_bind (m : M A) (k : A -> M B) :
  no_raise m -> (forall a, no_raise (k a)) -> no_raise (bind m k).
Proof.
  intros Hm Hk s. destruct (Hm s) as (a & s1 & E).
  destruct (Hk a s1) as (b & s2 & E2).
  exists b, s2. unfold bind. rewrite E. exact E2.
Qed.

(** A handler that returns makes the whole [try] statement return. *)
Lemma no_raise_try_catch (m : M A) (h : exn -> M A) :
  (forall e, no_raise (h e)) -> no_raise (try_catch m h).
Proof.
  intros Hh s. unfold try_catch.
  destruct (m s) as [[a | e] s1].
  - exists a, s1. reflexivity.
  - apply Hh.
Qed.
End NoRaise.

Lemma no_raise_get_self : no_raise get_self.
Proof. intros s. eexists _, _. reflexivity. Qed.

Lemma no_raise_update f : no_raise (update f).
Proof. intros s. eexists _, _. reflexivity. Qed.

Lemma no_raise_update_stats f : no_raise (update_stats f).
Proof. apply no_raise_update. Qed.

Lemma no_raise_log data log_type : no_raise (log data log_type).
Proof. intros s. eexists _, _. apply log_run. Qed.

Lemma no_raise_log_text text log_type : no_raise (log_text text log_type).
Proof. apply no_raise_log. Qed.

Lemma no_raise_time_time : no_raise time_time.
Proof.
  intros s. unfold time_time.
  destruct (World.clock (world s)); eexists _, _; reflexivity.
Qed.

Lemma no_raise_deadline_polls timeout : no_raise (deadline_polls timeout).
Proof.
  intros s. unfold deadline_polls.
  destruct (World.polls (world s)); eexists _, _; reflexivity.
Qed.

Lemma no_raise_scheduled : no_raise scheduled.
Proof.
  intros s. unfold scheduled.
  destruct (World.sched (world s)); eexists _, _; reflexivity.
Qed.

Lemma no_raise_loop turns guard body :
  no_raise body -> no_raise (loop turns guard body).
Proof.
  intros N. induction turns as [ | turns IH]; simpl.
  - apply no_raise_ret.
  - apply no_raise_bind; [ apply no_raise_get_self | intros r ].
    destruct (guard r); [ | apply no_raise_ret ].
    apply no_raise_bind; [ exact N | intros ?; exact IH ].
Qed.

(** Starting a thread returns, whatever the thread meets. *)
Lemma no_raise_thread_start t : no_raise (thread_start t).
Proof.
  unfold thread_start.
  apply no_raise_bind; [ apply no_raise_scheduled | intros turns ].
  apply no_raise_try_catch. intros e. apply no_raise_ret.
Qed.

Create HintDb no_raise.
#[local] Hint Resolve no_raise_ret no_raise_get_self no_raise_update
  no_raise_update_stats no_raise_log no_raise_log_text no_raise_time_time
  no_raise_deadline_polls no_raise_scheduled no_raise_thread_start : no_raise.

(** Goes through a method statement by statement; what is left are the calls
    that may raise outside of a [try]. *)
Ltac no_raise_step :=
  match goal with
  | |- no_raise (bind _ _) => apply no_raise_bind; [ | intros ? ]
  | |- no_raise (try_catch _ _) => apply no_raise_try_catch; intros ?
  | |- no_raise (if ?b then _ else _) => destruct b
  | |- no_raise (match ?x with _ => _ end) => destruct x
  | |- no_raise _ => solve [ auto with no_raise ]
  end.

Ltac no_raise_tac := repeat no_raise_step.

Section Keeps.
Context {X A B : Type} (attr : Reader.t -> X).

Lemma keeps_ret (a : A) : keeps attr (ret a).
Proof. intros s. reflexivity. Qed.

Lemma keeps_raise (e : exn) : keeps attr (@raise A e).
Proof. intros s. reflexivity. Qed.

Lemma keeps_bind (m : M A) (k : A -> M B) :
  keeps attr m -> (forall a, keeps attr (k a)) -> keeps attr (bind m k).
Proof.
  intros Hm Hk s. unfold bind. specialize (Hm s).
  destruct (m s) as [[a | e] s1]; simpl in *.
  - rewrite Hk. exact Hm.
  - exact Hm.
Qed.

Lemma keeps_try_catch (m : M A) (h : exn -> M A) :
  keeps attr m -> (forall e, keeps attr (h e)) -> keeps attr (try_catch m h).
Proof.
  intros Hm Hh s. unfold try_catch. specialize (Hm s).
  destruct (m s) as [[a | e] s1]; simpl in *.
  - exact Hm.
  - rewrite Hh. exact Hm.
Qed.
End Keeps.

Section KeepsPrimitives.
Context {X : Type} (attr : Reader.t -> X).

Lemma keeps_get_self : keeps attr get_self.
Proof. intros s. reflexivity. Qed.

Lemma keeps_update f : (forall r, attr (f r) = attr r) -> keeps attr (update f).
Proof. intros H s. apply H. Qed.

Lemma keeps_log data log_type : keeps attr (log data log_type).
Proof. intros s. rewrite log_run. simpl. now rewrite self_logged. Qed.

Lemma keeps_log_text text log_type : keeps attr (log_text text log_type).
Proof. apply keeps_log. Qed.

Lemma keeps_transport c : keeps attr (transport c).
Proof.
  intros s. unfold transport. simpl.
  destruct (World.responses (world s)) as [ | [m | e] rest]; reflexivity.
Qed.

Lemma keeps_bus_method c : keeps attr (bus_method c).
Proof.
  unfold bus_method. apply keeps_bind; [ apply keeps_get_self | intros r ].
  destruct (Reader.bus r); [ apply keeps_transport | apply keeps_raise ].
Qed.

Lemma keeps_time_time : keeps attr time_time.
Proof.
  intros s. unfold time_time. destruct (World.clock (world s)); reflexivity.
Qed.

Lemma keeps_deadline_polls timeout : keeps attr (deadline_polls timeout).
Proof.
  intros s. unfold deadline_polls.
  destruct (World.polls (world s)); reflexivity.
Qed.

Lemma keeps_scheduled : keeps attr scheduled.
Proof.
  intros s. unfold scheduled. destruct (World.sched (world s)); reflexivity.
Qed.

(** Handing the frames to the callback or to the log writes to no
    attribute. *)
Lemma keeps_monitor_each messages : keeps attr (monitor_each messages).
Proof.
  induction messages as [ | message rest IH]; simpl.
  - apply keeps_ret.
  - apply keeps_bind; [ apply keeps_get_self | intros r ].
    apply keeps_bind; [ | intros ?; exact IH ].
    destruct (Reader.monitor_callback r).
    + apply keeps_bind; [ apply keeps_transport | intros ?; apply keeps_ret ].
    + apply keeps_log_text.
Qed.

Lemma keeps_loop turns guard body :
  keeps attr body -> keeps attr (loop turns guard body).
Proof.
  intros K. induction turns as [ | turns IH]; simpl.
  - apply keeps_ret.
  - apply keeps_bind; [ apply keeps_get_self | intros r ].
    destruct (guard r); [ | apply keeps_ret ].
    apply keeps_bind; [ exact K | intros ?; exact IH ].
Qed.

(** A thread keeps what the bodies of the two loops keep. *)
Lemma keeps_target t turns :
  keeps attr monitor_body -> keeps attr health_monitor_body ->
  keeps attr (target t turns).
Proof. intros Km Kh. destruct t; apply keeps_loop; assumption. Qed.

Lemma keeps_thread_start t :
  keeps attr monitor_body -> keeps attr health_monitor_body ->
  keeps attr (thread_start t).
Proof.
  intros Km Kh. unfold thread_start.
  apply keeps_bind; [ apply keeps_scheduled | intros turns ].
  apply keeps_try_catch; [ apply keeps_target; assumption | intros ? ].
  apply keeps_ret.
Qed.
End KeepsPrimitives.

Create HintDb keeps.
#[local] Hint Resolve keeps_ret keeps_raise keeps_get_self keeps_log
  keeps_log_text keeps_transport keeps_bus_method keeps_time_time
  keeps_deadline_polls keeps_scheduled keeps_monitor_each : keeps.

Ltac keeps_step :=
  match goal with
  | |- keeps _ (bind _ _) => apply keeps_bind; [ | intros ? ]
  | |- keeps _ (try_catch _ _) => apply keeps_try_catch; [ | intros ? ]
  | |- keeps _ (update_stats _) => unfold update_stats
  | |- keeps _ (update _) => apply keeps_update; intros ?; reflexivity
  | |- keeps _ (if ?b then _ else _) => destruct b
  | |- keeps _ (match ?x with _ => _ end) => destruct x
  | |- keeps _ _ => solve [ auto with keeps ]
  end.

Ltac keeps_tac := repeat keeps_step.

(** ** Construction *)

(** The health monitor finds a disconnected reader as often as it looks,
    and leaves it as it is. *)
Lemma health_monitor_idle turns s :
  Reader.is_connected (self s) = false ->
  loop turns Reader.health_monitor_running health_monitor_body s
  = (Return tt, s).
Proof.
  intros H. induction turns as [ | turns IH]; simpl; [ reflexivity | ].
  unfold bind at 1. unfold get_self at 1.
  destruct (Reader.health_monitor_running (self s)); [ | reflexivity ].
  assert (E : health_monitor_body s = (Return tt, s)).
  { unfold health_monitor_body, try_catch, bind, check_health, try_catch,
      check_health_try, bind, get_self. rewrite H. reflexivity. }
  unfold bind. rewrite E. exact IH.
Qed.

(** The constructor leaves the attributes of [__init__] with the health
    monitor started, and a world in which only the scheduler has moved. *)
Lemma CANBusReader_run a w :
  CANBusReader a w
  = mkState (new_reader a) (World.set_sched (tl (World.sched w)) w).
Proof.
  unfold CANBusReader, _start_health_monitor, thread_start.
  unfold bind at 1. unfold get_self at 1. cbn [self attributes
    Reader.health_monitor_running negb].
  unfold bind at 1. unfold bind at 1. unfold update at 1 2.
  cbn [self world]. unfold bind at 1, scheduled, try_catch.
  cbn [self world target]. fold (new_reader a).
  destruct w as [responses polls clock calls out [ | n rest]];
    cbn [World.sched self world];
    rewrite health_monitor_idle by reflexivity; reflexivity.
Qed.

Lemma self_CANBusReader a w : self (CANBusReader a w) = new_reader a.
Proof. rewrite CANBusReader_run. reflexivity. Qed.

Lemma calls_CANBusReader a w :
  World.calls (world (CANBusReader a w)) = World.calls w.
Proof. rewrite CANBusReader_run. reflexivity. Qed.

Lemma responses_CANBusReader a w :
  World.responses (world (CANBusReader a w)) = World.responses w.
Proof. rewrite CANBusReader_run. reflexivity. Qed.

Lemma out_CANBusReader a w :
  World.out (world (CANBusReader a w)) = World.out w.
Proof. rewrite CANBusReader_run. reflexivity. Qed.

(** ** Connecting *)

Lemma no_raise_connect_except e : no_raise (connect_except e).
Proof. unfold connect_except. no_raise_tac. Qed.

Lemma no_raise_connect : no_raise connect.
Proof. apply no_raise_try_catch. exact no_raise_connect_except. Qed.

Lemma no_raise_ensure_connected : no_raise ensure_connected.
Proof.
  unfold ensure_connected.
  apply no_raise_bind; [ apply no_raise_get_self | intros r ].
  destruct (Reader.is_connected r); [ apply no_raise_ret | apply no_raise_connect ].
Qed.

#[local] Hint Resolve no_raise_connect no_raise_ensure_connected : no_raise.

Lemma connect_keeps_counters : keeps counters connect.
Proof. unfold connect, connect_try, connect_except. keeps_tac. Qed.

Lemma connect_keeps_messages : keeps Reader.messages connect.
Proof. unfold connect, connect_try, connect_except. keeps_tac. Qed.

Lemma connect_keeps_filters : keeps Reader.filters connect.
Proof. unfold connect, connect_try, connect_except. keeps_tac. Qed.

(** What the handler of [connect] leaves. *)
Lemma connect_except_run e s :
  exists s',
    connect_except e s = (Return false, s')
    /\ Reader.is_connected (self s') = false
    /\ Stats.connection_errors (Reader.stats (self s'))
       = Stats.connection_errors (Reader.stats (self s)) + 1
    /\ Stats.last_error (Reader.stats (self s')) = Some (str e)
    /\ trace s' = trace s.
Proof.
  unfold connect_except, bind, update_stats, update, ret. simpl.
  rewrite log_text_run. eexists. split; [ reflexivity | ].
  rewrite self_logged, trace_logged. simpl. auto.
Qed.

(** A [try] block of [connect] that raises has touched neither the flag nor
    the error counter. *)
Lemma connect_try_raise s e s1 :
  connect_try s = (Raise e, s1) ->
  Reader.is_connected (self s) = false
  /\ Stats.connection_errors (Reader.stats (self s1))
     = Stats.connection_errors (Reader.stats (self s)).
Proof.
  unfold connect_try, bind, get_self, bus_method, transport, update_stats,
    update, ret, raise.
  destruct s as [r [responses polls clock calls out sched]]. simpl.
  destruct (Reader.is_connected r); [ discriminate | ].
  destruct responses as [ | [m | e1] [ | [m2 | e2] rest2]]; simpl;
    destruct (Reader.filters r) as [ | f fs]; simpl;
    rewrite ?log_text_run; intros H; inversion H; subst; auto.
Qed.

(** A [try] block of [connect] that returns has connected the reader. *)
Lemma connect_try_return s b s1 :
  Reader.is_connected (self s) = false ->
  connect_try s = (Return b, s1) ->
  b = true
  /\ Reader.is_connected (self s1) = true
  /\ Stats.connection_errors (Reader.stats (self s1)) = 0
  /\ Stats.last_error (Reader.stats (self s1)) = None.
Proof.
  unfold connect_try, bind, get_self, bus_method, transport, update_stats,
    update, ret, raise.
  destruct s as [r [responses polls clock calls out sched]]. simpl. intros ->.
  destruct responses as [ | [m | e1] [ | [m2 | e2] rest2]]; simpl;
    destruct (Reader.filters r) as [ | f fs]; simpl;
    rewrite ?log_text_run; intros H; inversion H; subst;
    rewrite ?self_logged; auto.
Qed.

(** C5.  [connect] never raises; on a connected reader it returns [True]
    and changes nothing, the transport included; a fresh connect that
    succeeds sets the flag, resets [connection_errors] and clears
    [last_error]; when the transport fails (the [try] block raises [e]) the
    reader stays disconnected, [connection_errors] grows by exactly one,
    [last_error] is the text of [e], and the result is [False]. *)
Theorem connect_contract :
  no_raise connect
  /\ (forall s, Reader.is_connected (self s) = true ->
                connect s = (Return true, s))
  /\ (forall s s', Reader.is_connected (self s) = false ->
                   connect s = (Return true, s') ->
                   Reader.is_connected (self s') = true
                   /\ Stats.connection_errors (Reader.stats (self s')) = 0
                   /\ Stats.last_error (Reader.stats (self s')) = None)
  /\ (forall s e s1, connect_try s = (Raise e, s1) ->
        exists s',
          connect s = (Return false, s')
          /\ Reader.is_connected (self s') = false
          /\ Stats.connection_errors (Reader.stats (self s'))
             = Stats.connection_errors (Reader.stats (self s)) + 1
          /\ Stats.last_error (Reader.stats (self s')) = Some (str e))
  /\ (forall s s', connect s = (Return false, s') ->
                   exists e s1, connect_try s = (Raise e, s1)).
Proof.
  split; [ exact no_raise_connect | ].
  split.
  { intros s H. unfold connect, try_catch, connect_try, bind, get_self.
    rewrite H. reflexivity. }
  split.
  { intros s s' Hd. unfold connect, try_catch.
    destruct (connect_try s) as [[b | e] s1] eqn:E.
    - intros H. injection H as -> ->.
      destruct (connect_try_return s Hd E) as (_ & H1 & H2 & H3). auto.
    - destruct (connect_except_run e s1) as (s2 & -> & _). discriminate. }
  split.
  { intros s e s1 E. unfold connect, try_catch. rewrite E.
    destruct (connect_except_run e s1) as (s2 & -> & H1 & H2 & H3 & _).
    destruct (connect_try_raise _ E) as (_ & H4).
    exists s2. rewrite H2, H4. auto. }
  intros s s'. unfold connect, try_catch.
  destruct (connect_try s) as [[b | e] s1] eqn:E.
  - intros H. injection H as -> ->.
    destruct (Reader.is_connected (self s)) eqn:Hc.
    + unfold connect_try, bind, get_self in E. rewrite Hc in E. discriminate.
    + destruct (connect_try_return s Hc E) as (H & _). discriminate.
  - intros _. eauto.
Qed.

Lemma connect_contract_witness :
  (Reader.is_connected (self fresh) = false
   /\ connect fresh = (Return true, snd (connect fresh))
   /\ Reader.is_connected (self (snd (connect fresh))) = true
   /\ Stats.connection_errors (Reader.stats (self (snd (connect fresh)))) = 0
   /\ Stats.last_error (Reader.stats (self (snd (connect fresh)))) = None)
  /\ (exists s',
         connect refused = (Return false, s')
         /\ Reader.is_connected (self s') = false
         /\ Stats.connection_errors (Reader.stats (self s'))
            = Stats.connection_errors (Reader.stats (self refused)) + 1
         /\ Stats.last_error (Reader.stats (self s'))
            = Some (str (Exception "No such device"))).
Proof.
  split.
  - split; [ reflexivity | ]. split; [ vm_compute; reflexivity | ].
    apply (proj1 (proj2 (proj2 connect_contract)) fresh (snd (connect fresh)));
      vm_compute; reflexivity.
  - apply (proj1 (proj2 (proj2 (proj2 connect_contract)))
             refused (Exception "No such device") (snd (connect_try refused))).
    vm_compute; reflexivity.
Defined.

(** The calls [connect] makes on a reader that is not connected: the bus is
    opened, and when that returns and rules are registered, they are pushed
    in one call. *)
Lemma connect_trace s :
  Reader.is_connected (self s) = false ->
  trace (snd (connect s))
  = (trace s
     ++ BusOpen (bus_config (self s))
     :: (if next_call_returns s
         then match Reader.filters (self s) with
              | [] => []
              | _ :: _ => [SetFilters (map CANFilter.to_dict (Reader.filters (self s)))]
              end
         else []))%list.
Proof.
  unfold connect, try_catch, connect_try, connect_except, bind, get_self,
    bus_method, transport, update_stats, update, ret, raise, trace,
    next_call_returns.
  destruct s as [r [responses polls clock calls out sched]]. simpl. intros ->.
  destruct responses as [ | [m | e1] [ | [m2 | e2] rest2]]; simpl;
    destruct (Reader.filters r) as [ | f fs]; simpl;
    rewrite ?log_text_run; simpl; rewrite ?calls_logged; simpl;
    rewrite <- ?app_assoc; reflexivity.
Qed.

(** ** Filters *)

Lemma filter_updates_app cs cs' :
  filter_updates (cs ++ cs') = (filter_updates cs ++ filter_updates cs')%list.
Proof. apply flat_map_app. Qed.

Lemma opens_app cs cs' : opens (cs ++ cs') = (opens cs ++ opens cs')%list.
Proof. apply flat_map_app. Qed.

Lemma sends_app cs cs' : sends (cs ++ cs') = (sends cs ++ sends cs')%list.
Proof. apply flat_map_app. Qed.

(** C1, as the code has it.  On a reader that is not connected and whose
    bus can be opened, [connect] pushes the registered rules in exactly one
    [set_filters] call when there are rules, in the order of registration;
    when there are none it makes no [set_filters] call at all. *)
Theorem connect_pushes_registered_filters s :
  Reader.is_connected (self s) = false ->
  next_call_returns s = true ->
  (Reader.filters (self s) <> [] ->
   filter_updates (trace (snd (connect s)))
   = (filter_updates (trace s)
      ++ [map CANFilter.to_dict (Reader.filters (self s))])%list)
  /\ (Reader.filters (self s) = [] ->
      filter_updates (trace (snd (connect s))) = filter_updates (trace s)).
Proof.
  intros Hd Hopen. rewrite (connect_trace s Hd), Hopen, filter_updates_app.
  destruct (Reader.filters (self s)) as [ | f fs]; split; intros H;
    try congruence; simpl.
  - apply app_nil_r.
  - reflexivity.
Qed.

Lemma connect_pushes_registered_filters_witness :
  filter_updates (trace (snd (connect with_rule)))
  = [[CANFilter.to_dict (CANFilter.Build 0x200 0x7FF false)]].
Proof.
  apply (proj1 (connect_pushes_registered_filters with_rule
                  eq_refl eq_refl)).
  vm_compute. discriminate.
Defined.

(** C1, as the claim has it, fails: after [add_filter(0x200, 0x7FF)] and
    [remove_filter(0x200, 0x7FF)] the rule list is empty, and the next
    [connect] succeeds with one call into the transport, the opening of the
    bus: no filter update is pushed, an empty one included. *)
Lemma connect_after_add_remove_pushes_nothing :
  Reader.filters (self added_then_removed) = []
  /\ Reader.is_connected (self added_then_removed) = false
  /\ fst (connect added_then_removed) = Return true
  /\ trace (snd (connect added_then_removed))
     = [BusOpen (bus_config (self added_then_removed))]
  /\ filter_updates (trace (snd (connect added_then_removed))) = []
  /\ ~ In (SetFilters []) (trace (snd (connect added_then_removed))).
Proof.
  repeat split; try (vm_compute; reflexivity).
  vm_compute. intros [H | []]. discriminate.
Qed.

Lemma matches_iff id mask ext f :
  CANFilter.matches id mask ext f = true <-> f = CANFilter.Build id mask ext.
Proof.
  unfold CANFilter.matches. destruct f as [i m e]. simpl.
  rewrite !andb_true_iff, !Z.eqb_eq, Bool.eqb_true_iff.
  split.
  - intros [[-> ->] ->]. reflexivity.
  - intros H. injection H as -> -> ->. auto.
Qed.

(** [add_filter] then [remove_filter] with the same triple: every rule
    equal to the triple is gone, the older ones included. *)
Lemma filters_after_add_remove s id mask ext :
  Reader.filters
    (self (snd (remove_filter id mask ext (snd (add_filter id mask ext s)))))
  = filter (fun f => negb (CANFilter.matches id mask ext f))
           (Reader.filters (self s)).
Proof.
  unfold remove_filter, add_filter, bind, update. simpl.
  repeat (progress (rewrite ?log_text_run, ?self_logged; simpl)).
  rewrite filter_app. simpl.
  replace (CANFilter.matches id mask ext (CANFilter.Build id mask ext))
    with true by (symmetry; now apply matches_iff).
  simpl. apply app_nil_r.
Qed.

(** C2, as the code has it.  When the triple is not among the registered
    rules, [add_filter] followed by [remove_filter] with that triple leaves
    the rule list as it was. *)
Theorem add_then_remove_filter s id mask ext :
  ~ In (CANFilter.Build id mask ext) (Reader.filters (self s)) ->
  Reader.filters
    (self (snd (remove_filter id mask ext (snd (add_filter id mask ext s)))))
  = Reader.filters (self s).
Proof.
  intros Hnew. rewrite filters_after_add_remove.
  apply forallb_filter_id, forallb_forall. intros f Hf.
  destruct (CANFilter.matches id mask ext f) eqn:E; [ | reflexivity ].
  apply matches_iff in E. subst f. contradiction.
Qed.

Lemma add_then_remove_filter_witness :
  Reader.filters
    (self (snd (remove_filter 0x300 0x7FF false
                  (snd (add_filter 0x300 0x7FF false with_rule)))))
  = Reader.filters (self with_rule).
Proof.
  apply (add_then_remove_filter with_rule 0x300 0x7FF false).
  vm_compute. intros [H | []]. discriminate.
Defined.

(** C2, as the claim has it, fails: on a reader that already holds the
    rule, adding it again and removing it removes the older rule too. *)
Lemma add_remove_loses_registered_rule :
  Reader.filters (self with_rule) = [CANFilter.Build 0x200 0x7FF false]
  /\ Reader.filters
       (self (snd (remove_filter 0x200 0x7FF false
                     (snd (add_filter 0x200 0x7FF false with_rule)))))
     = []
  /\ Reader.filters
       (self (snd (remove_filter 0x200 0x7FF false
                     (snd (add_filter 0x200 0x7FF false with_rule)))))
     <> Reader.filters (self with_rule).
Proof.
  repeat split; try (vm_compute; reflexivity).
  vm_compute. discriminate.
Qed.

(** ** Sending *)

Lemma ensure_connected_run s :
  ensure_connected s
  = if Reader.is_connected (self s) then (Return true, s) else connect s.
Proof.
  unfold ensure_connected, bind, get_self.
  destruct (Reader.is_connected (self s)); reflexivity.
Qed.

(** What the [try] statement of [send_message] does: it returns, it opens
    no bus, and it counts the frame exactly when it reports success. *)
Lemma send_attempt_run m s1 :
  exists b s2 extra,
    try_catch (send_try m) (send_except m) s1 = (Return b, s2)
    /\ trace s2 = (trace s1 ++ extra)%list
    /\ opens extra = []
    /\ counters (self s2)
       = if b
         then (Stats.total_messages (Reader.stats (self s1)) + 1,
               Stats.received_messages (Reader.stats (self s1)),
               Stats.transmitted_messages (Reader.stats (self s1)) + 1)
         else counters (self s1).
Proof.
  unfold send_try, send_except, bus_method, Message_init.
  unfold try_catch, bind, get_self, transport, update_stats, update, ret,
    raise, trace, counters.
  destruct s1 as [r [responses polls clock calls out sched]]. simpl.
  destruct (CANMessageType_eqb (CANMessage.message_type m) REMOTE);
    [ | destruct (forallb is_byte (CANMessage.data m)) ]; simpl;
    destruct (Reader.bus r) as [b | ]; simpl;
    [ destruct responses as [ | [m1 | e1] rest]; simpl |
    | destruct responses as [ | [m1 | e1] rest]; simpl | | | ];
    rewrite log_text_run; simpl;
    eexists _, _, _; (split; [ reflexivity | ]);
    rewrite self_logged, calls_logged; simpl;
    (split; [ try reflexivity; symmetry; apply app_nil_r | ]);
    split; reflexivity.
Qed.

(** C4.  [send_message] on a reader that is not connected opens the bus
    exactly once, before anything else it asks of the transport; and when
    that implicit [connect] fails, [send_message] returns [False] in the
    state [connect] left: nothing was sent and [transmitted_messages] is
    what it was. *)
Theorem send_message_connects_once m s :
  Reader.is_connected (self s) = false ->
  (exists rest,
      trace (snd (send_message m s))
      = (trace s ++ BusOpen (bus_config (self s)) :: rest)%list
      /\ opens rest = [])
  /\ (forall s1, connect s = (Return false, s1) ->
        send_message m s = (Return false, s1)
        /\ sends (trace s1) = sends (trace s)
        /\ Stats.transmitted_messages (Reader.stats (self s1))
           = Stats.transmitted_messages (Reader.stats (self s))).
Proof.
  intros Hd.
  assert (Hrun : send_message m s
                 = match connect s with
                   | (Return true, s1) =>
                       try_catch (send_try m) (send_except m) s1
                   | (Return false, s1) => (Return false, s1)
                   | (Raise e, s1) => (Raise e, s1)
                   end).
  { unfold send_message, bind. rewrite ensure_connected_run, Hd.
    destruct (connect s) as [[[ | ] | e] s1]; reflexivity. }
  pose proof (connect_trace s Hd) as Ht.
  split.
  - rewrite Hrun. destruct (connect s) as [[[ | ] | e] s1] eqn:E;
      simpl in Ht.
    + destruct (send_attempt_run m s1) as (b & s2 & extra & -> & T & O & _).
      simpl. rewrite T, Ht, <- app_assoc. simpl.
      eexists. split; [ reflexivity | ].
      rewrite opens_app, O.
      destruct (next_call_returns s); [ | reflexivity ].
      destruct (Reader.filters (self s)); reflexivity.
    + simpl. rewrite Ht. eexists. split; [ reflexivity | ].
      destruct (next_call_returns s); [ | reflexivity ].
      destruct (Reader.filters (self s)); reflexivity.
    + destruct (no_raise_connect s) as (b & s' & E'). congruence.
  - intros s1 E. rewrite Hrun, E. split; [ reflexivity | ].
    rewrite E in Ht. simpl in Ht. split.
    + rewrite Ht, sends_app. simpl.
      destruct (next_call_returns s); [ | apply app_nil_r ].
      destruct (Reader.filters (self s)); apply app_nil_r.
    + pose proof (connect_keeps_counters s) as K. rewrite E in K.
      unfold counters in K. simpl in K. congruence.
Qed.

Lemma send_message_connects_once_witness :
  send_message rpm refused = (Return false, snd (connect refused))
  /\ sends (trace (snd (connect refused))) = sends (trace refused)
  /\ Stats.transmitted_messages (Reader.stats (self (snd (connect refused))))
     = Stats.transmitted_messages (Reader.stats (self refused)).
Proof.
  apply (proj2 (send_message_connects_once rpm refused eq_refl)).
  vm_compute. reflexivity.
Defined.

(** ** Receiving *)

Lemma update_last_snoc {A} (f : A -> A) (l : list A) (x : A) :
  update_last f (l ++ [x]) = (l ++ [f x])%list.
Proof. unfold update_last. rewrite rev_unit, rev_involutive. reflexivity. Qed.

Lemma label_labelled defs message channel :
  labelled defs (label defs (Message.arbitration_id message)
                       (received_frame message channel)).
Proof.
  unfold labelled, first_definition, dict_values.
  assert (G : forall items,
    CANMessage.can_id (label items (Message.arbitration_id message)
                             (received_frame message channel))
    = Message.arbitration_id message).
  { induction items as [ | [k d] items IH]; simpl; [ reflexivity | ].
    destruct (CANMessage.can_id d =? Message.arbitration_id message);
      [ reflexivity | exact IH ]. }
  rewrite G.
  induction defs as [ | [k d] defs IH]; simpl.
  - split; reflexivity.
  - destruct (CANMessage.can_id d =? Message.arbitration_id message).
    + split; reflexivity.
    + exact IH.
Qed.

Lemma received_more_0 r : received_more 0 r r.
Proof. unfold received_more, counters. simpl. now rewrite !Z.add_0_r. Qed.

Lemma received_more_trans n m r1 r2 r3 :
  received_more n r1 r2 -> received_more m r2 r3 ->
  received_more (n + m) r1 r3.
Proof.
  unfold received_more, counters. intros H1 H2.
  injection H1 as T1 R1 X1. rewrite H2, T1, R1, X1, Nat2Z.inj_add.
  rewrite !Z.add_assoc. reflexivity.
Qed.

(** One turn of the receive loop returns, whatever the transport does; the
    frame it may add is labelled from the registry and counted once. *)
Lemma poll_run msgs s :
  exists go new s',
    poll msgs s = (Return (go, (msgs ++ new)%list), s')
    /\ Forall (labelled (Reader.messages (self s))) new
    /\ received_more (List.length new) (self s) (self s').
Proof.
  unfold poll, bus_method.
  unfold try_catch, bind, get_self, transport, time_time, update_stats,
    update, ret, raise.
  destruct s as [r [responses polls clock calls out sched]]. simpl.
  destruct (Reader.bus r) as [b | ]; simpl.
  - destruct responses as [ | [[message | ] | [t | e]] rest]; simpl.
    + eexists true, [], _. rewrite app_nil_r.
      split; [ reflexivity | ]. split; [ constructor | apply received_more_0 ].
    + rewrite update_last_snoc.
      destruct clock as [ | t clock]; simpl;
        (eexists true, [_], _; split; [ reflexivity | ]; split;
         [ repeat constructor; apply label_labelled | reflexivity ]).
    + eexists true, [], _. rewrite app_nil_r.
      split; [ reflexivity | ]. split; [ constructor | apply received_more_0 ].
    + eexists true, [], _. rewrite app_nil_r.
      split; [ reflexivity | ]. split; [ constructor | apply received_more_0 ].
    + rewrite log_text_run. eexists false, [], _. rewrite app_nil_r.
      split; [ reflexivity | ]. rewrite self_logged.
      split; [ constructor | apply received_more_0 ].
  - rewrite log_text_run. eexists false, [], _. rewrite app_nil_r.
    split; [ reflexivity | ]. rewrite self_logged.
    split; [ constructor | apply received_more_0 ].
Qed.

Lemma poll_keeps_messages msgs : keeps Reader.messages (poll msgs).
Proof. unfold poll. keeps_tac. Qed.

Lemma poll_keeps_connected msgs : keeps Reader.is_connected (poll msgs).
Proof. unfold poll. keeps_tac. Qed.

(** The receive loop returns after any number of turns; it hands back the
    frames it was given followed by the ones it received, each labelled
    from the registry and counted once. *)
Lemma read_loop_run turns : forall msgs s,
  exists new s',
    read_loop turns msgs s = (Return (msgs ++ new)%list, s')
    /\ Forall (labelled (Reader.messages (self s))) new
    /\ received_more (List.length new) (self s) (self s')
    /\ Reader.is_connected (self s') = Reader.is_connected (self s).
Proof.
  induction turns as [ | turns IH]; intros msgs s; simpl.
  - exists [], s. unfold ret. rewrite app_nil_r.
    split; [ reflexivity | ].
    split; [ constructor | ]. split; [ apply received_more_0 | reflexivity ].
  - destruct (poll_run msgs s) as (go & new & s1 & E & L & C).
    pose proof (poll_keeps_messages msgs s) as Km.
    pose proof (poll_keeps_connected msgs s) as Kc.
    unfold bind. rewrite E in *. simpl in Km, Kc. simpl.
    destruct go.
    + destruct (IH (msgs ++ new)%list s1) as (new' & s2 & E2 & L2 & C2 & K2).
      exists (new ++ new')%list, s2. rewrite app_assoc.
      split; [ exact E2 | ]. rewrite Km in L2.
      split; [ apply Forall_app; split; assumption | ].
      split; [ | congruence ].
      rewrite length_app. eapply received_more_trans; eassumption.
    + exists new, s1. unfold ret. auto.
Qed.

(** What [read_messages] does after the reader is known to be connected. *)
Lemma read_connected_run timeout s :
  exists frames s',
    read_connected timeout s = (Return frames, s')
    /\ Forall (labelled (Reader.messages (self s))) frames
    /\ received_more (List.length frames) (self s) (self s')
    /\ Reader.is_connected (self s') = Reader.is_connected (self s).
Proof.
  unfold read_connected, read_try.
  unfold bind, get_self, try_catch, deadline_polls.
  destruct s as [r [responses polls clock calls out sched]]. simpl.
  destruct polls as [ | turns polls];
    match goal with
    | |- context [read_loop ?n ?l ?s] =>
        destruct (read_loop_run n l s) as (new & s' & -> & L & C & K)
    end; exists new, s'; simpl; auto.
Qed.

(** [read_messages] never raises, and every frame it returns is labelled
    from the registry and counted once in [received_messages] and in
    [total_messages]. *)
Lemma read_messages_run timeout s :
  exists frames s',
    read_messages timeout s = (Return frames, s')
    /\ Forall (labelled (Reader.messages (self s))) frames
    /\ received_more (List.length frames) (self s) (self s')
    /\ (Reader.is_connected (self s) = true ->
        Reader.is_connected (self s') = true).
Proof.
  unfold read_messages. unfold bind at 1. rewrite ensure_connected_run.
  destruct (Reader.is_connected (self s)) eqn:Hc.
  - simpl. destruct (read_connected_run timeout s) as (fs & s' & E & L & C & K).
    exists fs, s'. rewrite E. repeat split; auto. congruence.
  - destruct (no_raise_connect s) as (b & s1 & E).
    pose proof (connect_keeps_counters s) as Kc.
    pose proof (connect_keeps_messages s) as Km.
    rewrite E in *. simpl in Kc, Km.
    destruct b; simpl.
    + destruct (read_connected_run timeout s1) as (fs & s' & E1 & L & C & K).
      exists fs, s'. rewrite E1. rewrite Km in L.
      split; [ reflexivity | ]. split; [ exact L | ].
      split; [ | discriminate ].
      unfold received_more in *. unfold counters in Kc.
      injection Kc as T R X. rewrite C, T, R, X. reflexivity.
    + exists [], s1. unfold ret.
      split; [ reflexivity | ]. split; [ constructor | ].
      split; [ | discriminate ].
      unfold received_more. rewrite Kc. unfold counters. simpl.
      now rewrite !Z.add_0_r.
Qed.

Lemma no_raise_read_messages timeout : no_raise (read_messages timeout).
Proof.
  intros s. destruct (read_messages_run timeout s) as (fs & s' & E & _).
  eauto.
Qed.

#[local] Hint Resolve no_raise_read_messages : no_raise.

(** C7.  Every frame [read_messages] returns whose identifier is that of a
    configured message carries the name and description of the first such
    message in the registry (of the only one, when identifiers are not
    shared); a frame whose identifier no configured message has keeps the
    generated name [msg_<ID in hex>] and the generated description. *)
Theorem received_frames_are_labelled timeout s frames s' :
  read_messages timeout s = (Return frames, s') ->
  forall f, In f frames ->
    let defs := dict_values (Reader.messages (self s)) in
    let id := CANMessage.can_id f in
    (forall d, In d defs -> CANMessage.can_id d = id ->
       exists d1,
         first_definition (Reader.messages (self s)) id = Some d1
         /\ In d1 defs /\ CANMessage.can_id d1 = id
         /\ CANMessage.name f = CANMessage.name d1
         /\ CANMessage.description f = CANMessage.description d1)
    /\ (forall d, In d defs -> CANMessage.can_id d = id ->
          (forall d', In d' defs -> CANMessage.can_id d' = id -> d' = d) ->
          CANMessage.name f = CANMessage.name d
          /\ CANMessage.description f = CANMessage.description d)
    /\ ((forall d, In d defs -> CANMessage.can_id d <> id) ->
        CANMessage.name f = default_name id
        /\ CANMessage.description f = default_description id).
Proof.
  intros E f Hf defs id.
  destruct (read_messages_run timeout s) as (fs & s1 & E1 & L & _).
  rewrite E in E1. injection E1 as <- <-.
  rewrite Forall_forall in L. specialize (L f Hf).
  unfold labelled, first_definition in *. fold defs id in L |- *.
  assert (First : forall d, In d defs -> CANMessage.can_id d = id ->
            exists d1,
              find (fun d0 => CANMessage.can_id d0 =? id) defs = Some d1
              /\ In d1 defs /\ CANMessage.can_id d1 = id
              /\ CANMessage.name f = CANMessage.name d1
              /\ CANMessage.description f = CANMessage.description d1).
  { intros d Hd Hid.
    destruct (find (fun d0 => CANMessage.can_id d0 =? id) defs) as [d1 | ] eqn:F.
    - destruct (find_some _ _ F) as [H1 H2]. apply Z.eqb_eq in H2.
      exists d1. tauto.
    - pose proof (find_none _ _ F d Hd) as N. simpl in N.
      apply Z.eqb_neq in N. contradiction. }
  split; [ exact First | ]. split.
  - intros d Hd Hid Huniq.
    destruct (First d Hd Hid) as (d1 & _ & H1 & H2 & H3 & H4).
    rewrite <- (Huniq d1 H1 H2). auto.
  - intros Hnone.
    destruct (find (fun d0 => CANMessage.can_id d0 =? id) defs) as [d1 | ] eqn:F.
    + destruct (find_some _ _ F) as [H1 H2]. apply Z.eqb_eq in H2.
      destruct (Hnone d1 H1 H2).
    + exact L.
Qed.

Lemma received_frames_are_labelled_witness :
  exists f s',
    read_messages (Some 1%Q) rpm_reader = (Return [f], s')
    /\ CANMessage.data f = [0; 0; 0x10; 0; 0; 0; 0; 0]
    /\ CANMessage.name f = "rpm"
    /\ CANMessage.description f = "Engine speed".
Proof.
  destruct (read_messages (Some 1%Q) rpm_reader) as [o s'] eqn:E.
  pose proof (received_frames_are_labelled (Some 1%Q) rpm_reader) as T.
  rewrite E in T. vm_compute in E. injection E as <- <-.
  eexists _, _. split; [ reflexivity | ]. split; [ reflexivity | ].
  specialize (T _ _ eq_refl _ (or_introl eq_refl)). cbv zeta in T.
  refine (proj1 (proj2 T) rpm _ eq_refl _).
  - vm_compute. left. reflexivity.
  - intros d' [<- | []] _. reflexivity.
Defined.

(** ** Health *)

Lemma check_health_disconnected s :
  Reader.is_connected (self s) = false -> check_health s = (Return false, s).
Proof.
  intros H. unfold check_health, try_catch, check_health_try, bind, get_self.
  rewrite H. reflexivity.
Qed.

Lemma no_raise_check_health_try : no_raise check_health_try.
Proof. unfold check_health_try. no_raise_tac. Qed.

(** C10.  On a connected reader the [try] block of [check_health] returns,
    so its [except] block does not run: whatever the transport answers to
    the probe, [check_health] returns [True], sets [health_status] to
    ["healthy"] and stores a clock reading in [last_health_check]. *)
Theorem check_health_connected s :
  Reader.is_connected (self s) = true ->
  (exists b s1, check_health_try s = (Return b, s1))
  /\ exists t s',
       check_health s = (Return true, s')
       /\ Reader.health_status (self s') = "healthy"
       /\ Reader.last_health_check (self s') = Some t
       /\ Reader.is_connected (self s') = true.
Proof.
  intros Hc. split; [ apply no_raise_check_health_try | ].
  unfold check_health, try_catch, check_health_try, bind, get_self.
  rewrite Hc. simpl.
  destruct (read_messages_run (Some (1 # 10)%Q) s) as (fs & s1 & -> & _ & _ & K).
  specialize (K Hc). unfold update, time_time, ret. simpl.
  destruct (World.clock (world s1)) as [ | t clock]; simpl;
    eexists _, _; repeat split; exact K.
Qed.

(** The probe of [failing_probe] asks the transport for a frame and gets
    the error, which is logged; the reader is found healthy all the same. *)
Lemma check_health_connected_witness :
  (trace (snd (check_health failing_probe))
   = (trace failing_probe ++ [Recv])%list
   /\ World.responses (world failing_probe)
      = [Raises (Exception "Network is down")]
   /\ World.responses (world (snd (check_health failing_probe))) = []
   /\ World.out (world (snd (check_health failing_probe)))
      = (World.out (world failing_probe)
         ++ [(2, LText "Error reading message: Network is down")])%list)
  /\ exists t s',
       check_health failing_probe = (Return true, s')
       /\ Reader.health_status (self s') = "healthy"
       /\ Reader.last_health_check (self s') = Some t
       /\ Reader.is_connected (self s') = true.
Proof.
  split; [ repeat split; vm_compute; reflexivity | ].
  apply (proj2 (check_health_connected failing_probe eq_refl)).
Defined.

(** C3, on the code.  A reader that was never connected answers [False]
    and keeps the status ["unknown"]; a reader that was found healthy and
    then disconnected answers [False] and keeps the status ["healthy"].
    In both cases nothing at all changes: the status is not set to
    ["unhealthy"]. *)
Theorem check_health_disconnected_keeps_status :
  (Reader.is_connected (self fresh) = false
   /\ check_health fresh = (Return false, fresh)
   /\ Reader.health_status (self fresh) = "unknown")
  /\ (Reader.is_connected (self healthy_then_disconnected) = false
      /\ check_health healthy_then_disconnected
         = (Return false, healthy_then_disconnected)
      /\ Reader.health_status (self healthy_then_disconnected) = "healthy").
Proof.
  split; (split; [ reflexivity | ]);
    (split; [ apply check_health_disconnected | ]); vm_compute; reflexivity.
Qed.

(** ** Disconnecting *)


(** When no teardown call raises, [disconnect] releases the notifier and
    the bus and clears the flag. *)
Lemma disconnect_releases s :
  next_two_calls_return s = true ->
  exists s',
    disconnect s = (Return tt, s')
    /\ Reader.is_connected (self s') = false
    /\ Reader.bus (self s') = None
    /\ Reader.notifier (self s') = None.
Proof.
  unfold next_two_calls_return, disconnect, disconnect_try, stop_monitoring.
  unfold try_catch, bind, get_self, transport, update, ret.
  destruct s as [r [responses polls clock calls out sched]]. simpl.
  destruct (Reader.monitor_thread r); simpl; rewrite log_text_run; simpl;
    rewrite self_logged; simpl;
    destruct (Reader.notifier r) eqn:En; simpl;
    destruct (Reader.bus r) eqn:Eb; simpl;
    rewrite ?responses_logged; simpl;
    destruct responses as [ | [m1 | e1] [ | [m2 | e2] rest]]; simpl;
    try discriminate; intros _;
    repeat (progress (rewrite ?log_text_run, ?self_logged, ?responses_logged;
                      simpl));
    eexists; (split; [ reflexivity | ]);
    rewrite ?self_logged; simpl; auto.
Qed.

(** C9, on the code.  A connected reader whose transport raises in
    [shutdown]: [disconnect] returns without raising, but the reader is
    still flagged connected and still holds the bus. *)
Theorem disconnect_keeps_connection_when_shutdown_raises :
  Reader.is_connected (self connected_then_failing) = true
  /\ fst (disconnect connected_then_failing) = Return tt
  /\ trace (snd (disconnect connected_then_failing))
     = [BusOpen (bus_config (self fresh)); Shutdown]
  /\ Reader.is_connected (self (snd (disconnect connected_then_failing)))
     = true
  /\ Reader.bus (self (snd (disconnect connected_then_failing)))
     = Some (bus_config (self fresh)).
Proof. repeat split; vm_compute; reflexivity. Qed.

(** ** Statistics *)

Section Maintains.
Context {A B : Type} (P : State -> Prop).

Lemma maintains_ret (a : A) : maintains P (ret a).
Proof. intros s H. exact H. Qed.

Lemma maintains_bind (m : M A) (k : A -> M B) :
  maintains P m -> (forall a, maintains P (k a)) -> maintains P (bind m k).
Proof.
  intros Hm Hk s H. unfold bind. specialize (Hm s H).
  destruct (m s) as [[a | e] s1]; simpl in *.
  - apply Hk. exact Hm.
  - exact Hm.
Qed.

Lemma maintains_try_catch (m : M A) (h : exn -> M A) :
  maintains P m -> (forall e, maintains P (h e)) ->
  maintains P (try_catch m h).
Proof.
  intros Hm Hh s H. unfold try_catch. specialize (Hm s H).
  destruct (m s) as [[a | e] s1]; simpl in *.
  - exact Hm.
  - apply Hh. exact Hm.
Qed.
End Maintains.

Lemma maintains_get_self (P : State -> Prop) : maintains P get_self.
Proof. intros s H. exact H. Qed.

(** An invariant of the two loop bodies that does not look at the scheduler
    is an invariant of the threads. *)
Section Threads.
Context (P : State -> Prop).
Hypothesis P_sched :
  forall s v, P s -> P (mkState (self s) (World.set_sched v (world s))).
Hypothesis P_monitor : maintains P monitor_body.
Hypothesis P_health : maintains P health_monitor_body.

Lemma maintains_scheduled : maintains P scheduled.
Proof.
  intros s H. unfold scheduled.
  destruct (World.sched (world s)); simpl; [ exact H | apply P_sched, H ].
Qed.

Lemma maintains_loop turns guard body :
  maintains P body -> maintains P (loop turns guard body).
Proof.
  intros K. induction turns as [ | turns IH]; simpl.
  - apply maintains_ret.
  - apply maintains_bind; [ apply maintains_get_self | intros r ].
    destruct (guard r); [ | apply maintains_ret ].
    apply maintains_bind; [ exact K | intros ?; exact IH ].
Qed.

Lemma maintains_target t turns : maintains P (target t turns).
Proof. destruct t; apply maintains_loop; assumption. Qed.

Lemma maintains_thread_start t : maintains P (thread_start t).
Proof.
  unfold thread_start.
  apply maintains_bind; [ apply maintains_scheduled | intros turns ].
  apply maintains_try_catch; [ apply maintains_target | intros ? ].
  apply maintains_ret.
Qed.
End Threads.

(** A method that keeps the three counters maintains their identity. *)
Lemma keeps_counters_maintains {A} (m : M A) :
  keeps counters m -> maintains stats_ok m.
Proof.
  intros K s. specialize (K s). unfold stats_ok, counters in *.
  injection K as -> -> ->. auto.
Qed.

Lemma stats_ok_received_more n s s' :
  received_more n (self s) (self s') -> stats_ok s -> stats_ok s'.
Proof.
  unfold received_more, counters, stats_ok. intros H.
  injection H as -> -> ->. lia.
Qed.

Lemma read_messages_maintains timeout : maintains stats_ok (read_messages timeout).
Proof.
  intros s. destruct (read_messages_run timeout s) as (fs & s' & -> & _ & C & _).
  simpl. eapply stats_ok_received_more. exact C.
Qed.

(** [send_message] returns, and counts the frame exactly when it reports
    success. *)
Lemma send_message_run m s :
  exists b s',
    send_message m s = (Return b, s')
    /\ counters (self s')
       = if b
         then (Stats.total_messages (Reader.stats (self s)) + 1,
               Stats.received_messages (Reader.stats (self s)),
               Stats.transmitted_messages (Reader.stats (self s)) + 1)
         else counters (self s).
Proof.
  assert (K : keeps counters ensure_connected).
  { unfold ensure_connected. apply keeps_bind; [ apply keeps_get_self | ].
    intros r. destruct (Reader.is_connected r);
      [ apply keeps_ret | apply connect_keeps_counters ]. }
  specialize (K s).
  destruct (no_raise_ensure_connected s) as (c & s1 & E).
  unfold send_message, bind. rewrite E in *. simpl in K.
  destruct c; simpl.
  - destruct (send_attempt_run m s1) as (b & s2 & extra & -> & _ & _ & C).
    exists b, s2. split; [ reflexivity | ].
    rewrite C. unfold counters in *. injection K as T R X.
    rewrite T, R, X. destruct b; reflexivity.
  - exists false, s1. unfold ret. auto.
Qed.

Lemma send_message_maintains m : maintains stats_ok (send_message m).
Proof.
  intros s. destruct (send_message_run m s) as (b & s' & -> & C).
  simpl. unfold stats_ok, counters in *.
  destruct b; injection C as -> -> ->; lia.
Qed.

Create HintDb maintains.
#[local] Hint Resolve read_messages_maintains send_message_maintains
  : maintains.

(** Statement by statement: whatever does not receive or send keeps the
    counters. *)
Ltac maintains_step :=
  match goal with
  | |- maintains _ (bind _ _) => apply maintains_bind; [ | intros ? ]
  | |- maintains _ (try_catch _ _) => apply maintains_try_catch; [ | intros ? ]
  | |- maintains _ (if ?b then _ else _) => destruct b
  | |- maintains _ (match ?x with _ => _ end) => destruct x
  | |- maintains _ _ => solve [ auto with maintains ]
  | |- maintains stats_ok _ =>
      solve [ apply keeps_counters_maintains; keeps_tac ]
  end.

Ltac maintains_tac := repeat maintains_step.

Lemma add_messages_maintains ms : maintains stats_ok (add_messages ms).
Proof.
  induction ms as [ | m ms IH]; simpl.
  - apply maintains_ret.
  - unfold add_message. maintains_tac.
Qed.

Lemma disconnect_maintains : maintains stats_ok disconnect.
Proof.
  unfold disconnect, disconnect_try, stop_monitoring. maintains_tac.
Qed.

Lemma check_health_maintains : maintains stats_ok check_health.
Proof.
  unfold check_health, check_health_try, check_health_except. maintains_tac.
Qed.

Lemma monitor_body_maintains : maintains stats_ok monitor_body.
Proof.
  unfold monitor_body. maintains_tac.
Qed.

Lemma health_monitor_body_maintains : maintains stats_ok health_monitor_body.
Proof.
  pose proof check_health_maintains. unfold health_monitor_body.
  maintains_tac.
Qed.

Lemma target_maintains t turns : maintains stats_ok (target t turns).
Proof.
  apply maintains_target;
    [ apply monitor_body_maintains | apply health_monitor_body_maintains ].
Qed.

Lemma thread_start_maintains t : maintains stats_ok (thread_start t).
Proof.
  apply maintains_thread_start;
    [ intros s v H; exact H | apply monitor_body_maintains
    | apply health_monitor_body_maintains ].
Qed.

Lemma exec_maintains o s : stats_ok s -> stats_ok (exec o s).
Proof.
  pose proof thread_start_maintains.
  destruct o; cbn [exec];
    match goal with
    | |- stats_ok _ -> stats_ok (snd (?m _)) =>
        revert s; change (maintains stats_ok m)
    end.
  - unfold add_message. maintains_tac.
  - apply add_messages_maintains.
  - unfold add_filter. maintains_tac.
  - unfold remove_filter. maintains_tac.
  - unfold clear_filters. maintains_tac.
  - apply keeps_counters_maintains, connect_keeps_counters.
  - apply disconnect_maintains.
  - apply send_message_maintains.
  - apply read_messages_maintains.
  - unfold start_monitoring. maintains_tac.
  - unfold stop_monitoring. maintains_tac.
  - unfold read_data. maintains_tac.
  - unfold save_data. maintains_tac.
  - unfold get_status. maintains_tac.
  - apply check_health_maintains.
  - unfold close. maintains_tac.
    + unfold stop_monitoring. maintains_tac.
    + apply disconnect_maintains.
  - apply target_maintains.
Qed.

(** C6.  The identity [total_messages = received_messages +
    transmitted_messages] holds at construction (all three are zero) and
    after every operation of a reader on which it held; a [send_message]
    that reports success adds one to [transmitted_messages] and one to
    [total_messages], one that reports failure changes none of the three
    counters; [read_messages] adds the number of frames it returns to
    [received_messages] and to [total_messages]. *)
Theorem stats_identity :
  (forall a w, stats_ok (CANBusReader a w)
               /\ counters (self (CANBusReader a w)) = (0, 0, 0))
  /\ (forall o s, stats_ok s -> stats_ok (exec o s))
  /\ (forall m s,
        exists b s',
          send_message m s = (Return b, s')
          /\ counters (self s')
             = if b
               then (Stats.total_messages (Reader.stats (self s)) + 1,
                     Stats.received_messages (Reader.stats (self s)),
                     Stats.transmitted_messages (Reader.stats (self s)) + 1)
               else counters (self s))
  /\ (forall timeout s,
        exists frames s',
          read_messages timeout s = (Return frames, s')
          /\ received_more (List.length frames) (self s) (self s')).
Proof.
  split; [ intros a w; rewrite CANBusReader_run; split; reflexivity | ].
  split; [ exact exec_maintains | ].
  split; [ exact send_message_run | ].
  intros timeout s.
  destruct (read_messages_run timeout s) as (fs & s' & E & _ & C & _).
  eauto.
Qed.

Lemma stats_identity_witness :
  stats_ok rpm_reader
  /\ stats_ok (exec (OpSendMessage rpm) (exec (OpReadMessages None) rpm_reader))
  /\ counters (self (exec (OpSendMessage rpm)
                          (exec (OpReadMessages None) rpm_reader)))
     = (2, 1, 1).
Proof.
  split; [ reflexivity | ]. split.
  - apply (proj1 (proj2 stats_identity)).
    apply (proj1 (proj2 stats_identity)).
    reflexivity.
  - vm_compute. reflexivity.
Defined.

(** ** The configuration handed to the transport *)

(** No entry of a dictionary stripped of its [None] values is [None]. *)
Lemma stripped_has_no_none (d : dict pyval) k v :
  dict_get k (filter (fun kv => negb (is_none (snd kv))) d) = Some v ->
  v <> VNone.
Proof.
  induction d as [ | [k' v'] d IH]; simpl; [ discriminate | ].
  destruct v'; simpl; try exact IH;
    (destruct (String.eqb k' k); [ intros H; injection H as <-; discriminate
                                 | exact IH ]).
Qed.

Lemma dict_get_filter_absent {V} (p : string * V -> bool) (d : dict V) k :
  dict_get k d = None -> dict_get k (filter p d) = None.
Proof.
  induction d as [ | [k' v'] d IH]; simpl; [ reflexivity | ].
  destruct (String.eqb k' k) eqn:E; [ discriminate | ].
  intros H. destruct (p (k', v')); simpl; [ rewrite E | ]; auto.
Qed.

(** Whether a key is in a dictionary depends on its keys only. *)
Lemma dict_get_absent_keys {V W} (d : dict V) : forall (d' : dict W) k,
  map fst d = map fst d' -> dict_get k d = None -> dict_get k d' = None.
Proof.
  induction d as [ | [k1 v1] d IH]; intros [ | [k2 v2] d'] k; simpl;
    try discriminate; [ reflexivity | ].
  intros H. injection H as <- H.
  destruct (String.eqb k1 k); [ discriminate | ]. apply IH. exact H.
Qed.

(** The first call [connect] makes on a new reader opens the bus with
    [bus_config]. *)
Lemma connect_opens_with_bus_config a w :
  trace (snd (connect (CANBusReader a w)))
  = (World.calls w ++ [BusOpen (bus_config (self (CANBusReader a w)))])%list.
Proof.
  rewrite CANBusReader_run.
  rewrite connect_trace by reflexivity. simpl.
  destruct (next_call_returns _); reflexivity.
Qed.

Lemma dict_get_In {V} (d : dict V) k v :
  dict_get k d = Some v -> In (k, v) d.
Proof.
  induction d as [ | [k' v'] d IH]; simpl; [ discriminate | ].
  destruct (String.eqb k' k) eqn:E.
  - apply String.eqb_eq in E. intros H. injection H as ->. left. congruence.
  - intros H. right. apply IH, H.
Qed.

(** An option left unset that is not omitted is passed with its default. *)
Lemma unset_option_default a k v :
  dict_get k default_entries = Some v -> unset k a = true ->
  dict_get k (bus_config (new_reader a)) = Some v.
Proof.
  intros Hd Hu. apply dict_get_In in Hd.
  destruct a as [i c b t f db an se hw rx fdb le ef sn cf lg kw].
  unfold default_entries in Hd.
  repeat (destruct Hd as [Hd | Hd];
          [ injection Hd as <- <-; cbn in Hu;
            repeat match type of Hu with
                   | negb (is_some ?o) = true => destruct o; [ discriminate | ]
                   end;
            destruct se, hw, fdb, sn; reflexivity | ]).
  destruct Hd.
Qed.

(** Every option the constructor knows has a default: [None], or the value
    of [default_entries]. *)
Lemma unset_option_cases a k :
  unset k a = true ->
  none_by_default k = true \/ exists v, dict_get k default_entries = Some v.
Proof.
  unfold unset. destruct (dict_get k (passed a)) as [b | ] eqn:E;
    [ | discriminate ].
  intros _. apply dict_get_In in E. unfold passed in E.
  repeat (destruct E as [E | E];
          [ injection E as <- _;
            first [ left; reflexivity | right; eexists; reflexivity ] | ]).
  destruct E.
Qed.

(** C8, as the code has it.  The configuration [connect] hands to the
    transport has no entry for a name the constructor does not know, none
    for [serial], [hw_type], [fd_data_bitrate] or [serial_number] left
    unset, and no entry whose value is [None]; [error_filters] and
    [can_filters] left unset are stored as empty lists and passed as empty
    lists; every other option left unset is passed with its default value,
    and these are all the options there are. *)
Theorem bus_config_omits_none a w :
  let cfg := bus_config (self (CANBusReader a w)) in
  trace (snd (connect (CANBusReader a w))) = (World.calls w ++ [BusOpen cfg])%list
  /\ (forall k, unrecognized k a = true -> dict_get k cfg = None)
  /\ (forall k, none_by_default k = true -> unset k a = true ->
                dict_get k cfg = None)
  /\ (forall k v, dict_get k cfg = Some v -> v <> VNone)
  /\ (Args.error_filters a = None ->
      dict_get "error_filters" cfg = Some (VList []))
  /\ (Args.can_filters a = None ->
      dict_get "can_filters" cfg = Some (VList []))
  /\ (forall k v, dict_get k default_entries = Some v -> unset k a = true ->
                  dict_get k cfg = Some v)
  /\ (forall k, unset k a = true ->
                none_by_default k = true
                \/ exists v, dict_get k default_entries = Some v)
  /\ (Args.error_filters a = None ->
      Config.error_filters (Reader.config (self (CANBusReader a w))) = [])
  /\ (Args.can_filters a = None ->
      Config.can_filters (Reader.config (self (CANBusReader a w))) = []).
Proof.
  intros cfg. split; [ apply connect_opens_with_bus_config | ].
  subst cfg. rewrite self_CANBusReader.
  repeat apply conj.
  - intros k H. unfold bus_config. apply dict_get_filter_absent.
    apply (dict_get_absent_keys (passed a)); [ reflexivity | ].
    unfold unrecognized in H.
    destruct (dict_get k (passed a)); [ discriminate | reflexivity ].
  - intros k Hk. unfold none_by_default in Hk.
    apply existsb_exists in Hk. destruct Hk as (name & Hin & Hname).
    apply String.eqb_eq in Hname. subst name.
    destruct a as [i c b t f db an se hw rx fdb le ef sn cf lg kw].
    destruct Hin as [<- | [<- | [<- | [<- | []]]]]; simpl;
      destruct se, hw, fdb, sn; simpl; try discriminate; reflexivity.
  - intros k v. apply stripped_has_no_none.
  - destruct a as [i c b t f db an se hw rx fdb le ef sn cf lg kw]. simpl.
    intros ->. destruct se, hw, fdb, sn; reflexivity.
  - destruct a as [i c b t f db an se hw rx fdb le ef sn cf lg kw]. simpl.
    intros ->. destruct se, hw, fdb, sn; reflexivity.
  - intros k v. apply unset_option_default.
  - intros k. apply unset_option_cases.
  - intros H. cbn. rewrite H. reflexivity.
  - intros H. cbn. rewrite H. reflexivity.
Qed.

(** A reader built with a bit rate and an unknown keyword: the keyword and
    the serial number are not in the configuration, the bit rate is the one
    that was passed, and the channel, left unset, is the default one. *)
Lemma bus_config_omits_none_witness :
  (dict_get "receive_own_messages" (Args.kwargs with_extra_keyword)
   = Some (VBool true)
   /\ dict_get "receive_own_messages"
        (bus_config (self (CANBusReader with_extra_keyword quiet_world)))
      = None)
  /\ dict_get "serial"
       (bus_config (self (CANBusReader with_extra_keyword quiet_world)))
     = None
  /\ dict_get "channel"
       (bus_config (self (CANBusReader with_extra_keyword quiet_world)))
     = Some (VStr "can0")
  /\ dict_get "bitrate"
       (bus_config (self (CANBusReader with_extra_keyword quiet_world)))
     = Some (VInt 250000).
Proof.
  pose proof (bus_config_omits_none with_extra_keyword quiet_world)
    as (_ & U & N & _ & _ & _ & D & _).
  split; [ split; [ reflexivity | apply U; reflexivity ] | ].
  split; [ apply N; reflexivity | ].
  split; [ apply D; reflexivity | ].
  vm_compute. reflexivity.
Defined.

(** C8, as the claim has it, fails: [error_filters] and [can_filters] are
    left unset by a reader built with the defaults, and the configuration
    its [connect] hands to the transport has an entry for each, the empty
    list. *)
Lemma unset_filter_options_are_passed_empty :
  unset "can_filters" Args.defaults = true
  /\ unset "error_filters" Args.defaults = true
  /\ trace (snd (connect fresh)) = [BusOpen (bus_config (self fresh))]
  /\ dict_get "can_filters" (bus_config (self fresh)) = Some (VList [])
  /\ dict_get "error_filters" (bus_config (self fresh)) = Some (VList [])
  /\ ~ (forall k, unset k Args.defaults = true ->
                  dict_get k (bus_config (self fresh)) = None).
Proof.
  repeat split; try (vm_compute; reflexivity).
  intros H. specialize (H "can_filters" eq_refl). vm_compute in H.
  discriminate.
Qed.

(** ** The message registry *)

Lemma dict_get_set {V} (k k' : string) (v : V) (d : dict V) :
  dict_get k' (dict_set k v d)
  = if String.eqb k' k then Some v else dict_get k' d.
Proof.
  induction d as [ | [k1 v1] d IH]; simpl.
  - rewrite (String.eqb_sym k k'). reflexivity.
  - destruct (String.eqb k1 k) eqn:E1; simpl.
    + apply String.eqb_eq in E1. subst k1.
      rewrite (String.eqb_sym k k'). destruct (String.eqb k' k); reflexivity.
    + destruct (String.eqb k1 k') eqn:E2.
      * apply String.eqb_eq in E2. subst k1.
        rewrite E1. reflexivity.
      * exact IH.
Qed.

Lemma dict_set_length {V} (k : string) (v : V) (d : dict V) :
  List.length (dict_set k v d)
  = if is_some (dict_get k d) then List.length d else S (List.length d).
Proof.
  induction d as [ | [k1 v1] d IH]; simpl; [ reflexivity | ].
  destruct (String.eqb k1 k); simpl; [ reflexivity | ].
  rewrite IH. destruct (is_some (dict_get k d)); reflexivity.
Qed.

Lemma add_message_messages m s :
  Reader.messages (self (snd (add_message m s)))
  = dict_set (CANMessage.name m) m (Reader.messages (self s)).
Proof.
  unfold add_message, bind, update. simpl. rewrite log_text_run. simpl.
  rewrite self_logged. reflexivity.
Qed.

(** X1.  After [add_message], looking a name up in the registry gives the
    message just added for its own name (an older definition under that
    name is overwritten) and what was there before for every other name. *)
Theorem add_message_lookup m s k :
  dict_get k (Reader.messages (self (snd (add_message m s))))
  = if String.eqb k (CANMessage.name m)
    then Some m
    else dict_get k (Reader.messages (self s)).
Proof. rewrite add_message_messages. apply dict_get_set. Qed.

(** X2.  [get_status] counts names, not calls: [add_message] under a name
    that is registered leaves [message_count] as it was, under a new name
    it adds one. *)
Theorem add_message_count m s :
  exists st,
    fst (get_status (snd (add_message m s))) = Return st
    /\ message_count st
       = (if is_some (dict_get (CANMessage.name m) (Reader.messages (self s)))
          then List.length (Reader.messages (self s))
          else S (List.length (Reader.messages (self s))))
    /\ filter_count st = List.length (Reader.filters (self s)).
Proof.
  unfold get_status, bind, get_self, ret. simpl. eexists.
  split; [ reflexivity | ]. simpl.
  rewrite add_message_messages, dict_set_length.
  split; [ reflexivity | ].
  unfold add_message, bind, update. simpl. rewrite log_text_run. simpl.
  rewrite self_logged. reflexivity.
Qed.

Lemma find_app {A} (p : A -> bool) (l l' : list A) :
  find p (l ++ l')
  = match find p l with Some x => Some x | None => find p l' end.
Proof.
  induction l as [ | x l IH]; simpl; [ reflexivity | ].
  destruct (p x); [ reflexivity | exact IH ].
Qed.

(** X3.  After [add_messages], a name is bound to the last message of the
    list that carries it, and to what it was bound before when the list
    has none: later entries overwrite earlier ones. *)
Theorem add_messages_last_wins ms : forall s k,
  dict_get k (Reader.messages (self (snd (add_messages ms s))))
  = match last_named k ms with
    | Some m => Some m
    | None => dict_get k (Reader.messages (self s))
    end.
Proof.
  unfold last_named.
  induction ms as [ | m ms IH]; intros s k; simpl; [ reflexivity | ].
  unfold bind. destruct (add_message m s) as [[[] | e] s1] eqn:E.
  - rewrite IH, find_app. simpl.
    destruct (find _ (rev ms)); [ reflexivity | ].
    replace s1 with (snd (add_message m s)) by (rewrite E; reflexivity).
    rewrite add_message_messages, dict_get_set, (String.eqb_sym k).
    destruct (String.eqb (CANMessage.name m) k); reflexivity.
  - exfalso. unfold add_message, bind, update in E. simpl in E.
    rewrite log_text_run in E. discriminate.
Qed.

(** ** The filter registry *)

Lemma remove_filter_filters id mask ext s :
  Reader.filters (self (snd (remove_filter id mask ext s)))
  = filter (fun f => negb (CANFilter.matches id mask ext f))
           (Reader.filters (self s)).
Proof.
  unfold remove_filter, bind, update. simpl. rewrite log_text_run. simpl.
  rewrite self_logged. reflexivity.
Qed.

(** X4.  [remove_filter] removes every rule equal to the triple and no
    other: afterwards the triple is not registered, every other rule is
    registered exactly when it was, and a second [remove_filter] with the
    same triple changes nothing more. *)
Theorem remove_filter_removes_all id mask ext s :
  let rule := CANFilter.Build id mask ext in
  let s' := snd (remove_filter id mask ext s) in
  ~ In rule (Reader.filters (self s'))
  /\ (forall f, In f (Reader.filters (self s'))
                <-> In f (Reader.filters (self s)) /\ f <> rule)
  /\ Reader.filters (self (snd (remove_filter id mask ext s')))
     = Reader.filters (self s').
Proof.
  intros rule s'. subst s'.
  assert (Iff : forall f,
            In f (Reader.filters (self (snd (remove_filter id mask ext s))))
            <-> In f (Reader.filters (self s)) /\ f <> rule).
  { intros f. rewrite remove_filter_filters, filter_In, negb_true_iff.
    split; intros [H1 H2]; split; try exact H1.
    - intros ->. unfold rule in H2.
      assert (T : CANFilter.matches id mask ext (CANFilter.Build id mask ext)
                  = true) by now apply matches_iff.
      congruence.
    - destruct (CANFilter.matches id mask ext f) eqn:E; [ | reflexivity ].
      apply matches_iff in E. contradiction. }
  split; [ | split; [ exact Iff | ]].
  - intros H. apply Iff in H. destruct H as [_ H]. apply H. reflexivity.
  - rewrite (remove_filter_filters id mask ext (snd _)).
    apply forallb_filter_id, forallb_forall. intros f Hf.
    apply Iff in Hf. destruct Hf as [_ Hf].
    destruct (CANFilter.matches id mask ext f) eqn:E; [ | reflexivity ].
    apply matches_iff in E. contradiction.
Qed.

(** ** Operations that stay off the bus *)

Section Offline.
Context {A B : Type}.

Lemma offline_ret (a : A) : offline (ret a).
Proof. intros s. split; reflexivity. Qed.

Lemma offline_bind (m : M A) (k : A -> M B) :
  offline m -> (forall a, offline (k a)) -> offline (bind m k).
Proof.
  intros Hm Hk s. unfold bind. destruct (Hm s) as [C R].
  destruct (m s) as [[a | e] s1]; simpl in *.
  - destruct (Hk a s1) as [C1 R1]. split; congruence.
  - split; assumption.
Qed.

Lemma offline_try_catch (m : M A) (h : exn -> M A) :
  offline m -> (forall e, offline (h e)) -> offline (try_catch m h).
Proof.
  intros Hm Hh s. unfold try_catch. destruct (Hm s) as [C R].
  destruct (m s) as [[a | e] s1]; simpl in *.
  - split; assumption.
  - destruct (Hh e s1) as [C1 R1]. split; congruence.
Qed.
End Offline.

Lemma offline_get_self : offline get_self.
Proof. intros s. split; reflexivity. Qed.

Lemma offline_update f : offline (update f).
Proof. intros s. split; reflexivity. Qed.

Lemma offline_log data log_type : offline (log data log_type).
Proof.
  intros s. rewrite log_run. simpl.
  split; [ apply calls_logged | apply responses_logged ].
Qed.

Lemma offline_log_text text log_type : offline (log_text text log_type).
Proof. apply offline_log. Qed.

Create HintDb offline.
#[local] Hint Resolve offline_ret offline_get_self offline_update
  offline_log offline_log_text : offline.

Ltac offline_step :=
  match goal with
  | |- offline (bind _ _) => apply offline_bind; [ | intros ? ]
  | |- offline (try_catch _ _) => apply offline_try_catch; [ | intros ? ]
  | |- offline (if ?b then _ else _) => destruct b
  | |- offline (match ?x with _ => _ end) => destruct x
  | |- offline _ => solve [ auto with offline ]
  end.

Ltac offline_tac := repeat offline_step.

Lemma offline_add_messages ms : offline (add_messages ms).
Proof.
  induction ms as [ | m ms IH]; simpl.
  - apply offline_ret.
  - unfold add_message. offline_tac.
Qed.

Lemma add_messages_keeps {X} (attr : Reader.t -> X) ms :
  (forall v r, attr (Reader.set_messages v r) = attr r) ->
  keeps attr (add_messages ms).
Proof.
  intros H. induction ms as [ | m ms IH]; simpl.
  - apply keeps_ret.
  - unfold add_message.
    apply keeps_bind; [ | intros ?; exact IH ].
    apply keeps_bind; [ apply keeps_update; intros r; apply H | intros ? ].
    apply keeps_log_text.
Qed.

(** X5.  The registry operations, [save_data] and [get_status] never reach
    the transport: they make no call into it, use none of its answers, and
    leave the connection flag and the bus handle as they were.
    ([start_monitoring] is not one of them: the thread it starts reads from
    the bus, and connects first when it has to.) *)
Theorem local_ops_stay_off_the_bus o s :
  local_op o = true ->
  trace (exec o s) = trace s
  /\ World.responses (world (exec o s)) = World.responses (world s)
  /\ Reader.is_connected (self (exec o s)) = Reader.is_connected (self s)
  /\ Reader.bus (self (exec o s)) = Reader.bus (self s).
Proof.
  intros L.
  assert (O : offline (fun s => (Return tt, exec o s))).
  { destruct o; try discriminate; cbn [exec]; intros s0; cbn [snd];
      match goal with
      | |- context [snd (?m s0)] =>
          assert (Om : offline m); [ | exact (Om s0) ]
      end.
    - unfold add_message. offline_tac.
    - apply offline_add_messages.
    - unfold add_filter. offline_tac.
    - unfold remove_filter. offline_tac.
    - unfold clear_filters. offline_tac.
    - unfold save_data. offline_tac.
    - unfold get_status. offline_tac. }
  destruct (O s) as [C R]. simpl in C, R.
  split; [ exact C | ]. split; [ exact R | ].
  destruct o; try discriminate; cbn [exec];
    match goal with
    | |- context [snd (?m s)] =>
        assert (K1 : keeps Reader.is_connected m);
        [ | assert (K2 : keeps Reader.bus m);
            [ | split; [ apply K1 | apply K2 ]]]
    end;
    try (apply add_messages_keeps; reflexivity);
    try (unfold add_message, add_filter, remove_filter, clear_filters,
           save_data, get_status;
         keeps_tac).
Qed.

Lemma local_ops_stay_off_the_bus_witness :
  trace (exec (OpAddFilter 0x200 0x7FF false) (snd (connect fresh)))
  = trace (snd (connect fresh))
  /\ Reader.is_connected
       (self (exec (OpAddFilter 0x200 0x7FF false) (snd (connect fresh))))
     = true.
Proof.
  destruct (local_ops_stay_off_the_bus
              (OpAddFilter 0x200 0x7FF false) (snd (connect fresh)) eq_refl)
    as (T & _ & C & _).
  split; [ exact T | ]. rewrite C. reflexivity.
Defined.

Lemma connect_when_connected s :
  Reader.is_connected (self s) = true -> connect s = (Return true, s).
Proof.
  intros H. unfold connect, try_catch, connect_try, bind, get_self.
  rewrite H. reflexivity.
Qed.

(** What [add_filter] leaves: the rule at the end of the list, and one
    line in the log. *)
Lemma add_filter_run id mask ext s :
  snd (add_filter id mask ext s)
  = logged (LText ("Added filter: " ++ filter_text id mask ext)) 0
      (mkState
         (Reader.set_filters
            (Reader.filters (self s) ++ [CANFilter.Build id mask ext])
            (self s))
         (world s)).
Proof.
  unfold add_filter, bind, update. simpl. rewrite log_text_run. reflexivity.
Qed.

(** X6.  A rule added while the reader is connected is registered but not
    pushed, not even by calling [connect] again: the transport sees no
    further call until the reader is disconnected and connected anew. *)
Theorem filter_added_while_connected_is_not_pushed id mask ext s :
  Reader.is_connected (self s) = true ->
  let s' := snd (connect (snd (add_filter id mask ext s))) in
  fst (connect (snd (add_filter id mask ext s))) = Return true
  /\ In (CANFilter.Build id mask ext) (Reader.filters (self s'))
  /\ trace s' = trace s.
Proof.
  intros Hc s'. subst s'.
  rewrite connect_when_connected
    by (rewrite add_filter_run, self_logged; exact Hc).
  simpl. split; [ reflexivity | ].
  rewrite add_filter_run, self_logged, trace_logged. simpl.
  split; [ | reflexivity ].
  apply in_or_app. right. left. reflexivity.
Qed.

Lemma filter_added_while_connected_is_not_pushed_witness :
  In (CANFilter.Build 0x200 0x7FF false)
     (Reader.filters
        (self (snd (connect (snd (add_filter 0x200 0x7FF false
                                     (snd (connect fresh))))))))
  /\ trace (snd (connect (snd (add_filter 0x200 0x7FF false
                                  (snd (connect fresh))))))
     = trace (snd (connect fresh)).
Proof.
  apply (filter_added_while_connected_is_not_pushed
           0x200 0x7FF false (snd (connect fresh)) eq_refl).
Defined.

(** ** More on connecting and disconnecting *)

(** X7.  [disconnect] never raises and always stops the monitor; it stops
    the notifier, when there is one, before it shuts the bus down, shuts
    the bus down only when the notifier could be stopped, and asks nothing
    else of the transport. *)
Theorem disconnect_teardown s :
  exists s',
    disconnect s = (Return tt, s')
    /\ Reader.monitor_running (self s') = false
    /\ Reader.monitor_thread (self s') = None
    /\ trace s'
       = (trace s
          ++ (if is_some (Reader.notifier (self s)) then [NotifierStop] else [])
          ++ (if is_some (Reader.bus (self s))
                 && (negb (is_some (Reader.notifier (self s)))
                     || next_call_returns s)
              then [Shutdown] else []))%list.
Proof.
  unfold next_call_returns, disconnect, disconnect_try, stop_monitoring, trace.
  unfold try_catch, bind, get_self, transport, update, ret.
  destruct s as [r [responses polls clock calls out sched]]. simpl.
  destruct (Reader.monitor_thread r) eqn:Et; simpl; rewrite log_text_run;
    simpl;
    rewrite self_logged; simpl;
    destruct (Reader.notifier r); simpl;
    destruct (Reader.bus r); simpl;
    rewrite ?responses_logged, ?calls_logged; simpl;
    destruct responses as [ | [m1 | e1] [ | [m2 | e2] rest]]; simpl;
    repeat (progress (rewrite ?log_text_run, ?self_logged, ?responses_logged,
                        ?calls_logged; simpl));
    eexists; (split; [ reflexivity | ]);
    repeat (progress (rewrite ?self_logged, ?calls_logged; simpl));
    rewrite <- ?app_assoc, ?app_nil_r; repeat split; auto.
Qed.

(** X8.  [disconnect] is idempotent: after a [disconnect] that met no
    error the reader is disconnected and holds neither bus nor notifier,
    and a second [disconnect] makes no call into the transport and leaves
    it so. *)
Theorem disconnect_is_idempotent s :
  next_two_calls_return s = true ->
  let s1 := snd (disconnect s) in
  let s2 := snd (disconnect s1) in
  (Reader.is_connected (self s1) = false
   /\ Reader.bus (self s1) = None /\ Reader.notifier (self s1) = None)
  /\ trace s2 = trace s1
  /\ (Reader.is_connected (self s2) = false
      /\ Reader.bus (self s2) = None /\ Reader.notifier (self s2) = None).
Proof.
  intros H s1 s2. subst s2 s1.
  destruct (disconnect_releases s H) as (s1 & -> & C & B & N). simpl.
  split; [ auto | ].
  clear H s.
  unfold disconnect, disconnect_try, stop_monitoring, trace.
  unfold try_catch, bind, get_self, transport, update, ret.
  destruct s1 as [r w]. simpl in *.
  destruct (Reader.monitor_thread r); simpl; rewrite log_text_run; simpl;
    rewrite self_logged; simpl; rewrite B, N; simpl;
    rewrite log_text_run; simpl;
    repeat (progress (rewrite ?self_logged, ?calls_logged; simpl));
    auto.
Qed.

Lemma disconnect_is_idempotent_witness :
  trace (snd (disconnect (snd (disconnect (snd (connect fresh))))))
  = trace (snd (disconnect (snd (connect fresh)))).
Proof.
  apply (disconnect_is_idempotent (snd (connect fresh)) eq_refl).
Defined.

Lemma connect_refused s e rest :
  Reader.is_connected (self s) = false ->
  World.responses (world s) = Raises e :: rest ->
  exists s',
    connect s = (Return false, s')
    /\ Reader.is_connected (self s') = false
    /\ Reader.bus (self s') = Reader.bus (self s)
    /\ Stats.connection_errors (Reader.stats (self s'))
       = Stats.connection_errors (Reader.stats (self s)) + 1
    /\ Stats.last_error (Reader.stats (self s')) = Some (str e)
    /\ World.responses (world s') = rest
    /\ trace s' = (trace s ++ [BusOpen (bus_config (self s))])%list
    /\ bus_config (self s') = bus_config (self s).
Proof.
  unfold connect, try_catch, connect_try, connect_except, bind, get_self,
    transport, update_stats, update, ret, trace.
  destruct s as [r [responses polls clock calls out sched]]. simpl.
  intros -> ->. simpl. rewrite log_text_run. eexists.
  split; [ reflexivity | ].
  rewrite self_logged, responses_logged, calls_logged. simpl.
  repeat split.
Qed.

(** X9.  Failed connects add up: when the transport refuses to open the
    bus [k] times in a row, [k] calls of [connect] on a reader that is not
    connected leave it disconnected with [connection_errors] grown by [k],
    after exactly [k] attempts to open the bus with the same
    configuration. *)
Theorem connect_failures_accumulate k : forall s,
  Reader.is_connected (self s) = false ->
  refuses k s = true ->
  let s' := connect_times k s in
  Reader.is_connected (self s') = false
  /\ Stats.connection_errors (Reader.stats (self s'))
     = Stats.connection_errors (Reader.stats (self s)) + Z.of_nat k
  /\ trace s' = (trace s ++ repeat (BusOpen (bus_config (self s))) k)%list.
Proof.
  induction k as [ | k IH]; intros s Hd Hr; cbn [connect_times].
  - simpl. rewrite Z.add_0_r, app_nil_r. auto.
  - unfold refuses in Hr. apply andb_true_iff in Hr. destruct Hr as [Hl Hf].
    destruct (World.responses (world s)) as [ | [m | e] rest] eqn:R;
      simpl in Hl, Hf; try discriminate.
    destruct (connect_refused s Hd R)
      as (s1 & E & C1 & _ & N1 & _ & R1 & T1 & B1).
    rewrite E. cbn [snd].
    assert (Hr1 : refuses k s1 = true).
    { unfold refuses. rewrite R1. apply andb_true_iff. split; assumption. }
    destruct (IH s1 C1 Hr1) as (C2 & N2 & T2).
    split; [ exact C2 | ]. split.
    + rewrite N2, N1, Nat2Z.inj_succ. lia.
    + rewrite T2, T1, B1, <- app_assoc. reflexivity.
Qed.

Lemma connect_failures_accumulate_witness :
  Stats.connection_errors
    (Reader.stats
       (self (connect_times 2
                (CANBusReader Args.defaults
                   (world_of [Raises (Exception "No such device");
                              Raises (Exception "No such device")])))))
  = 2.
Proof.
  apply (connect_failures_accumulate 2
           (CANBusReader Args.defaults
              (world_of [Raises (Exception "No such device");
                         Raises (Exception "No such device")]))
           eq_refl eq_refl).
Defined.

(** X10.  When the bus opens but the transport refuses the rules,
    [connect] reports failure and records the error, and the reader keeps
    the bus it opened without shutting it down. *)
Theorem connect_refused_filters_keeps_bus s m e rest :
  Reader.is_connected (self s) = false ->
  Reader.filters (self s) <> [] ->
  World.responses (world s) = Returns m :: Raises e :: rest ->
  exists s',
    connect s = (Return false, s')
    /\ Reader.is_connected (self s') = false
    /\ Reader.bus (self s') = Some (bus_config (self s))
    /\ Stats.last_error (Reader.stats (self s')) = Some (str e)
    /\ trace s'
       = (trace s
          ++ [BusOpen (bus_config (self s));
              SetFilters (map CANFilter.to_dict (Reader.filters (self s)))])%list.
Proof.
  unfold connect, try_catch, connect_try, connect_except, bus_method.
  unfold bind, get_self, transport, update_stats, update, ret, trace.
  destruct s as [r [responses polls clock calls out sched]]. simpl.
  intros -> Hf ->. destruct (Reader.filters r) as [ | f fs]; [ congruence | ].
  simpl. rewrite log_text_run. eexists. split; [ reflexivity | ].
  rewrite self_logged, calls_logged. simpl. rewrite <- app_assoc.
  repeat split.
Qed.

Lemma connect_refused_filters_keeps_bus_witness :
  exists s',
    connect (mkState (self with_rule)
                     (world_of [Returns None; Raises (Exception "EINVAL")]))
    = (Return false, s')
    /\ Reader.bus (self s') = Some (bus_config (self with_rule)).
Proof.
  destruct (connect_refused_filters_keeps_bus
              (mkState (self with_rule)
                       (world_of [Returns None; Raises (Exception "EINVAL")]))
              (m := None) (e := Exception "EINVAL") (rest := [])
              eq_refl) as (s' & E & _ & B & _).
  - vm_compute. discriminate.
  - reflexivity.
  - exists s'. split; [ exact E | exact B ].
Defined.

(** ** More on sending *)

Lemma polls_logged data log_type s :
  World.polls (world (logged data log_type s)) = World.polls (world s).
Proof.
  unfold logged, log.
  destruct (SimpleLogger.log_level (Reader.logger (self s)) <=? log_type);
    reflexivity.
Qed.

(** What python-can makes of a frame. *)
Lemma Message_init_run m s :
  Message_init
    (CANMessage.can_id m) (CANMessage.data m)
    (CANMessageType_eqb (CANMessage.message_type m) EXTENDED)
    (CANMessageType_eqb (CANMessage.message_type m) REMOTE)
    (CANMessage.dlc m) (Some (CANMessage.channel m)) s
  = if sendable m then (Return (wire_message m), s) else (Raise not_a_byte, s).
Proof.
  unfold Message_init, sendable, wire_message.
  destruct (CANMessageType_eqb (CANMessage.message_type m) REMOTE); simpl;
    [ reflexivity | ].
  destruct (forallb is_byte (CANMessage.data m)); reflexivity.
Qed.

(** [send_message] on a connected reader, for a frame python-can refuses:
    the transport is not asked. *)
Lemma send_refused_frame_run m s :
  Reader.is_connected (self s) = true ->
  sendable m = false ->
  exists s',
    send_message m s = (Return false, s')
    /\ world s'
       = world (logged (LText ("Failed to send message " ++ CANMessage.name m
                                 ++ ": " ++ str not_a_byte)) 2 s)
    /\ Reader.is_connected (self s') = true
    /\ Reader.bus (self s') = Reader.bus (self s)
    /\ counters (self s') = counters (self s)
    /\ Stats.last_error (Reader.stats (self s')) = Some (str not_a_byte).
Proof.
  intros Hc Hs. unfold send_message. unfold bind at 1.
  rewrite ensure_connected_run, Hc. simpl.
  unfold send_try, try_catch. unfold bind at 1.
  rewrite Message_init_run, Hs.
  unfold send_except, bind, update_stats, update, ret. simpl.
  rewrite log_text_run. eexists. split; [ reflexivity | ].
  rewrite self_logged. simpl. unfold logged, log. simpl.
  destruct (SimpleLogger.log_level (Reader.logger (self s)) <=? 2);
    repeat split; auto.
Qed.

Lemma trace_world s s' : world s' = world s -> trace s' = trace s.
Proof. unfold trace. intros ->. reflexivity. Qed.

(** [send_message] on a connected reader that holds its bus, for a frame
    python-can accepts. *)
Lemma send_connected_run m s cfg :
  Reader.is_connected (self s) = true ->
  Reader.bus (self s) = Some cfg ->
  sendable m = true ->
  exists s',
    send_message m s
    = (Return (negb (match World.responses (world s) with
                     | r :: _ => is_raises r
                     | [] => false
                     end)), s')
    /\ trace s' = (trace s ++ [Send (wire_message m)])%list
    /\ World.responses (world s') = tl (World.responses (world s))
    /\ World.polls (world s') = World.polls (world s)
    /\ Reader.is_connected (self s') = true
    /\ Reader.bus (self s') = Some cfg
    /\ Reader.messages (self s') = Reader.messages (self s)
    /\ Reader.config (self s') = Reader.config (self s)
    /\ match World.responses (world s) with
       | Raises e :: _ =>
           counters (self s') = counters (self s)
           /\ Stats.last_error (Reader.stats (self s')) = Some (str e)
       | _ =>
           counters (self s')
           = (Stats.total_messages (Reader.stats (self s)) + 1,
              Stats.received_messages (Reader.stats (self s)),
              Stats.transmitted_messages (Reader.stats (self s)) + 1)
           /\ Stats.last_error (Reader.stats (self s'))
              = Stats.last_error (Reader.stats (self s))
       end.
Proof.
  intros Hc Hb Hs. unfold send_message. unfold bind at 1.
  rewrite ensure_connected_run, Hc. simpl.
  unfold send_try, try_catch. unfold bind at 1.
  rewrite Message_init_run, Hs.
  unfold send_except, bus_method.
  unfold bind, get_self, transport, update_stats, update, ret,
    raise, trace, counters.
  destruct s as [r [responses polls clock calls out sched]]. simpl in *.
  rewrite Hb. simpl.
  destruct responses as [ | [m1 | e1] rest]; simpl;
    rewrite log_text_run; simpl;
    eexists; (split; [ reflexivity | ]);
    rewrite self_logged, calls_logged, responses_logged, polls_logged;
    simpl; repeat split; auto.
Qed.

(** X11.  On a connected reader [send_message] asks the transport at most
    once, and never a second time.  A frame python-can accepts (a remote
    frame, or data made of bytes) is handed over as one message: when the
    transport takes it the result is [True] and the sent and total counters
    grow by one; when the transport raises the result is [False], the
    counters stay and [last_error] is the text of the error.  A frame with
    an entry that is not a byte is refused before the transport is asked:
    the result is [False], the counters stay and [last_error] is the text
    of the [ValueError].  In every case the reader is still flagged
    connected. *)
Theorem send_message_on_connected_reader m s cfg :
  Reader.is_connected (self s) = true ->
  Reader.bus (self s) = Some cfg ->
  let s' := snd (send_message m s) in
  Reader.is_connected (self s') = true
  /\ if sendable m
     then
       trace s' = (trace s ++ [Send (wire_message m)])%list
       /\ match World.responses (world s) with
          | Raises e :: _ =>
              fst (send_message m s) = Return false
              /\ counters (self s') = counters (self s)
              /\ Stats.last_error (Reader.stats (self s')) = Some (str e)
          | _ =>
              fst (send_message m s) = Return true
              /\ counters (self s')
                 = (Stats.total_messages (Reader.stats (self s)) + 1,
                    Stats.received_messages (Reader.stats (self s)),
                    Stats.transmitted_messages (Reader.stats (self s)) + 1)
          end
     else
       trace s' = trace s
       /\ World.responses (world s') = World.responses (world s)
       /\ fst (send_message m s) = Return false
       /\ counters (self s') = counters (self s)
       /\ Stats.last_error (Reader.stats (self s'))
          = Some "byte must be in range(0, 256)".
Proof.
  intros Hc Hb s'. subst s'.
  destruct (sendable m) eqn:Hs.
  - destruct (send_connected_run m s Hc Hb Hs)
      as (s' & -> & T & _ & _ & C & _ & _ & _ & L).
    simpl. split; [ exact C | ]. split; [ exact T | ].
    destruct (World.responses (world s)) as [ | [m1 | e1] rest];
      simpl; destruct L; auto.
  - destruct (send_refused_frame_run m s Hc Hs)
      as (s' & -> & W & C & _ & K & L).
    simpl. split; [ exact C | ].
    split; [ rewrite (trace_world _ _ W); apply trace_logged | ].
    split; [ rewrite W; apply responses_logged | auto ].
Qed.

Lemma send_message_on_connected_reader_witness :
  (fst (send_message rpm connected_then_failing) = Return false
   /\ counters (self (snd (send_message rpm connected_then_failing)))
      = counters (self connected_then_failing)
   /\ Stats.last_error
        (Reader.stats (self (snd (send_message rpm connected_then_failing))))
      = Some "Network is down")
  /\ (trace (snd (send_message not_bytes (snd (connect fresh))))
      = trace (snd (connect fresh))
      /\ fst (send_message not_bytes (snd (connect fresh))) = Return false).
Proof.
  split.
  - apply (proj2 (proj2 (send_message_on_connected_reader
                           rpm connected_then_failing eq_refl eq_refl))).
  - destruct (proj2 (send_message_on_connected_reader
                       not_bytes (snd (connect fresh)) eq_refl eq_refl))
      as (T & _ & F & _).
    split; [ exact T | exact F ].
Defined.

(** ** More on receiving *)

Lemma clock_logged data log_type s :
  World.clock (world (logged data log_type s)) = World.clock (world s).
Proof.
  unfold logged, log.
  destruct (SimpleLogger.log_level (Reader.logger (self s)) <=? log_type);
    reflexivity.
Qed.

(** One turn of the receive loop on a reader that holds its bus: one call
    to [recv], and what its answer makes of the frames so far. *)
Lemma poll_with_bus msgs s cfg :
  Reader.bus (self s) = Some cfg ->
  exists s',
    poll msgs s
    = (Return
         match World.responses (world s) with
         | Returns (Some m) :: _ => (true, (msgs ++ [frame_of (self s) m])%list)
         | Raises (Exception _) :: _ => (false, msgs)
         | _ => (true, msgs)
         end, s')
    /\ trace s' = (trace s ++ [Recv])%list
    /\ World.responses (world s') = tl (World.responses (world s))
    /\ Reader.bus (self s') = Some cfg
    /\ Reader.messages (self s') = Reader.messages (self s)
    /\ Reader.config (self s') = Reader.config (self s)
    /\ Reader.is_connected (self s') = Reader.is_connected (self s).
Proof.
  intros Hb. unfold poll, bus_method, frame_of.
  unfold try_catch, bind, get_self, transport, time_time, update_stats,
    update, ret, raise, trace.
  destruct s as [r [responses polls clock calls out sched]]. simpl in *.
  rewrite Hb. simpl.
  destruct responses as [ | [[message | ] | [t | e]] rest]; simpl;
    rewrite ?update_last_snoc; try rewrite log_text_run;
    try (destruct clock as [ | t0 clock]); simpl;
    eexists; (split; [ reflexivity | ]);
    rewrite ?self_logged, ?calls_logged, ?responses_logged; simpl;
    repeat split; auto.
Qed.

Lemma read_loop_delivered turns : forall msgs s cfg,
  Reader.bus (self s) = Some cfg ->
  exists s',
    read_loop turns msgs s
    = (Return (msgs ++ map (frame_of (self s))
                           (fst (delivered turns (World.responses (world s)))))%list,
       s')
    /\ trace s'
       = (trace s
          ++ repeat Recv (snd (delivered turns (World.responses (world s)))))%list
    /\ Reader.is_connected (self s') = Reader.is_connected (self s).
Proof.
  induction turns as [ | turns IH]; intros msgs s cfg Hb.
  - exists s. simpl. unfold ret. rewrite !app_nil_r. auto.
  - destruct (poll_with_bus msgs s Hb) as (s1 & E & T & R & B & Ms & Cf & Cn).
    cbn [read_loop]. unfold bind. rewrite E.
    assert (F : forall m, frame_of (self s1) m = frame_of (self s) m).
    { intros m. unfold frame_of. rewrite Ms, Cf. reflexivity. }
    destruct (World.responses (world s)) as [ | [[message | ] | [t | e]] rest];
      cbn [fst snd tl delivered] in *;
      try (match goal with
           | |- context [read_loop turns ?l s1] =>
               destruct (IH l s1 cfg B) as (s2 & E2 & T2 & C2)
           end;
           rewrite R in E2, T2; exists s2;
           rewrite E2, T2, T, (map_ext _ _ F), <- !app_assoc;
           repeat split; congruence).
    exists s1. unfold ret. rewrite app_nil_r, T. auto.
Qed.

(** X13.  On a connected reader [read_messages] returns, in the order of
    their arrival and each exactly once, the frames the transport delivers
    during the turns the deadline leaves, up to the first error that is not
    a timeout; it calls [recv] once per turn and nothing else. *)
Theorem read_messages_in_order timeout s cfg turns polls :
  Reader.is_connected (self s) = true ->
  Reader.bus (self s) = Some cfg ->
  World.polls (world s) = turns :: polls ->
  let got := delivered turns (World.responses (world s)) in
  fst (read_messages timeout s) = Return (map (frame_of (self s)) (fst got))
  /\ trace (snd (read_messages timeout s))
     = (trace s ++ repeat Recv (snd got))%list
  /\ (snd got <= turns)%nat.
Proof.
  intros Hc Hb Hp got. subst got.
  split; [ | split ].
  - unfold read_messages. unfold bind at 1.
    rewrite ensure_connected_run, Hc. simpl.
    unfold read_connected, read_try, bind, get_self, try_catch,
      deadline_polls. rewrite Hp.
    match goal with
    | |- context [read_loop ?n ?l ?s0] =>
        destruct (read_loop_delivered n l s0 (cfg := cfg) Hb) as (s' & E & _)
    end.
    rewrite E. reflexivity.
  - unfold read_messages. unfold bind at 1.
    rewrite ensure_connected_run, Hc. simpl.
    unfold read_connected, read_try, bind, get_self, try_catch,
      deadline_polls. rewrite Hp.
    match goal with
    | |- context [read_loop ?n ?l ?s0] =>
        destruct (read_loop_delivered n l s0 (cfg := cfg) Hb) as (s' & E & T & _)
    end.
    rewrite E. simpl. exact T.
  - generalize (World.responses (world s)). clear.
    induction turns as [ | turns IH]; intros rs; simpl; [ lia | ].
    destruct rs as [ | [[m | ] | [t | e]] rest]; simpl;
      try (specialize (IH rest)); try (specialize (IH [])); lia.
Qed.

Lemma read_messages_in_order_witness :
  fst (read_messages None rpm_connected)
  = Return [frame_of (self rpm_connected) rpm_frame]
  /\ trace (snd (read_messages None rpm_connected))
     = (trace rpm_connected ++ [Recv; Recv; Recv])%list.
Proof.
  destruct (read_messages_in_order None rpm_connected
              (cfg := bus_config (self rpm_reader))
              (turns := 3%nat) (polls := []) eq_refl eq_refl eq_refl)
    as (F & T & _).
  split; [ exact F | exact T ].
Defined.

(** X14.  [read_messages] on a reader that is not connected and cannot
    connect returns the empty list in the state the failed [connect] left:
    no [recv] is attempted and no counter of messages moves. *)
Theorem read_messages_without_connection timeout s s1 :
  Reader.is_connected (self s) = false ->
  connect s = (Return false, s1) ->
  read_messages timeout s = (Return [], s1)
  /\ counters (self s1) = counters (self s)
  /\ exists extra,
       trace s1 = (trace s ++ extra)%list /\ ~ In Recv extra.
Proof.
  intros Hd E. split; [ | split ].
  - unfold read_messages. unfold bind at 1.
    rewrite ensure_connected_run, Hd, E. reflexivity.
  - pose proof (connect_keeps_counters s) as K. rewrite E in K. exact K.
  - pose proof (connect_trace s Hd) as T. rewrite E in T. simpl in T.
    eexists. split; [ exact T | ].
    destruct (next_call_returns s);
      [ destruct (Reader.filters (self s)) | ]; simpl;
      intuition discriminate.
Qed.

Lemma read_messages_without_connection_witness :
  read_messages None refused = (Return [], snd (connect refused)).
Proof.
  apply (read_messages_without_connection None refused
           (s1 := snd (connect refused)) eq_refl).
  vm_compute. reflexivity.
Defined.

(** ** Reading data *)

Lemma data_of_lookup ms : forall d k,
  dict_get k (data_of ms d)
  = match last_named k ms with
    | Some m => Some (point_of m)
    | None => dict_get k d
    end.
Proof.
  unfold last_named.
  induction ms as [ | m ms IH]; intros d k; simpl; [ reflexivity | ].
  rewrite IH, find_app. simpl.
  destruct (find _ (rev ms)); [ reflexivity | ].
  rewrite dict_get_set, (String.eqb_sym k).
  destruct (String.eqb (CANMessage.name m) k); reflexivity.
Qed.

(** X15.  [read_data] never raises; it returns one entry per name among
    the frames [read_messages] returns, built from the last frame of that
    name (earlier frames of the same name are overwritten), with quality
    ["good"], and no entry for any other name. *)
Theorem read_data_last_frame_wins s :
  exists frames d s',
    read_messages None s = (Return frames, s')
    /\ read_data s = (Return d, s')
    /\ forall k,
         dict_get k d = option_map point_of (last_named k frames).
Proof.
  destruct (read_messages_run None s) as (frames & s' & E & _).
  exists frames, (data_of frames []), s'.
  split; [ exact E | ]. split.
  - unfold read_data, bind. rewrite E. reflexivity.
  - intros k. rewrite data_of_lookup.
    destruct (last_named k frames); reflexivity.
Qed.



(** ** Invariants of a reader's life *)

Lemma read_loop_keeps_health turns : forall msgs,
  keeps Reader.health_status (read_loop turns msgs).
Proof.
  induction turns as [ | turns IH]; intros msgs; simpl.
  - apply keeps_ret.
  - apply keeps_bind; [ unfold poll; keeps_tac | intros [go l] ].
    destruct go; simpl; [ apply IH | apply keeps_ret ].
Qed.

Lemma connect_keeps_health : keeps Reader.health_status connect.
Proof. unfold connect, connect_try, connect_except. keeps_tac. Qed.

Lemma read_messages_keeps_health timeout :
  keeps Reader.health_status (read_messages timeout).
Proof.
  unfold read_messages, ensure_connected, read_connected, read_try,
    read_except.
  pose proof connect_keeps_health. pose proof read_loop_keeps_health.
  keeps_tac.
Qed.

Lemma disconnect_keeps_health : keeps Reader.health_status disconnect.
Proof. unfold disconnect, disconnect_try, stop_monitoring. keeps_tac. Qed.

(** [check_health] leaves the status as it was or sets it to healthy. *)
Lemma check_health_status s :
  Reader.health_status (self (snd (check_health s)))
  = Reader.health_status (self s)
  \/ Reader.health_status (self (snd (check_health s))) = "healthy".
Proof.
  unfold check_health, try_catch, check_health_try, bind, get_self.
  destruct (Reader.is_connected (self s)); simpl; [ | left; reflexivity ].
  destruct (read_messages_run (Some (1 # 10)%Q) s) as (fs & s1 & -> & _).
  unfold update, time_time, ret. simpl.
  destruct (World.clock (world s1)); simpl; right; reflexivity.
Qed.

Lemma keeps_health_never_unhealthy {A} (m : M A) :
  keeps Reader.health_status m -> maintains never_unhealthy m.
Proof. intros K s. unfold never_unhealthy. rewrite (K s). auto. Qed.

Lemma check_health_never_unhealthy : maintains never_unhealthy check_health.
Proof.
  intros s H. unfold never_unhealthy in *.
  destruct (check_health_status s) as [E | E]; rewrite E; auto.
Qed.

Lemma monitor_body_keeps_health : keeps Reader.health_status monitor_body.
Proof.
  unfold monitor_body. pose proof read_messages_keeps_health. keeps_tac.
Qed.

(** The threads never set the status to unhealthy either. *)
Lemma target_never_unhealthy t turns :
  maintains never_unhealthy (target t turns).
Proof.
  apply maintains_target.
  - apply keeps_health_never_unhealthy, monitor_body_keeps_health.
  - unfold health_monitor_body. apply maintains_try_catch.
    + apply maintains_bind; [ apply check_health_never_unhealthy | intros ? ].
      apply maintains_ret.
    + intros e. apply keeps_health_never_unhealthy, keeps_log_text.
Qed.

Lemma start_monitoring_keeps_health c :
  keeps Reader.health_status (start_monitoring c).
Proof.
  unfold start_monitoring, thread_start. pose proof monitor_body_keeps_health.
  pose proof (fun n => @keeps_loop _ Reader.health_status n
                         Reader.monitor_running monitor_body
                         monitor_body_keeps_health).
  cbn [target]. keeps_tac.
Qed.

Lemma exec_never_unhealthy o s : never_unhealthy s -> never_unhealthy (exec o s).
Proof.
  destruct o; cbn [exec];
    match goal with
    | |- _ -> never_unhealthy (snd (?m _)) =>
        revert s; change (maintains never_unhealthy m)
    end;
    lazymatch goal with
    | |- maintains _ check_health => apply check_health_never_unhealthy
    | |- maintains _ (target _ _) => apply target_never_unhealthy
    | |- _ => apply keeps_health_never_unhealthy
    end.
  - unfold add_message. keeps_tac.
  - apply add_messages_keeps. reflexivity.
  - unfold add_filter. keeps_tac.
  - unfold remove_filter. keeps_tac.
  - unfold clear_filters. keeps_tac.
  - apply connect_keeps_health.
  - apply disconnect_keeps_health.
  - unfold send_message, ensure_connected, send_try, send_except,
      Message_init.
    pose proof connect_keeps_health. keeps_tac.
  - apply read_messages_keeps_health.
  - apply start_monitoring_keeps_health.
  - unfold stop_monitoring. keeps_tac.
  - unfold read_data. pose proof read_messages_keeps_health. keeps_tac.
  - unfold save_data. keeps_tac.
  - unfold get_status. keeps_tac.
  - unfold close. pose proof disconnect_keeps_health.
    unfold stop_monitoring. keeps_tac.
Qed.

(** X17.  From its construction on and whatever is done with it, a reader
    never shows the health status ["unhealthy"]: the status is ["unknown"]
    until a health check finds the reader connected, and ["healthy"] from
    then on. *)
Theorem health_status_is_never_unhealthy a w ops :
  let s := run ops (CANBusReader a w) in
  (Reader.health_status (self s) = "unknown"
   \/ Reader.health_status (self s) = "healthy")
  /\ Reader.health_status (self s) <> "unhealthy".
Proof.
  assert (G : forall ops s, never_unhealthy s -> never_unhealthy (run ops s)).
  { clear. induction ops as [ | o ops IH]; intros s H; simpl; [ exact H | ].
    apply IH, exec_never_unhealthy, H. }
  intros s.
  assert (N : never_unhealthy s).
  { apply G. unfold never_unhealthy. rewrite self_CANBusReader.
    left. reflexivity. }
  split; [ exact N | ].
  destruct N as [E | E]; rewrite E; discriminate.
Qed.
















(** ** The logger's level *)

Lemma level_ret {A} (a : A) : maintains log_respects_level (ret a).
Proof. intros s H. exact H. Qed.

Lemma level_raise {A} e : maintains log_respects_level (@raise A e).
Proof. intros s H. exact H. Qed.

Lemma level_get_self : maintains log_respects_level get_self.
Proof. intros s H. exact H. Qed.

Lemma level_update f :
  (forall r, Reader.logger (f r) = Reader.logger r) ->
  maintains log_respects_level (update f).
Proof.
  intros L s H. unfold log_respects_level in *. simpl. rewrite L. exact H.
Qed.

Lemma level_transport c : maintains log_respects_level (transport c).
Proof.
  intros s H. unfold transport.
  destruct (World.responses _) as [ | [m | e] rest]; exact H.
Qed.

Lemma level_time_time : maintains log_respects_level time_time.
Proof.
  intros s H. unfold time_time.
  destruct (World.clock (world s)); exact H.
Qed.

Lemma level_deadline_polls t : maintains log_respects_level (deadline_polls t).
Proof.
  intros s H. unfold deadline_polls.
  destruct (World.polls (world s)); exact H.
Qed.

(** The logger prints a line only at its level or above. *)
Lemma level_log data log_type : maintains log_respects_level (log data log_type).
Proof.
  intros s H. unfold log_respects_level, log in *.
  destruct (SimpleLogger.log_level (Reader.logger (self s)) <=? log_type) eqn:E;
    simpl; [ | exact H ].
  apply Forall_app. split; [ exact H | ].
  constructor; [ | constructor ]. simpl. apply Z.leb_le. exact E.
Qed.

Lemma level_log_text text log_type :
  maintains log_respects_level (log_text text log_type).
Proof. apply level_log. Qed.

Ltac level_step :=
  match goal with
  | |- maintains _ (bind _ _) => apply maintains_bind; [ | intros ? ]
  | |- maintains _ (try_catch _ _) => apply maintains_try_catch; [ | intros ? ]
  | |- maintains _ (update_stats _) => unfold update_stats
  | |- maintains _ (update _) => apply level_update; intros ?; reflexivity
  | |- maintains _ (if ?b then _ else _) => destruct b
  | |- maintains _ (match ?x with _ => _ end) => destruct x
  | |- maintains _ _ =>
      solve [ auto using level_ret, level_raise, level_get_self,
                level_transport, level_time_time, level_deadline_polls,
                level_log, level_log_text ]
  end.

Ltac level_tac := repeat level_step.

Lemma read_loop_level turns : forall msgs,
  maintains log_respects_level (read_loop turns msgs).
Proof.
  induction turns as [ | turns IH]; intros msgs; simpl.
  - apply level_ret.
  - apply maintains_bind;
      [ unfold poll, bus_method; level_tac | intros [go l] ].
    destruct go; simpl; [ apply IH | apply level_ret ].
Qed.

Lemma add_messages_level ms : maintains log_respects_level (add_messages ms).
Proof.
  induction ms as [ | m ms IH]; simpl.
  - apply level_ret.
  - unfold add_message. level_tac.
Qed.

Lemma level_scheduled : maintains log_respects_level scheduled.
Proof.
  intros s H. unfold scheduled. destruct (World.sched (world s)); exact H.
Qed.

Lemma monitor_each_level messages :
  maintains log_respects_level (monitor_each messages).
Proof.
  induction messages as [ | message rest IH]; simpl.
  - apply level_ret.
  - level_tac.
Qed.

Ltac unfold_methods :=
  unfold add_message, add_filter, remove_filter, clear_filters,
    send_message, read_data, read_messages, close, disconnect,
    disconnect_try, check_health, check_health_try, check_health_except,
    read_messages, ensure_connected, connect, connect_try, connect_except,
    read_connected, read_try, read_except, send_try, send_except,
    Message_init, start_monitoring, save_data, get_status, stop_monitoring,
    bus_method.

Lemma monitor_body_level : maintains log_respects_level monitor_body.
Proof.
  pose proof read_loop_level. pose proof monitor_each_level.
  unfold monitor_body. unfold_methods. level_tac.
Qed.

Lemma health_monitor_body_level :
  maintains log_respects_level health_monitor_body.
Proof.
  pose proof read_loop_level.
  unfold health_monitor_body. unfold_methods. level_tac.
Qed.

Lemma target_level t turns : maintains log_respects_level (target t turns).
Proof.
  apply maintains_target;
    [ apply monitor_body_level | apply health_monitor_body_level ].
Qed.

Lemma thread_start_level t : maintains log_respects_level (thread_start t).
Proof.
  apply maintains_thread_start;
    [ intros s v H; exact H | apply monitor_body_level
    | apply health_monitor_body_level ].
Qed.

Lemma exec_level o s : log_respects_level s -> log_respects_level (exec o s).
Proof.
  pose proof read_loop_level. pose proof add_messages_level.
  pose proof thread_start_level. pose proof target_level.
  destruct o; cbn [exec];
    match goal with
    | |- _ -> log_respects_level (snd (?m _)) =>
        revert s; change (maintains log_respects_level m)
    end;
    unfold_methods; level_tac.
Qed.

Lemma read_loop_keeps_logger turns : forall msgs,
  keeps Reader.logger (read_loop turns msgs).
Proof.
  induction turns as [ | turns IH]; intros msgs; simpl.
  - apply keeps_ret.
  - apply keeps_bind; [ unfold poll; keeps_tac | intros [go l] ].
    destruct go; simpl; [ apply IH | apply keeps_ret ].
Qed.

Lemma monitor_body_keeps_logger : keeps Reader.logger monitor_body.
Proof.
  pose proof read_loop_keeps_logger.
  unfold monitor_body. unfold_methods. keeps_tac.
Qed.

Lemma health_monitor_body_keeps_logger :
  keeps Reader.logger health_monitor_body.
Proof.
  pose proof read_loop_keeps_logger.
  unfold health_monitor_body. unfold_methods. keeps_tac.
Qed.

(** Nothing replaces the logger of a reader. *)
Lemma exec_keeps_logger o s :
  Reader.logger (self (exec o s)) = Reader.logger (self s).
Proof.
  pose proof read_loop_keeps_logger as KL.
  pose proof (fun ms => @add_messages_keeps _ Reader.logger ms
                          (fun _ _ => eq_refl)) as KA.
  pose proof (fun t => @keeps_thread_start _ Reader.logger t
                         monitor_body_keeps_logger
                         health_monitor_body_keeps_logger) as KS.
  pose proof (fun t n => @keeps_target _ Reader.logger t n
                           monitor_body_keeps_logger
                           health_monitor_body_keeps_logger) as KT.
  destruct o; cbn [exec];
    match goal with
    | |- context [snd (?m s)] =>
        assert (K : keeps Reader.logger m); [ | exact (K s) ]
    end;
    unfold_methods; keeps_tac.
Qed.

(** X19.  The logger's level is respected all through a reader's life:
    whatever is done with the reader, every line printed since its
    construction has a type at or above the level of its logger (a logger
    of level 2 prints errors only). *)
Theorem printed_lines_respect_log_level a w ops :
  let s := run ops (CANBusReader a (World.set_out [] w)) in
  Forall (fun line =>
            SimpleLogger.log_level
              (or_default (Args.logger a) (SimpleLogger.Build 0))
            <= fst line)
         (World.out (world s)).
Proof.
  assert (G : forall ops s,
            log_respects_level s
            -> log_respects_level (run ops s)
               /\ Reader.logger (self (run ops s)) = Reader.logger (self s)).
  { clear. induction ops as [ | o ops IH]; intros s H; simpl; [ auto | ].
    destruct (IH (exec o s) (exec_level o H)) as [I L].
    split; [ exact I | ]. rewrite L. apply exec_keeps_logger. }
  intros s. subst s.
  destruct (G ops (CANBusReader a (World.set_out [] w))) as [I L].
  { unfold log_respects_level. rewrite out_CANBusReader. constructor. }
  unfold log_respects_level in I. rewrite L, self_CANBusReader in I. exact I.
Qed.

(** ** Closing *)

(** What [close] does, call by call. *)
Lemma close_run s :
  exists s',
    close s = (Return tt, s')
    /\ Reader.health_monitor_running (self s') = false
    /\ Reader.monitor_running (self s') = false
    /\ Reader.monitor_thread (self s') = None
    /\ Reader.health_status (self s') = Reader.health_status (self s)
    /\ trace s'
       = (trace s
          ++ (if is_some (Reader.notifier (self s)) then [NotifierStop] else [])
          ++ (if is_some (Reader.bus (self s))
                 && (negb (is_some (Reader.notifier (self s)))
                     || next_call_returns s)
              then [Shutdown] else []))%list
    /\ (next_two_calls_return s = true ->
        Reader.is_connected (self s') = false
        /\ Reader.bus (self s') = None
        /\ Reader.notifier (self s') = None).
Proof.
  unfold next_call_returns, next_two_calls_return, close, disconnect,
    disconnect_try, stop_monitoring, trace.
  unfold try_catch, bind, get_self, transport, update, ret.
  destruct s as [r [responses polls clock calls out sched]]. simpl.
  destruct (Reader.monitor_thread r) eqn:Et; simpl;
    repeat (progress (rewrite ?log_text_run, ?self_logged, ?responses_logged,
                        ?calls_logged, ?Et; simpl));
    destruct (Reader.notifier r) eqn:En; simpl;
    destruct (Reader.bus r) eqn:Eb; simpl;
    repeat (progress (rewrite ?log_text_run, ?self_logged, ?responses_logged,
                        ?calls_logged, ?Et; simpl));
    destruct responses as [ | [m1 | e1] [ | [m2 | e2] rest]]; simpl;
    repeat (progress (rewrite ?log_text_run, ?self_logged, ?responses_logged,
                        ?calls_logged, ?Et; simpl));
    eexists; (split; [ reflexivity | ]);
    repeat (progress (rewrite ?self_logged, ?calls_logged; simpl));
    rewrite <- ?app_assoc, ?app_nil_r;
    repeat split; auto; discriminate.
Qed.

(** X20.  [close] never raises; it leaves both loops flagged stopped and
    the monitor thread forgotten, and asks of the transport what
    [disconnect] asks: the notifier is stopped, then the bus shut down.
    When these calls return, the reader ends disconnected and holds
    neither bus nor notifier.  The health status is left as it was. *)
Theorem close_stops_everything s :
  exists s',
    close s = (Return tt, s')
    /\ Reader.health_monitor_running (self s') = false
    /\ Reader.monitor_running (self s') = false
    /\ Reader.monitor_thread (self s') = None
    /\ Reader.health_status (self s') = Reader.health_status (self s)
    /\ trace s'
       = (trace s
          ++ (if is_some (Reader.notifier (self s)) then [NotifierStop] else [])
          ++ (if is_some (Reader.bus (self s))
                 && (negb (is_some (Reader.notifier (self s)))
                     || next_call_returns s)
              then [Shutdown] else []))%list
    /\ (next_two_calls_return s = true ->
        Reader.is_connected (self s') = false
        /\ Reader.bus (self s') = None
        /\ Reader.notifier (self s') = None).
Proof. exact (close_run s). Qed.

Lemma close_stops_everything_witness :
  exists s',
    close (snd (connect fresh)) = (Return tt, s')
    /\ Reader.is_connected (self s') = false
    /\ Reader.bus (self s') = None.
Proof.
  destruct (close_stops_everything (snd (connect fresh)))
    as (s' & E & _ & _ & _ & _ & _ & R).
  exists s'. split; [ exact E | ].
  destruct (R eq_refl) as (C & B & _). split; [ exact C | exact B ].
Defined.

(** ** The module-level functions *)


Lemma connect_keeps_notifier : keeps Reader.notifier connect.
Proof. unfold connect, connect_try, connect_except. keeps_tac. Qed.

Lemma send_message_keeps_notifier m : keeps Reader.notifier (send_message m).
Proof.
  pose proof connect_keeps_notifier.
  unfold send_message, ensure_connected, send_try, send_except,
    Message_init.
  keeps_tac.
Qed.

(** [connect] on a reader without rules whose bus can be opened. *)
Lemma connect_opened s :
  Reader.is_connected (self s) = false ->
  Reader.filters (self s) = [] ->
  next_call_returns s = true ->
  exists s1,
    connect s = (Return true, s1)
    /\ Reader.is_connected (self s1) = true
    /\ Reader.bus (self s1) = Some (bus_config (self s))
    /\ Reader.notifier (self s1) = Reader.notifier (self s)
    /\ World.responses (world s1) = tl (World.responses (world s))
    /\ trace s1 = (trace s ++ [BusOpen (bus_config (self s))])%list.
Proof.
  unfold next_call_returns, connect, try_catch, connect_try, connect_except.
  unfold bind, get_self, transport, update_stats, update, ret, trace.
  destruct s as [r [responses polls clock calls out sched]]. simpl.
  intros -> -> H.
  destruct responses as [ | [m | e] rest]; try discriminate; simpl;
    rewrite log_text_run; eexists; (split; [ reflexivity | ]);
    rewrite self_logged, responses_logged, calls_logged; simpl;
    repeat split.
Qed.

(** [send_message] goes on after a successful implicit [connect] as it
    does on the connected reader. *)
Lemma send_message_after_connect m s s1 :
  Reader.is_connected (self s) = false ->
  connect s = (Return true, s1) ->
  Reader.is_connected (self s1) = true ->
  send_message m s = send_message m s1.
Proof.
  intros Hd E Hc. unfold send_message, bind.
  rewrite !ensure_connected_run, Hd, Hc, E. reflexivity.
Qed.

Lemma send_message_refused m s s1 :
  Reader.is_connected (self s) = false ->
  connect s = (Return false, s1) ->
  send_message m s = (Return false, s1).
Proof.
  intros Hd E. unfold send_message, bind.
  rewrite ensure_connected_run, Hd, E. reflexivity.
Qed.

Lemma raises_at_next k w r :
  raises_at (S k) w
  = raises_at k (World.set_responses (tl (World.responses w)) w)
  /\ (World.responses w = r :: tl (World.responses w) ->
      raises_at 0 w = is_raises r).
Proof.
  unfold raises_at. destruct w as [responses polls clock calls out sched]. simpl.
  split.
  - destruct responses; simpl; [ destruct k; reflexivity | reflexivity ].
  - intros ->. reflexivity.
Qed.

(** X21.  [send_can_message] with a transport that lets the bus be opened:
    the bus is opened once with the configuration of the interface and
    channel given and shut down at the end, whatever happened in between.
    When the data are bytes the one message is handed over as a standard
    frame of length code eight on channel ["can0"], and the result tells
    whether the transport took it; when they are not, nothing is sent and
    the result is [False]. *)
Theorem send_can_message_opens_sends_closes
  interface channel can_id data kwargs w :
  raises_at 0 w = false ->
  let result := send_can_message interface channel can_id data kwargs w in
  let open :=
    BusOpen (bus_config (attributes (reader_args interface channel kwargs))) in
  if forallb is_byte data
  then fst result = Return (negb (raises_at 1 w))
       /\ trace (snd result)
          = (World.calls w
             ++ [open;
                 Send (Message.Build can_id data false false 8 0%Q
                                     (Some "can0"));
                 Shutdown])%list
  else fst result = Return false
       /\ trace (snd result) = (World.calls w ++ [open; Shutdown])%list.
Proof.
  intros H result open. subst result open.
  unfold send_can_message, with_reader, __enter__, __exit__, bind, ret.
  rewrite CANBusReader_run.
  match goal with
  | |- context [connect ?s] => set (s0 := s)
  end.
  assert (R0 : World.responses (world s0) = World.responses w) by reflexivity.
  assert (T0 : trace s0 = World.calls w) by reflexivity.
  destruct (@connect_opened s0 eq_refl eq_refl)
    as (s1 & E1 & C1 & B1 & N1 & R1 & T1).
  { unfold next_call_returns. rewrite R0. unfold raises_at in H.
    destruct (World.responses w) as [ | [m | e] rest];
      [ reflexivity | reflexivity | discriminate ]. }
  rewrite E1. cbv beta iota.
  pose proof (send_message_keeps_notifier (message_to_send can_id data) s1)
    as N2.
  destruct (forallb is_byte data) eqn:Hs.
  - destruct (send_connected_run (message_to_send can_id data) s1 C1 B1 Hs)
      as (s2 & E2 & T2 & _ & _ & _ & B2 & _).
    rewrite E2 in *. cbv beta iota. cbn [snd] in N2.
    destruct (close_run s2) as (s3 & E3 & _ & _ & _ & _ & T3 & _).
    rewrite E3. cbn [fst snd].
    split.
    + rewrite R1, R0. unfold raises_at.
      destruct (World.responses w) as [ | r0 [ | r1 rest]]; reflexivity.
    + rewrite T3, N2, N1, B2, T2, T1, T0.
      cbn [self]. rewrite <- !app_assoc. reflexivity.
  - destruct (send_refused_frame_run (message_to_send can_id data) s1 C1 Hs)
      as (s2 & E2 & W2 & _ & B2 & _).
    rewrite E2 in *. cbv beta iota. cbn [snd] in N2.
    destruct (close_run s2) as (s3 & E3 & _ & _ & _ & _ & T3 & _).
    rewrite E3. cbn [fst snd].
    split; [ reflexivity | ].
    rewrite T3, N2, N1, B2, B1, (trace_world _ _ W2), trace_logged, T1, T0.
    cbn [self]. rewrite <- !app_assoc. reflexivity.
Qed.

Lemma send_can_message_opens_sends_closes_witness :
  fst (send_can_message "socketcan" "vcan0" 0x123 [1; 2; 3] Args.defaults
                        quiet_world)
  = Return true
  /\ (fst (send_can_message "socketcan" "vcan0" 0x123 [1; 256] Args.defaults
                            quiet_world)
      = Return false
      /\ sends (trace (snd (send_can_message "socketcan" "vcan0" 0x123
                              [1; 256] Args.defaults quiet_world)))
         = []).
Proof.
  split.
  - apply (send_can_message_opens_sends_closes
             "socketcan" "vcan0" 0x123 [1; 2; 3] Args.defaults quiet_world
             eq_refl).
  - destruct (send_can_message_opens_sends_closes
                "socketcan" "vcan0" 0x123 [1; 256] Args.defaults quiet_world
                eq_refl) as (F & T).
    split; [ exact F | ]. rewrite T. reflexivity.
Defined.

(** X22.  [send_can_message] with a transport that refuses to open the bus:
    the failed [connect] of the context manager is followed by the
    implicit [connect] of [send_message], so the bus is opened a second
    time.  When that fails too the result is [False] and nothing else is
    asked of the transport; when it succeeds the message is sent, if its
    data are bytes, and the bus shut down as usual. *)
Theorem send_can_message_connects_twice
  interface channel can_id data kwargs w :
  raises_at 0 w = true ->
  let result := send_can_message interface channel can_id data kwargs w in
  let open :=
    BusOpen (bus_config (attributes (reader_args interface channel kwargs))) in
  if raises_at 1 w
  then fst result = Return false
       /\ trace (snd result) = (World.calls w ++ [open; open])%list
  else if forallb is_byte data
  then fst result = Return (negb (raises_at 2 w))
       /\ trace (snd result)
          = (World.calls w
             ++ [open; open;
                 Send (Message.Build can_id data false false 8 0%Q
                                     (Some "can0"));
                 Shutdown])%list
  else fst result = Return false
       /\ trace (snd result) = (World.calls w ++ [open; open; Shutdown])%list.
Proof.
  intros H result open. subst result open.
  unfold send_can_message, with_reader, __enter__, __exit__, bind, ret.
  rewrite CANBusReader_run.
  match goal with
  | |- context [connect ?s] => set (s0 := s)
  end.
  assert (T0 : trace s0 = World.calls w) by reflexivity.
  unfold raises_at in *.
  destruct (World.responses w) as [ | [m | e] rest] eqn:Rw;
    try discriminate. clear H.
  assert (R0 : World.responses (world s0) = Raises e :: rest) by exact Rw.
  destruct (@connect_refused s0 e rest eq_refl R0)
    as (s1 & E1 & C1 & B1 & _ & _ & R1 & T1 & G1).
  rewrite E1. cbv beta iota.
  pose proof (connect_keeps_filters s0) as F1.
  pose proof (connect_keeps_notifier s0) as N1.
  rewrite E1 in F1, N1. cbn [snd] in F1, N1.
  assert (Second :
    is_raises (nth 0 rest (Returns None)) = false ->
    if forallb is_byte data
    then
      fst (let (o, s2) := send_message (message_to_send can_id data) s1 in
           match o with
           | Return a =>
               let (o0, s3) := close s2 in
               match o0 with
               | Return _ => (Return a, s3)
               | Raise e0 => (Raise e0, s3)
               end
           | Raise e0 =>
               let (o0, s3) := close s2 in
               match o0 with
               | Return _ => (Raise e0, s3)
               | Raise e' => (Raise e', s3)
               end
           end)
      = Return (negb (is_raises (nth 1 rest (Returns None))))
      /\ trace
           (snd (let (o, s2) := send_message (message_to_send can_id data) s1 in
                 match o with
                 | Return a =>
                     let (o0, s3) := close s2 in
                     match o0 with
                     | Return _ => (Return a, s3)
                     | Raise e0 => (Raise e0, s3)
                     end
                 | Raise e0 =>
                     let (o0, s3) := close s2 in
                     match o0 with
                     | Return _ => (Raise e0, s3)
                     | Raise e' => (Raise e', s3)
                     end
                 end))
         = (World.calls w
            ++ [BusOpen (bus_config (self s0)); BusOpen (bus_config (self s0));
                Send (Message.Build can_id data false false 8 0%Q (Some "can0"));
                Shutdown])%list
    else
      fst (let (o, s2) := send_message (message_to_send can_id data) s1 in
           match o with
           | Return a =>
               let (o0, s3) := close s2 in
               match o0 with
               | Return _ => (Return a, s3)
               | Raise e0 => (Raise e0, s3)
               end
           | Raise e0 =>
               let (o0, s3) := close s2 in
               match o0 with
               | Return _ => (Raise e0, s3)
               | Raise e' => (Raise e', s3)
               end
           end)
      = Return false
      /\ trace
           (snd (let (o, s2) := send_message (message_to_send can_id data) s1 in
                 match o with
                 | Return a =>
                     let (o0, s3) := close s2 in
                     match o0 with
                     | Return _ => (Return a, s3)
                     | Raise e0 => (Raise e0, s3)
                     end
                 | Raise e0 =>
                     let (o0, s3) := close s2 in
                     match o0 with
                     | Return _ => (Raise e0, s3)
                     | Raise e' => (Raise e', s3)
                     end
                 end))
         = (World.calls w
            ++ [BusOpen (bus_config (self s0)); BusOpen (bus_config (self s0));
                Shutdown])%list).
  { intros Hr.
    destruct (@connect_opened s1 C1 F1) as (s2 & E2 & C2 & B2 & N2 & R2 & T2).
    { unfold next_call_returns. rewrite R1.
      destruct rest as [ | [m2 | e2] rest2];
        [ reflexivity | reflexivity | discriminate ]. }
    rewrite (@send_message_after_connect (message_to_send can_id data)
               s1 s2 C1 E2 C2).
    pose proof (send_message_keeps_notifier (message_to_send can_id data) s2)
      as N3.
    destruct (forallb is_byte data) eqn:Hs.
    - destruct (send_connected_run (message_to_send can_id data) s2 C2 B2 Hs)
        as (s3 & E3 & T3 & _ & _ & _ & B3 & _).
      rewrite E3 in *. cbv beta iota. cbn [snd] in N3.
      destruct (close_run s3) as (s4 & E4 & _ & _ & _ & _ & T4 & _).
      rewrite E4. cbn [fst snd].
      split.
      + rewrite R2, R1. destruct rest as [ | r1 [ | r2 rest2]]; reflexivity.
      + rewrite T4, N3, N2, N1, B3, T3, T2, T1, G1, T0.
        cbn [self]. rewrite <- !app_assoc. reflexivity.
    - destruct (send_refused_frame_run (message_to_send can_id data) s2 C2 Hs)
        as (s3 & E3 & W3 & _ & B3 & _).
      rewrite E3 in *. cbv beta iota. cbn [snd] in N3.
      destruct (close_run s3) as (s4 & E4 & _ & _ & _ & _ & T4 & _).
      rewrite E4. cbn [fst snd].
      split; [ reflexivity | ].
      rewrite T4, N3, N2, N1, B3, B2, (trace_world _ _ W3), trace_logged,
        T2, T1, G1, T0.
      cbn [self]. rewrite <- !app_assoc. reflexivity. }
  destruct (is_raises (nth 1 (Raises e :: rest) (Returns None))) eqn:H1;
    cbn [nth] in H1.
  - destruct rest as [ | [m2 | e2] rest2]; try discriminate.
    destruct (@connect_refused s1 e2 rest2 C1 R1)
      as (s2 & E2 & C2 & B2 & _ & _ & R2 & T2 & G2).
    rewrite (@send_message_refused (message_to_send can_id data) s1 s2 C1 E2).
    cbv beta iota.
    destruct (close_run s2) as (s3 & E3 & _ & _ & _ & _ & T3 & _).
    rewrite E3. cbn [fst snd].
    pose proof (connect_keeps_notifier s1) as N2.
    rewrite E2 in N2. cbn [snd] in N2.
    split; [ reflexivity | ].
    rewrite T3, N2, N1, B2, B1, T2, T1, G1, T0.
    cbn [self]. rewrite <- !app_assoc. reflexivity.
  - specialize (Second H1). cbn [nth].
    destruct (forallb is_byte data); exact Second.
Qed.

Lemma send_can_message_connects_twice_witness :
  fst (send_can_message "socketcan" "vcan0" 0x123 [1; 2; 3] Args.defaults
         (world_of [Raises (Exception "No such device");
                    Raises (Exception "No such device")]))
  = Return false.
Proof.
  apply (send_can_message_connects_twice
           "socketcan" "vcan0" 0x123 [1; 2; 3] Args.defaults
           (world_of [Raises (Exception "No such device");
                      Raises (Exception "No such device")])
           eq_refl).
Defined.


(** ** Monitoring *)

Lemma read_loop_keeps {X} (attr : Reader.t -> X) :
  (forall msgs, keeps attr (poll msgs)) ->
  forall turns msgs, keeps attr (read_loop turns msgs).
Proof.
  intros K. induction turns as [ | turns IH]; intros msgs; simpl.
  - apply keeps_ret.
  - apply keeps_bind; [ apply K | intros [go l] ].
    destruct go; simpl; [ apply IH | apply keeps_ret ].
Qed.

(** Neither thread writes to the flag or to the callback of the monitor. *)
Lemma thread_start_keeps_monitor t :
  keeps Reader.monitor_running (thread_start t)
  /\ keeps Reader.monitor_callback (thread_start t).
Proof.
  split; apply keeps_thread_start;
    match goal with
    | |- keeps ?attr _ =>
        pose proof (@read_loop_keeps _ attr
                      ltac:(intros msgs; unfold poll; keeps_tac))
    end;
    unfold monitor_body, health_monitor_body; unfold_methods; keeps_tac.
Qed.

Lemma start_monitoring_ignored c s :
  Reader.monitor_running (self s) = true ->
  start_monitoring c s = (Return tt, s).
Proof.
  intros H. unfold start_monitoring. unfold bind at 1. unfold get_self at 1.
  rewrite H. reflexivity.
Qed.

Lemma start_monitoring_starts c s :
  Reader.monitor_running (self s) = false ->
  Reader.monitor_running (self (snd (start_monitoring c s))) = true
  /\ Reader.monitor_callback (self (snd (start_monitoring c s))) = c.
Proof.
  intros H.
  assert (E : snd (start_monitoring c s)
              = snd ((thread_start MonitorThread ;;
                      log_text "Started CAN bus monitoring" 0)
                       (mkState
                          (Reader.set_monitor_thread (Some MonitorThread)
                             (Reader.set_monitor_running true
                                (Reader.set_monitor_callback c (self s))))
                          (world s)))).
  { unfold start_monitoring. unfold bind at 1. unfold get_self at 1.
    rewrite H. reflexivity. }
  rewrite E. destruct (thread_start_keeps_monitor MonitorThread) as [K1 K2].
  split.
  - assert (K : keeps Reader.monitor_running
                  (thread_start MonitorThread ;;
                   log_text "Started CAN bus monitoring" 0))
      by keeps_tac.
    rewrite K. reflexivity.
  - assert (K : keeps Reader.monitor_callback
                  (thread_start MonitorThread ;;
                   log_text "Started CAN bus monitoring" 0))
      by keeps_tac.
    rewrite K. reflexivity.
Qed.

Lemma stop_monitoring_stops s :
  Reader.monitor_running (self (snd (stop_monitoring s))) = false.
Proof.
  unfold stop_monitoring, bind, get_self, update, ret. simpl.
  destruct (Reader.monitor_thread (self s)); simpl;
    rewrite log_text_run; simpl; rewrite self_logged; reflexivity.
Qed.

(** X24.  [start_monitoring] on a running monitor is ignored: the callback
    of the first call stays in place; a new callback is taken only after
    [stop_monitoring]. *)
Theorem start_monitoring_keeps_first_callback c1 c2 s :
  Reader.monitor_running (self s) = false ->
  let started := snd (start_monitoring c1 s) in
  let again := snd (start_monitoring c2 started) in
  let restarted := snd (start_monitoring c2 (snd (stop_monitoring started))) in
  (Reader.monitor_running (self started) = true
   /\ Reader.monitor_callback (self started) = c1)
  /\ again = started
  /\ (Reader.monitor_running (self restarted) = true
      /\ Reader.monitor_callback (self restarted) = c2).
Proof.
  intros H started again restarted.
  assert (S1 : Reader.monitor_running (self started) = true
               /\ Reader.monitor_callback (self started) = c1)
    by (apply start_monitoring_starts, H).
  split; [ exact S1 | ]. split.
  - subst again. rewrite start_monitoring_ignored by apply S1. reflexivity.
  - apply start_monitoring_starts, stop_monitoring_stops.
Qed.

Lemma start_monitoring_keeps_first_callback_witness :
  Reader.monitor_callback
    (self (snd (start_monitoring (Some 2%nat)
                  (snd (start_monitoring (Some 1%nat) fresh)))))
  = Some 1%nat.
Proof.
  destruct (start_monitoring_keeps_first_callback
              (Some 1%nat) (Some 2%nat) fresh eq_refl) as ((_ & C) & A & _).
  cbv zeta in A. rewrite A. exact C.
Defined.

(** ** What the monitor thread does at its start *)

Lemma establishes_bind {A B} (P Q : State -> Prop) (m : M A) (k : A -> M B) :
  establishes P Q m -> (forall a, maintains Q (k a)) ->
  establishes P Q (bind m k).
Proof.
  intros Hm Hk s H. unfold bind. specialize (Hm s H).
  destruct (m s) as [[a | e] s1]; simpl in *.
  - apply Hk. exact Hm.
  - exact Hm.
Qed.

Lemma establishes_try_catch {A} (P Q : State -> Prop) (m : M A) h :
  establishes P Q m -> (forall e, maintains Q (h e)) ->
  establishes P Q (try_catch m h).
Proof.
  intros Hm Hh s H. unfold try_catch. specialize (Hm s H).
  destruct (m s) as [[a | e] s1]; simpl in *.
  - exact Hm.
  - apply Hh. exact Hm.
Qed.

Lemma extends_same {A} t (m : M A) :
  (forall s, trace (snd (m s)) = trace s) -> maintains (extends t) m.
Proof. intros E s [calls H]. exists calls. rewrite E. exact H. Qed.

Lemma extends_transport t c : maintains (extends t) (transport c).
Proof.
  intros s [calls H]. exists (calls ++ [c])%list.
  unfold transport, trace in *.
  destruct (World.responses _) as [ | [m | e] rest]; simpl;
    rewrite H, app_assoc; reflexivity.
Qed.

Lemma extends_ret {A} t (a : A) : maintains (extends t) (ret a).
Proof. apply extends_same. reflexivity. Qed.

Lemma extends_raise {A} t e : maintains (extends t) (@raise A e).
Proof. apply extends_same. reflexivity. Qed.

Lemma extends_get_self t : maintains (extends t) get_self.
Proof. apply extends_same. reflexivity. Qed.

Lemma extends_update t f : maintains (extends t) (update f).
Proof. apply extends_same. reflexivity. Qed.

Lemma extends_update_stats t f : maintains (extends t) (update_stats f).
Proof. apply extends_same. reflexivity. Qed.

Lemma extends_time_time t : maintains (extends t) time_time.
Proof.
  apply extends_same. intros s. unfold time_time.
  destruct (World.clock (world s)); reflexivity.
Qed.

Lemma extends_deadline_polls t q : maintains (extends t) (deadline_polls q).
Proof.
  apply extends_same. intros s. unfold deadline_polls.
  destruct (World.polls (world s)); reflexivity.
Qed.

Lemma extends_scheduled t : maintains (extends t) scheduled.
Proof.
  apply extends_same. intros s. unfold scheduled.
  destruct (World.sched (world s)); reflexivity.
Qed.

Lemma extends_log t d l : maintains (extends t) (log d l).
Proof.
  apply extends_same. intros s. rewrite log_run. apply trace_logged.
Qed.

Lemma extends_log_text t d l : maintains (extends t) (log_text d l).
Proof. apply extends_log. Qed.

Ltac extends_step :=
  match goal with
  | |- maintains _ (bind _ _) => apply maintains_bind; [ | intros ? ]
  | |- maintains _ (try_catch _ _) => apply maintains_try_catch; [ | intros ? ]
  | |- maintains _ (if ?b then _ else _) => destruct b
  | |- maintains _ (match ?x with _ => _ end) => destruct x
  | |- maintains _ _ =>
      solve [ auto using extends_ret, extends_raise, extends_get_self,
                extends_update, extends_update_stats, extends_transport,
                extends_time_time, extends_deadline_polls, extends_scheduled,
                extends_log, extends_log_text ]
  end.
Ltac extends_tac := repeat extends_step.

Lemma read_loop_extends t turns : forall msgs,
  maintains (extends t) (read_loop turns msgs).
Proof.
  induction turns as [ | turns IH]; intros msgs; simpl.
  - apply extends_ret.
  - apply maintains_bind; [ unfold poll, bus_method; extends_tac | intros [go l] ].
    destruct go; simpl; [ apply IH | apply extends_ret ].
Qed.

Lemma monitor_each_extends t messages :
  maintains (extends t) (monitor_each messages).
Proof.
  induction messages as [ | message rest IH]; simpl.
  - apply extends_ret.
  - extends_tac.
Qed.

Lemma monitor_body_extends t : maintains (extends t) monitor_body.
Proof.
  pose proof (@read_loop_extends t). pose proof (@monitor_each_extends t).
  unfold monitor_body. unfold_methods. extends_tac.
Qed.

Lemma thread_start_run t s n rest :
  World.sched (world s) = n :: rest ->
  thread_start t s
  = try_catch (target t n) (fun _ => ret tt)
      (mkState (self s) (World.set_sched rest (world s))).
Proof. intros H. unfold thread_start, bind, scheduled. rewrite H. reflexivity. Qed.

Lemma start_monitoring_first_turn c s turns rest :
  Reader.monitor_running (self s) = false ->
  World.sched (world s) = S turns :: rest ->
  start_monitoring c s
  = (try_catch (monitor_body ;; loop turns Reader.monitor_running monitor_body)
               (fun _ => ret tt) ;;
     log_text "Started CAN bus monitoring" 0)
      (mkState
         (Reader.set_monitor_thread (Some MonitorThread)
            (Reader.set_monitor_running true
               (Reader.set_monitor_callback c (self s))))
         (World.set_sched rest (world s))).
Proof.
  intros H Hs. unfold start_monitoring. unfold bind at 1. unfold get_self at 1.
  rewrite H.
  set (s3 := mkState
         (Reader.set_monitor_thread (Some MonitorThread)
            (Reader.set_monitor_running true
               (Reader.set_monitor_callback c (self s))))
         (world s)).
  transitivity ((thread_start MonitorThread ;;
                 log_text "Started CAN bus monitoring" 0) s3);
    [ reflexivity | ].
  unfold bind at 1. rewrite (@thread_start_run MonitorThread s3 (S turns) rest Hs).
  reflexivity.
Qed.

Lemma connected_keeps {A} (m : M A) :
  keeps Reader.is_connected m ->
  maintains (fun s => Reader.is_connected (self s) = true) m.
Proof. intros K s H. rewrite (K s). exact H. Qed.

Lemma connected_connect :
  maintains (fun s => Reader.is_connected (self s) = true) connect.
Proof. intros s H. rewrite (connect_when_connected s H). exact H. Qed.

Ltac connected_step :=
  match goal with
  | |- maintains _ (bind _ _) => apply maintains_bind; [ | intros ? ]
  | |- maintains _ (try_catch _ _) => apply maintains_try_catch; [ | intros ? ]
  | |- maintains _ (if ?b then _ else _) => destruct b
  | |- maintains _ (match ?x with _ => _ end) => destruct x
  | |- maintains _ _ => solve [ auto using connected_connect ]
  | |- maintains _ _ => solve [ apply connected_keeps; keeps_tac ]
  end.
Ltac connected_tac := repeat connected_step.

Lemma monitor_body_stays_connected :
  maintains (fun s => Reader.is_connected (self s) = true) monitor_body.
Proof.
  pose proof (@read_loop_keeps _ Reader.is_connected
                ltac:(intros msgs; unfold poll; keeps_tac)) as KL.
  assert (forall n l, maintains (fun s => Reader.is_connected (self s) = true)
                        (read_loop n l))
    by (intros n l; apply connected_keeps, KL).
  unfold monitor_body, read_messages, ensure_connected, read_connected,
    read_try, read_except.
  connected_tac.
Qed.

(** X27.  [start_monitoring] reaches the transport through the thread it
    starts: on a disconnected reader whose monitor is off, and when the
    scheduler gives the new thread a turn before [start_monitoring]
    returns, the bus has been opened with the reader's configuration by
    then; if the reader has no filter rule and the transport accepts the
    opening, the reader is flagged connected when [start_monitoring]
    returns. *)
Theorem start_monitoring_reaches_the_bus callback s turns rest :
  Reader.monitor_running (self s) = false ->
  Reader.is_connected (self s) = false ->
  World.sched (world s) = S turns :: rest ->
  let s' := snd (start_monitoring callback s) in
  (exists calls,
      trace s' = (trace s ++ BusOpen (bus_config (self s)) :: calls)%list)
  /\ (Reader.filters (self s) = [] -> next_call_returns s = true ->
      Reader.is_connected (self s') = true).
Proof.
  intros Hm Hd Hs s'. subst s'.
  rewrite (@start_monitoring_first_turn callback s turns rest Hm Hs).
  match goal with
  | |- context [bind _ _ ?s0] => set (s4 := s0)
  end.
  set (t := (trace s ++ [BusOpen (bus_config (self s))])%list).
  assert (E : forall Q : State -> Prop,
            maintains Q monitor_body ->
            (forall text level, maintains Q (log_text text level)) ->
            (forall timeout, maintains Q (read_connected timeout)) ->
            (forall ms, maintains Q (monitor_each ms)) ->
            Q (snd (connect s4)) ->
            Q (snd ((try_catch (monitor_body ;;
                                loop turns Reader.monitor_running monitor_body)
                               (fun _ => ret tt) ;;
                     log_text "Started CAN bus monitoring" 0) s4))).
  { intros Q Qb Ql Qr Qe Qc.
    assert (R : establishes (fun s0 => s0 = s4) Q
                  (read_messages (Some (1 # 10)%Q))).
    { intros s0 ->. unfold read_messages. unfold bind at 1.
      rewrite ensure_connected_run.
      replace (Reader.is_connected (self s4)) with false by (symmetry; exact Hd).
      destruct (connect s4) as [[[ | ] | e] s5]; simpl in *.
      - apply Qr, Qc.
      - exact Qc.
      - exact Qc. }
    apply (@establishes_bind _ _ (fun s0 => s0 = s4) Q); [ | intros ?; apply Ql | reflexivity ].
    apply establishes_try_catch; [ | intros ?; intros ? H; exact H ].
    apply establishes_bind;
      [ | intros ?; apply maintains_loop; exact Qb ].
    unfold monitor_body.
    apply establishes_try_catch; [ | intros ?; apply Ql ].
    apply establishes_bind; [ exact R | exact Qe ]. }
  pose proof (connect_trace s4 Hd) as T. fold t in T.
  split.
  - destruct (E (extends t)) as [calls X].
    + apply monitor_body_extends.
    + intros. apply extends_log_text.
    + intros timeout. pose proof (@read_loop_extends t).
      unfold read_connected, read_try, read_except. extends_tac.
    + apply monitor_each_extends.
    + unfold extends. rewrite T. eexists. subst t.
      rewrite <- app_assoc. reflexivity.
    + exists calls. rewrite X. subst t. rewrite <- app_assoc. reflexivity.
  - intros Hf Hn.
    apply (E (fun s0 => Reader.is_connected (self s0) = true)).
    + apply monitor_body_stays_connected.
    + intros. apply connected_keeps, keeps_log_text.
    + intros timeout.
      pose proof (@read_loop_keeps _ Reader.is_connected
                    ltac:(intros msgs; unfold poll; keeps_tac)) as KL.
      apply connected_keeps.
      unfold read_connected, read_try, read_except. keeps_tac.
    + intros ms. apply connected_keeps, keeps_monitor_each.
    + destruct (@connect_opened s4 Hd Hf) as (s5 & -> & C & _); [ exact Hn | exact C ].
Qed.

Lemma start_monitoring_reaches_the_bus_witness :
  trace (snd (start_monitoring None monitored))
  = [BusOpen (bus_config (self fresh))]
  /\ Reader.is_connected (self (snd (start_monitoring None monitored))) = true.
Proof.
  destruct (@start_monitoring_reaches_the_bus None monitored 0 []
              eq_refl eq_refl eq_refl) as ([calls T] & C).
  split; [ vm_compute; reflexivity | ].
  apply C; reflexivity.
Defined.

(** ** The frames of a health check *)

(** X25.  The probe of [check_health] is a real read: on a connected
    reader the frames it receives are taken from the transport and counted
    in [received_messages] and [total_messages], but [check_health]
    returns only [True] and the frames reach nobody. *)
Theorem check_health_consumes_frames s :
  Reader.is_connected (self s) = true ->
  exists frames s1,
    read_messages (Some (1 # 10)%Q) s = (Return frames, s1)
    /\ fst (check_health s) = Return true
    /\ received_more (List.length frames) (self s)
                     (self (snd (check_health s)))
    /\ trace (snd (check_health s)) = trace s1
    /\ World.responses (world (snd (check_health s)))
       = World.responses (world s1).
Proof.
  intros Hc.
  destruct (read_messages_run (Some (1 # 10)%Q) s) as (fs & s1 & E & _ & C & _).
  exists fs, s1. split; [ exact E | ].
  unfold check_health, try_catch, check_health_try, bind, get_self.
  rewrite Hc. simpl. rewrite E.
  unfold update, time_time, ret. simpl.
  destruct (World.clock (world s1)); simpl; repeat split; exact C.
Qed.

Lemma check_health_consumes_frames_witness :
  counters (self (snd (check_health rpm_connected))) = (1, 1, 0).
Proof.
  destruct (check_health_consumes_frames rpm_connected eq_refl)
    as (frames & s1 & E & _ & C & _).
  vm_compute in E. injection E as <- <-.
  exact C.
Defined.

(** ** Generated names *)

Lemma hex_value_digit d : (d < 16)%N -> hex_value (hex_digit d) = d.
Proof.
  intros H. destruct d as [ | p]; [ reflexivity | ].
  do 4 (destruct p as [p | p | ]; try reflexivity); exfalso; lia.
Qed.

Lemma hex_digit_not_minus d : hex_digit d <> "-"%char.
Proof.
  unfold hex_digit. destruct d as [ | p]; [ discriminate | ].
  do 4 (destruct p as [p | p | ]; try discriminate).
Qed.

Lemma unhex_hex_digits fuel : forall n acc,
  (n < 16 ^ N.of_nat fuel)%N ->
  unhex (hex_digits fuel n acc) 0 = unhex acc n.
Proof.
  induction fuel as [ | fuel IH]; intros n acc H.
  - simpl in *. assert (n = 0%N) by lia. subst. reflexivity.
  - cbn [hex_digits]. rewrite Nat2N.inj_succ, N.pow_succ_r' in H.
    assert (M : (n mod 16 < 16)%N) by (apply N.mod_lt; discriminate).
    pose proof (N.div_mod n 16 ltac:(discriminate)) as D.
    destruct (N.eqb (n / 16) 0) eqn:E.
    + apply N.eqb_eq in E. cbn [unhex]. rewrite hex_value_digit by exact M.
      f_equal. lia.
    + rewrite IH.
      * cbn [unhex]. rewrite hex_value_digit by exact M. f_equal. lia.
      * apply N.Div0.div_lt_upper_bound. lia.
Qed.

Lemma hex_digits_starts_with_digit fuel : forall n acc,
  exists d rest, hex_digits (S fuel) n acc = String (hex_digit d) rest.
Proof.
  induction fuel as [ | fuel IH]; intros n acc.
  - cbn [hex_digits]. destruct (N.eqb (n / 16) 0); eauto.
  - remember (S fuel) as f. cbn [hex_digits].
    destruct (N.eqb (n / 16) 0); [ eauto | ].
    subst f. apply IH.
Qed.

Lemma size_bound n : (n < 16 ^ N.of_nat (S (N.to_nat (N.size n))))%N.
Proof.
  rewrite Nat2N.inj_succ, N2Nat.id.
  pose proof (N.size_gt n) as G.
  assert (L : (2 ^ N.size n <= 16 ^ N.succ (N.size n))%N).
  { change 16%N with (2 ^ 4)%N. rewrite <- N.pow_mul_r.
    apply N.pow_le_mono_r; [ discriminate | lia ]. }
  lia.
Qed.

(** X26.  The text [format_X] writes for an identifier reads back as that
    identifier, so the generated names tell identifiers apart: frames of
    different identifiers never get the same generated name. *)
Theorem generated_names_tell_identifiers_apart :
  (forall id, parse_X (format_X id) = id)
  /\ (forall id1 id2, default_name id1 = default_name id2 -> id1 = id2).
Proof.
  assert (P : forall id, parse_X (format_X id) = id).
  { intros id. unfold format_X.
    pose proof (@unhex_hex_digits _ (Z.abs_N id) EmptyString
                  (size_bound (Z.abs_N id))) as U.
    cbn [unhex] in U.
    destruct (hex_digits_starts_with_digit (N.to_nat (N.size (Z.abs_N id)))
                (Z.abs_N id) EmptyString) as (d & rest & E).
    cbv zeta. destruct (id <? 0) eqn:S.
    - apply Z.ltb_lt in S. cbn [append parse_X]. rewrite U. lia.
    - apply Z.ltb_ge in S. rewrite E in *.
      unfold parse_X.
      pose proof (hex_digit_not_minus d) as Nm.
      destruct (hex_digit d) as [b0 b1 b2 b3 b4 b5 b6 b7] eqn:Hd.
      destruct b0, b1, b2, b3, b4, b5, b6, b7;
        try (exfalso; apply Nm; reflexivity); rewrite U; lia. }
  split; [ exact P | ].
  intros id1 id2 H. unfold default_name in H.
  cbn [append] in H. injection H as H.
  rewrite <- (P id1), <- (P id2), H. reflexivity.
Qed.
